(** * tr-engine / tools / whisper-server

    A shallow embedding of [server.py] (the OpenAI-compatible front-end over
    faster-whisper) and of [sweep.py] (the parameter sweep driver), together
    with the properties of the two programs that the specification states.

    Layout:
    - [Py]      the Python built-ins the two programs rely on (exceptions,
                [str.strip], [str.split], [str.join], [float()], [int()],
                [round()], [%], [//], format specifications), over binary64
                floats given by the Standard Library's [SpecFloat];
    - [Server]  [server.py];
    - [Sweep]   [sweep.py];
    - the lemmas and theorems, in the same order.

    Strings are Rocq strings; a character is a code point below 256.  A
    float is a [spec_float] of the Standard Library at precision 53 and
    exponent bound 1024, with the library's correctly rounded operations;
    what Python adds to them ([%], [//], [round], [int], [float], the
    [f]-string formats) follows CPython.  The inference engine, the file
    system, the clock, the sub-process runner and the JSON decoder are
    collaborators of the programs and appear as parameters; what the two
    programs print to the console is not modelled, only the exceptions the
    formatting for it can raise.

    Two things are settings of the interpreter and not of the programs,
    and are left out of the model.  The limit on the decimal digits of an
    [int] that is read from or written as text ([sys.int_max_str_digits],
    4300 unless it is changed) is not modelled: [int_of_string],
    [str_of_int] and [format_0d] convert ints of any size, and a statement
    that such a conversion returns, for an int taken from the input, takes
    the int below [10^4300], so that it holds with the limit as without.
    The message of an exception of the model is [str(e)] for what [float()],
    [int()] and a missing key raise; for the others it is the fixed part
    of the message, without the operand types or the path it quotes.  No
    statement rests on it: the sweep takes [str(e)] only of what its
    collaborators raise. *)

From Stdlib Require Import ZArith List String Ascii Bool Lia Floats
  DecimalPos.
From stdpp Require Import gmap strings.
Import ListNotations.

Open Scope string_scope.
Open Scope list_scope.
Open Scope Z_scope.

(* ===================================================================== *)
(** * Python built-ins *)
(* ===================================================================== *)

Module Py.

(** ** Exceptions and fallible computations *)

(** An exception: its class name and its message (see the head of the
    file for what the message holds). *)
Record exn := Exn { exn_class : string; exn_str : string }.

Definition ValueError (msg : string) := Exn "ValueError" msg.
Definition TypeError (msg : string) := Exn "TypeError" msg.
Definition KeyError (msg : string) := Exn "KeyError" msg.
Definition OverflowError (msg : string) := Exn "OverflowError" msg.
Definition ZeroDivisionError (msg : string) := Exn "ZeroDivisionError" msg.
Definition AttributeError (msg : string) := Exn "AttributeError" msg.
Definition FileNotFoundError (msg : string) := Exn "FileNotFoundError" msg.

Inductive result (A : Type) : Type :=
| Ok (a : A)
| Raise (e : exn).
Arguments Ok {A} a.
Arguments Raise {A} e.

Definition bind {A B} (r : result A) (k : A -> result B) : result B :=
  match r with
  | Ok a => k a
  | Raise e => Raise e
  end.

Notation "x <- r ;; k" := (bind r (fun x => k))
  (at level 100, r at next level, right associativity).

(** [[f(x) for x in l]] where [f] may raise: the first exception wins. *)
Fixpoint traverse {A B} (f : A -> result B) (l : list A) : result (list B) :=
  match l with
  | [] => Ok []
  | a :: l' => b <- f a ;; bs <- traverse f l' ;; Ok (b :: bs)
  end.

(** ** Strings *)

Definition comma : ascii := ","%char.

(** [str.isspace] on a single character below 256. *)
Definition is_space (c : ascii) : bool :=
  let n := N_of_ascii c in
  ((9 <=? n) && (n <=? 13) || (28 <=? n) && (n <=? 32)
   || (n =? 133) || (n =? 160))%N.

Definition is_digit (c : ascii) : bool :=
  let n := N_of_ascii c in ((48 <=? n) && (n <=? 57))%N.

Definition digit_val (c : ascii) : Z := Z.of_N (N_of_ascii c) - 48.

Fixpoint lstrip (s : string) : string :=
  match s with
  | String c s' => if is_space c then lstrip s' else s
  | EmptyString => EmptyString
  end.

Fixpoint rstrip (s : string) : string :=
  match s with
  | EmptyString => EmptyString
  | String c s' =>
      match rstrip s' with
      | EmptyString => if is_space c then EmptyString else String c EmptyString
      | r => String c r
      end
  end.

(** [s.strip()] *)
Definition strip (s : string) : string := lstrip (rstrip s).

(** [c in s] for a one-character needle. *)
Fixpoint contains (c : ascii) (s : string) : bool :=
  match s with
  | EmptyString => false
  | String a s' => Ascii.eqb a c || contains c s'
  end.

(** [s.split(c)] for a one-character separator. *)
Fixpoint split (c : ascii) (s : string) : list string :=
  match s with
  | EmptyString => [EmptyString]
  | String a s' =>
      if Ascii.eqb a c then EmptyString :: split c s'
      else match split c s' with
           | h :: t => String a h :: t
           | [] => [String a EmptyString]
           end
  end.

(** [sep.join(l)] *)
Fixpoint join (sep : string) (l : list string) : string :=
  match l with
  | [] => EmptyString
  | [x] => x
  | x :: l' => x +:+ sep +:+ join sep l'
  end.

(** Truthiness of a string: non-empty. *)
Definition nonempty (s : string) : bool :=
  match s with EmptyString => false | _ => true end.

(** *** [repr(s)] *)

Definition hex_digit (n : N) : ascii :=
  ascii_of_N (if (n <? 10)%N then 48 + n else 87 + n)%N.

(** [\xhh] *)
Definition hex_escape (c : ascii) : string :=
  let n := N_of_ascii c in
  String "\" (String "x" (String (hex_digit (n / 16)%N)
    (String (hex_digit (n mod 16)%N) EmptyString))).

(** The characters [repr] writes as they are: the printable ones. *)
Definition is_printable (c : ascii) : bool :=
  let n := N_of_ascii c in
  ((32 <=? n) && (n <? 127) || (161 <=? n) && negb (n =? 173))%N.

Definition double_quote : ascii := "034"%char.

Fixpoint repr_chars (quote : ascii) (s : string) : string :=
  match s with
  | EmptyString => EmptyString
  | String c s' =>
      (if Ascii.eqb c quote || Ascii.eqb c "\" then
         String "\" (String c EmptyString)
       else if Ascii.eqb c "009" then "\t"
       else if Ascii.eqb c "010" then "\n"
       else if Ascii.eqb c "013" then "\r"
       else if is_printable c then String c EmptyString
       else hex_escape c)
      +:+ repr_chars quote s'
  end.

(** [repr(s)]: between single quotes, or between double quotes when [s]
    holds a single quote and no double quote. *)
Definition repr_str (s : string) : string :=
  let quote :=
    if contains "'" s && negb (contains double_quote s) then double_quote
    else "'"%char in
  String quote (repr_chars quote s +:+ String quote EmptyString).

(** ** Integers as text *)

Fixpoint digits_of_uint (d : Decimal.uint) : string :=
  match d with
  | Decimal.Nil => EmptyString
  | Decimal.D0 d => String "0" (digits_of_uint d)
  | Decimal.D1 d => String "1" (digits_of_uint d)
  | Decimal.D2 d => String "2" (digits_of_uint d)
  | Decimal.D3 d => String "3" (digits_of_uint d)
  | Decimal.D4 d => String "4" (digits_of_uint d)
  | Decimal.D5 d => String "5" (digits_of_uint d)
  | Decimal.D6 d => String "6" (digits_of_uint d)
  | Decimal.D7 d => String "7" (digits_of_uint d)
  | Decimal.D8 d => String "8" (digits_of_uint d)
  | Decimal.D9 d => String "9" (digits_of_uint d)
  end.

(** Decimal digits of a natural number, ["0"] for zero. *)
Definition digits_of_N (n : N) : string :=
  match n with
  | N0 => "0"
  | Npos p => digits_of_uint (Pos.to_uint p)
  end.

(** [str(z)] for an [int]. *)
Definition str_of_int (z : Z) : string :=
  match z with
  | Zneg p => String "-" (digits_of_N (Npos p))
  | _ => digits_of_N (Z.to_N z)
  end.

Fixpoint repeat_char (c : ascii) (n : nat) : string :=
  match n with
  | O => EmptyString
  | S n' => String c (repeat_char c n')
  end.

(** [format(z, "0<w>d")]: sign-aware zero padding to a minimum width. *)
Definition format_0d (w : nat) (z : Z) : string :=
  let sign := if z <? 0 then "-" else "" in
  let ds := digits_of_N (Z.to_N (Z.abs z)) in
  sign +:+ repeat_char "0" (w - String.length sign - String.length ds)%nat
       +:+ ds.

(** ** Floats: IEEE 754 binary64 *)

Definition prec : Z := 53.
Definition emax : Z := 1024.

Abbreviation float := spec_float.

Definition pzero : float := S754_zero false.
Definition nzero : float := S754_zero true.
Definition nan : float := S754_nan.

Definition fadd : float -> float -> float := SFadd prec emax.
Definition fsub : float -> float -> float := SFsub prec emax.
Definition fmul : float -> float -> float := SFmul prec emax.
Definition fdiv : float -> float -> float := SFdiv prec emax.

(** [x == y], [x < y] and [x > y] on floats. *)
Definition feq : float -> float -> bool := SFeqb.
Definition flt : float -> float -> bool := SFltb.
Definition fgt (x y : float) : bool := SFltb y x.

Definition is_finite (x : float) : bool :=
  match x with
  | S754_zero _ | S754_finite _ _ _ => true
  | _ => false
  end.

(** The float nearest to an integer (ties to even). *)
Definition float_of_Z (z : Z) : float := binary_normalize prec emax z 0 false.

(** The float nearest to [(-1)^neg * n / d] (ties to even). *)
Definition float_of_ratio (neg : bool) (n d : positive) : float :=
  fdiv (S754_finite neg n 0) (S754_finite false d 0).

(** The float nearest to [(-1)^neg * m * 10^e] (ties to even), as the
    decimal-to-binary conversion of the runtime computes it. *)
Definition float_of_decimal (neg : bool) (m e : Z) : float :=
  match m with
  | Zpos p =>
      match e with
      | Zneg k => float_of_ratio neg p (Pos.pow 10 k)
      | _ => binary_normalize prec emax (cond_Zopp neg (m * 10 ^ e)) 0 neg
      end
  | _ => S754_zero neg
  end.

(** The sign bit. *)
Definition sign_of (x : float) : bool :=
  match x with
  | S754_zero s | S754_infinity s | S754_finite s _ _ => s
  | S754_nan => false
  end.

(** *** [float(s)] *)

(** White space as [float()] skips it: unlike [str.strip], the separators
    U+001C..U+001F are not skipped. *)
Definition is_float_space (c : ascii) : bool :=
  let n := N_of_ascii c in
  ((9 <=? n) && (n <=? 13) || (n =? 32) || (n =? 133) || (n =? 160))%N.

Fixpoint float_lstrip (s : string) : string :=
  match s with
  | String c s' => if is_float_space c then float_lstrip s' else s
  | EmptyString => EmptyString
  end.

Fixpoint float_rstrip (s : string) : string :=
  match s with
  | EmptyString => EmptyString
  | String c s' =>
      match float_rstrip s' with
      | EmptyString =>
          if is_float_space c then EmptyString else String c EmptyString
      | r => String c r
      end
  end.

(** Underscores may only separate two digits; they are dropped. *)
Fixpoint drop_underscores (prev : ascii) (s : string) : option string :=
  match s with
  | EmptyString => if Ascii.eqb prev "_" then None else Some EmptyString
  | String c s' =>
      if Ascii.eqb c "_" then
        if is_digit prev then drop_underscores c s' else None
      else if Ascii.eqb prev "_" && negb (is_digit c) then None
      else option_map (String c) (drop_underscores c s')
  end.

Definition read_sign (s : string) : bool * string :=
  match s with
  | String "-" s' => (true, s')
  | String "+" s' => (false, s')
  | _ => (false, s)
  end.

(** The longest prefix of digits: its value on top of [acc], the number of
    digits read, and the rest. *)
Fixpoint read_digits (s : string) (acc : Z) (n : Z) : Z * Z * string :=
  match s with
  | String c s' =>
      if is_digit c then read_digits s' (10 * acc + digit_val c) (n + 1)
      else (acc, n, s)
  | EmptyString => (acc, n, s)
  end.

(** [sign? (digits ('.' digits?)? | '.' digits) ([eE] sign? digits)?] *)
Definition parse_decimal (s : string) : option float :=
  let '(neg, s1) := read_sign s in
  let '(ip, ni, s2) := read_digits s1 0 0 in
  let '(m, nf, s3) :=
    match s2 with
    | String "." s2' => read_digits s2' ip 0
    | _ => (ip, 0, s2)
    end in
  if ni + nf =? 0 then None
  else
    match s3 with
    | EmptyString => Some (float_of_decimal neg m (- nf))
    | String c s4 =>
        if Ascii.eqb c "e" || Ascii.eqb c "E" then
          let '(eneg, s5) := read_sign s4 in
          let '(ev, ne, s6) := read_digits s5 0 0 in
          if ne =? 0 then None
          else
            match s6 with
            | EmptyString =>
                Some (float_of_decimal neg m (cond_Zopp eneg ev - nf))
            | _ => None
            end
        else None
    end.

Definition lower (c : ascii) : ascii :=
  let n := N_of_ascii c in
  if ((65 <=? n) && (n <=? 90))%N then ascii_of_N (n + 32) else c.

Fixpoint lower_string (s : string) : string :=
  match s with
  | EmptyString => EmptyString
  | String c s' => String (lower c) (lower_string s')
  end.

(** [sign? ("inf" | "infinity" | "nan")], whatever the case. *)
Definition parse_inf_or_nan (s : string) : option float :=
  let '(neg, s1) := read_sign s in
  let w := lower_string s1 in
  if String.eqb w "inf" || String.eqb w "infinity" then Some (S754_infinity neg)
  else if String.eqb w "nan" then Some nan
  else None.

(** [float(s)] for a string [s]. *)
Definition float_of_string (s : string) : result float :=
  let bad :=
    Raise (ValueError ("could not convert string to float: " +:+ repr_str s))
  in
  match drop_underscores "000" s with
  | None => bad
  | Some s1 =>
      let s2 := float_lstrip (float_rstrip s1) in
      match parse_decimal s2 with
      | Some x => Ok x
      | None =>
          match parse_inf_or_nan s2 with
          | Some x => Ok x
          | None => bad
          end
      end
  end.

(** *** Arithmetic of floats *)

(** C's [fmod]: the exact remainder, with the sign of [x]. *)
Definition fmod (x y : float) : float :=
  match x, y with
  | S754_nan, _ | _, S754_nan => nan
  | S754_infinity _, _ => nan
  | _, S754_zero _ => nan
  | _, S754_infinity _ => x
  | S754_zero _, _ => x
  | S754_finite sx mx ex, S754_finite _ my ey =>
      let e := Z.min ex ey in
      let a := Z.shiftl (Zpos mx) (ex - e) in
      let b := Z.shiftl (Zpos my) (ey - e) in
      binary_normalize prec emax (cond_Zopp sx (a mod b)) e sx
  end.

(** C's [floor]. *)
Definition ffloor (x : float) : float :=
  match x with
  | S754_finite s m (Zneg k) =>
      binary_normalize prec emax (Z.shiftr (cond_Zopp s (Zpos m)) (Zpos k)) 0 s
  | _ => x
  end.

(** [copysign(0.0, y)] *)
Definition zero_like (y : float) : float := S754_zero (sign_of y).

(** [bool(x)]: anything but a zero, NaN included. *)
Definition ftruthy (x : float) : bool :=
  match x with S754_zero _ => false | _ => true end.

(** The quotient and remainder behind [x // y] and [x % y] on floats. *)
Definition float_divmod (x y : float) : result (float * float) :=
  if feq y pzero then Raise (ZeroDivisionError "float floor division by zero")
  else
    let mod0 := fmod x y in
    let div0 := fdiv (fsub x mod0) y in
    let '(div1, mod1) :=
      if ftruthy mod0 then
        if negb (Bool.eqb (flt y pzero) (flt mod0 pzero))
        then (fsub div0 (float_of_Z 1), fadd mod0 y)
        else (div0, mod0)
      else (div0, zero_like y) in
    let floordiv :=
      if ftruthy div1 then
        let fl := ffloor div1 in
        if fgt (fsub div1 fl) (float_of_ratio false 1 2)
        then fadd fl (float_of_Z 1) else fl
      else zero_like (fdiv x y) in
    Ok (floordiv, mod1).

(** [x // y] on floats. *)
Definition float_floordiv (x y : float) : result float :=
  qr <- float_divmod x y ;; Ok (fst qr).

(** [x % y] on floats. *)
Definition float_mod (x y : float) : result float :=
  if feq y pzero then Raise (ZeroDivisionError "float modulo by zero")
  else
    let m := fmod x y in
    Ok (if ftruthy m then
          if negb (Bool.eqb (flt y pzero) (flt m pzero)) then fadd m y else m
        else zero_like y).

(** [int(x)] on a float: truncation towards zero. *)
Definition int_of_float (x : float) : result Z :=
  match x with
  | S754_zero _ => Ok 0
  | S754_finite s m e =>
      Ok (cond_Zopp s
            (match e with
             | Zneg k => Z.shiftr (Zpos m) (Zpos k)
             | _ => Z.shiftl (Zpos m) e
             end))
  | S754_infinity _ =>
      Raise (OverflowError "cannot convert float infinity to integer")
  | S754_nan => Raise (ValueError "cannot convert float NaN to integer")
  end.

Definition pow10 (nd : N) : positive :=
  match nd with
  | N0 => 1%positive
  | Npos k => Pos.pow 10 k
  end.

(** The integer nearest to [m * 2^e * 10^nd], ties to even: the digits of
    the correctly rounded decimal expansion with [nd] fractional digits. *)
Definition round_scaled (m : positive) (e : Z) (nd : N) : Z :=
  let n := Zpos (m * pow10 nd) in
  match e with
  | Zneg k =>
      let d := 2 ^ Zpos k in
      let q := n / d in
      let r := n mod d in
      match 2 * r ?= d with
      | Lt => q
      | Gt => q + 1
      | Eq => if Z.even q then q else q + 1
      end
  | _ => Z.shiftl n e
  end.

(** [round(x, nd)] on a float, for [nd >= 0]: to the decimal expansion with
    [nd] fractional digits and back to the nearest float. *)
Definition float_round (x : float) (nd : N) : float :=
  match x with
  | S754_finite s m e =>
      match round_scaled m e nd with
      | Zpos r => float_of_ratio s r (pow10 nd)
      | _ => S754_zero s
      end
  | _ => x
  end.

(** ** Numbers: [int] and [float] *)

Inductive num :=
| NInt (z : Z)
| NFloat (x : float).

(** [float(z)] for an [int]. *)
Definition float_of_int (z : Z) : result float :=
  let x := float_of_Z z in
  if is_finite x then Ok x
  else Raise (OverflowError "int too large to convert to float").

Definition to_float (a : num) : result float :=
  match a with
  | NInt z => float_of_int z
  | NFloat x => Ok x
  end.

(** Mixed arithmetic: two ints stay exact, otherwise both become floats. *)
Definition arith (fi : Z -> Z -> result num)
    (ff : float -> float -> result float) (a b : num) : result num :=
  match a, b with
  | NInt x, NInt y => fi x y
  | _, _ => x <- to_float a ;; y <- to_float b ;; r <- ff x y ;; Ok (NFloat r)
  end.

Definition num_add : num -> num -> result num :=
  arith (fun x y => Ok (NInt (x + y))) (fun x y => Ok (fadd x y)).

Definition num_mul : num -> num -> result num :=
  arith (fun x y => Ok (NInt (x * y))) (fun x y => Ok (fmul x y)).

Definition num_floordiv : num -> num -> result num :=
  arith (fun x y =>
           if y =? 0
           then Raise (ZeroDivisionError "integer division or modulo by zero")
           else Ok (NInt (x / y)))
        float_floordiv.

Definition num_mod : num -> num -> result num :=
  arith (fun x y =>
           if y =? 0
           then Raise (ZeroDivisionError "integer modulo by zero")
           else Ok (NInt (x mod y)))
        float_mod.

(** [a / b]: always a float; the quotient of two ints is correctly rounded. *)
Definition num_truediv (a b : num) : result num :=
  match a, b with
  | NInt x, NInt y =>
      match y with
      | Z0 => Raise (ZeroDivisionError "division by zero")
      | _ =>
          match x with
          | Z0 => Ok (NFloat (S754_zero (y <? 0)))
          | _ =>
              let q := float_of_ratio (negb (Bool.eqb (x <? 0) (y <? 0)))
                         (Z.to_pos (Z.abs x)) (Z.to_pos (Z.abs y)) in
              if is_finite q then Ok (NFloat q)
              else Raise
                     (OverflowError "integer division result too large for a float")
          end
      end
  | _, _ =>
      x <- to_float a ;; y <- to_float b ;;
      if feq y pzero then Raise (ZeroDivisionError "float division by zero")
      else Ok (NFloat (fdiv x y))
  end.

(** The exact comparison of an int with a float ([None] with NaN). *)
Definition compare_int_float (z : Z) (x : float) : option comparison :=
  match x with
  | S754_nan => None
  | S754_infinity s => Some (if s then Gt else Lt)
  | S754_zero _ => Some (z ?= 0)
  | S754_finite s m (Zneg k) =>
      Some (z * 2 ^ Zpos k ?= cond_Zopp s (Zpos m))
  | S754_finite s m e => Some (z ?= cond_Zopp s (Zpos m) * 2 ^ e)
  end.

Definition num_compare (a b : num) : option comparison :=
  match a, b with
  | NInt x, NInt y => Some (x ?= y)
  | NInt x, NFloat y => compare_int_float x y
  | NFloat x, NInt y => option_map CompOpp (compare_int_float y x)
  | NFloat x, NFloat y => SFcompare x y
  end.

(** [a < b] *)
Definition num_lt (a b : num) : bool :=
  match num_compare a b with Some Lt => true | _ => false end.

(** [int(a)] *)
Definition num_int (a : num) : result Z :=
  match a with
  | NInt z => Ok z
  | NFloat x => int_of_float x
  end.

(** [round(a, nd)] for [nd >= 0]: an int is returned unchanged. *)
Definition num_round (a : num) (nd : N) : num :=
  match a with
  | NInt z => NInt z
  | NFloat x => NFloat (float_round x nd)
  end.

(** [min(l)] on a non-empty sequence: the first of the smallest items. *)
Fixpoint min_from (cur : num) (l : list num) : num :=
  match l with
  | [] => cur
  | a :: l' => min_from (if num_lt a cur then a else cur) l'
  end.

(** ** Values: what [json.loads] returns and what a JSON response takes *)

#[warnings="-register-all"]
Inductive value :=
| VNone
| VBool (b : bool)
| VInt (z : Z)
| VFloat (x : float)
| VStr (s : string)
| VList (l : list value)
| VDict (kv : list (string * value)).

(** A dict keeps its keys in insertion order. *)
Abbreviation dict := (list (string * value)).

Fixpoint dict_lookup (k : string) (d : dict) : option value :=
  match d with
  | [] => None
  | (k', v) :: d' => if String.eqb k k' then Some v else dict_lookup k d'
  end.

(** [k in d] *)
Definition dict_has (k : string) (d : dict) : bool :=
  match dict_lookup k d with Some _ => true | None => false end.

(** [d[k]] *)
Definition dict_item (k : string) (d : dict) : result value :=
  match dict_lookup k d with
  | Some v => Ok v
  | None => Raise (KeyError (repr_str k))
  end.

(** [d.get(k, default)] *)
Definition dict_get (k : string) (default : value) (d : dict) : value :=
  match dict_lookup k d with
  | Some v => v
  | None => default
  end.

(** The number a value stands for in arithmetic; [bool] is a kind of int. *)
Definition as_num (v : value) : result num :=
  match v with
  | VInt z => Ok (NInt z)
  | VFloat x => Ok (NFloat x)
  | VBool b => Ok (NInt (if b then 1 else 0))
  | _ => Raise (TypeError "unsupported operand type(s)")
  end.

Definition of_num (a : num) : value :=
  match a with
  | NInt z => VInt z
  | NFloat x => VFloat x
  end.

(** *** [int(s)] for a string, base ten *)

Fixpoint all_digits (s : string) : bool :=
  match s with
  | EmptyString => true
  | String c s' => is_digit c && all_digits s'
  end.

Definition int_of_string (s : string) : result Z :=
  let bad :=
    Raise (ValueError ("invalid literal for int() with base 10: "
                         +:+ substring 0 200 (repr_str s))) in
  let '(neg, s1) := read_sign (float_lstrip (float_rstrip s)) in
  match drop_underscores "000" s1 with
  | Some ((String c s2) as ds) =>
      if all_digits ds then Ok (cond_Zopp neg (fst (fst (read_digits ds 0 0))))
      else bad
  | _ => bad
  end.

(** ** Values as Python treats them *)

(** [bool(v)] *)
Definition truthy (v : value) : bool :=
  match v with
  | VNone => false
  | VBool b => b
  | VInt z => negb (z =? 0)
  | VFloat x => ftruthy x
  | VStr s => nonempty s
  | VList l => match l with [] => false | _ => true end
  | VDict d => match d with [] => false | _ => true end
  end.

Fixpoint chars (s : string) : list value :=
  match s with
  | EmptyString => []
  | String c s' => VStr (String c EmptyString) :: chars s'
  end.

(** The items [for x in v] runs over. *)
Definition iterate (v : value) : result (list value) :=
  match v with
  | VList l => Ok l
  | VDict d => Ok (map (fun kv => VStr (fst kv)) d)
  | VStr s => Ok (chars s)
  | _ => Raise (TypeError "object is not iterable")
  end.

(** [len(v)] *)
Definition len (v : value) : result Z :=
  match v with
  | VList l => Ok (Z.of_nat (length l))
  | VDict d => Ok (Z.of_nat (length d))
  | VStr s => Ok (Z.of_nat (String.length s))
  | _ => Raise (TypeError "object has no len()")
  end.

(** [v[k]] for a string key. *)
Definition subscript (k : string) (v : value) : result value :=
  match v with
  | VDict d => dict_item k d
  | VList _ => Raise (TypeError "list indices must be integers or slices")
  | VStr _ => Raise (TypeError "string indices must be integers")
  | _ => Raise (TypeError "object is not subscriptable")
  end.

(** ** Format specifications *)

(** [format(a, ".3f")]: three fractional digits of the correctly rounded
    decimal expansion. *)
Definition format_3f (a : num) : result string :=
  x <- to_float a ;;
  Ok (match x with
      | S754_nan => "nan"
      | S754_infinity s => (if s then "-" else "") +:+ "inf"
      | S754_zero s => (if s then "-" else "") +:+ "0.000"
      | S754_finite s m e =>
          let r := round_scaled m e 3 in
          (if s then "-" else "") +:+ digits_of_N (Z.to_N (r / 1000))
            +:+ "." +:+ format_0d 3 (r mod 1000)
      end).

(** [format(s, ">w")] and [format(s, "<w")] on text. *)
Definition align_right (w : nat) (s : string) : string :=
  repeat_char " " (w - String.length s)%nat +:+ s.

Definition align_left (w : nat) (s : string) : string :=
  s +:+ repeat_char " " (w - String.length s)%nat.

(** Whether [format(v, "<6")] is defined: [None], lists and dicts reject a
    non-empty format specification. *)
Definition format_aligned_check (v : value) : result unit :=
  match v with
  | VNone | VList _ | VDict _ =>
      Raise (TypeError "unsupported format string passed to __format__")
  | _ => Ok tt
  end.

(** The line feed. *)
Definition nl : string := String "010" EmptyString.

End Py.

(* ===================================================================== *)
(** * server.py *)
(* ===================================================================== *)

Module Server.
Import Py.

(** ** Helpers *)

(** What [parse_temperature] returns: a float or a list of floats. *)
Inductive temperature_value :=
| TempScalar (x : float)
| TempList (l : list float).

Definition parse_temperature (raw : string) : result temperature_value :=
  if contains comma raw then
    l <- traverse (fun t => float_of_string (strip t))
           (List.filter (fun t => nonempty (strip t)) (split comma raw)) ;;
    Ok (TempList l)
  else
    val <- float_of_string raw ;;
    if feq val pzero then Ok (TempScalar pzero)
    else Ok (TempScalar val).

Definition format_timestamp (seconds : num) : result string :=
  q <- num_floordiv seconds (NInt 3600) ;;
  h <- num_int q ;;
  r <- num_mod seconds (NInt 3600) ;;
  q <- num_floordiv r (NInt 60) ;;
  m <- num_int q ;;
  r <- num_mod seconds (NInt 60) ;;
  s <- num_int r ;;
  r <- num_mod seconds (NInt 1) ;;
  p <- num_mul r (NInt 1000) ;;
  ms <- num_int p ;;
  Ok (format_0d 2 h +:+ ":" +:+ format_0d 2 m +:+ ":" +:+ format_0d 2 s
        +:+ "," +:+ format_0d 3 ms).

Definition format_vtt_timestamp (seconds : num) : result string :=
  q <- num_floordiv seconds (NInt 3600) ;;
  h <- num_int q ;;
  r <- num_mod seconds (NInt 3600) ;;
  q <- num_floordiv r (NInt 60) ;;
  m <- num_int q ;;
  r <- num_mod seconds (NInt 60) ;;
  s <- num_int r ;;
  r <- num_mod seconds (NInt 1) ;;
  p <- num_mul r (NInt 1000) ;;
  ms <- num_int p ;;
  Ok (format_0d 2 h +:+ ":" +:+ format_0d 2 m +:+ ":" +:+ format_0d 2 s
        +:+ "." +:+ format_0d 3 ms).

(** [seg[k]] used as a number. *)
Definition seg_num (k : string) (seg : dict) : result num :=
  v <- dict_item k seg ;; as_num v.

(** [seg[k].strip()] *)
Definition seg_stripped (k : string) (seg : dict) : result string :=
  v <- dict_item k seg ;;
  match v with
  | VStr s => Ok (strip s)
  | _ => Raise (AttributeError "object has no attribute 'strip'")
  end.

(** The lines [segments_to_srt] collects, [i] being the number of the
    first segment. *)
Fixpoint srt_lines (i : Z) (segments : list dict) : result (list string) :=
  match segments with
  | [] => Ok []
  | seg :: rest =>
      a <- seg_num "start" seg ;;
      ta <- format_timestamp a ;;
      b <- seg_num "end" seg ;;
      tb <- format_timestamp b ;;
      text <- seg_stripped "text" seg ;;
      ls <- srt_lines (i + 1) rest ;;
      Ok (str_of_int i :: (ta +:+ " --> " +:+ tb) :: text :: "" :: ls)
  end.

Definition segments_to_srt (segments : list dict) : result string :=
  lines <- srt_lines 1 segments ;; Ok (join nl lines).

Fixpoint vtt_lines (segments : list dict) : result (list string) :=
  match segments with
  | [] => Ok []
  | seg :: rest =>
      a <- seg_num "start" seg ;;
      ta <- format_vtt_timestamp a ;;
      b <- seg_num "end" seg ;;
      tb <- format_vtt_timestamp b ;;
      text <- seg_stripped "text" seg ;;
      ls <- vtt_lines rest ;;
      Ok ((ta +:+ " --> " +:+ tb) :: text :: "" :: ls)
  end.

Definition segments_to_vtt (segments : list dict) : result string :=
  lines <- vtt_lines segments ;; Ok (join nl ("WEBVTT" :: "" :: lines)).

(** ** The inference engine *)

(** A word and a segment as faster-whisper yields them, and the [info]
    object returned next to the segment generator. *)
Record Word := {
  w_word : string;
  w_start : float;
  w_end : float;
  w_probability : float }.

Record Segment := {
  seg_id : Z;
  seg_start : float;
  seg_end : float;
  seg_text : string;
  seg_avg_logprob : float;
  seg_compression_ratio : float;
  seg_no_speech_prob : float;
  seg_temperature : float;
  seg_words : option (list Word) }.

Record Info := {
  info_language : string;
  info_duration : float }.

(** The nested VAD options. *)
Record VadParams := {
  threshold : float;
  min_speech_duration_ms : Z;
  min_silence_duration_ms : Z;
  max_speech_duration_s : float;
  speech_pad_ms : Z }.

(** The arguments of one call of [whisper_model.transcribe]. *)
Record EngineCall := {
  kw_path : string;
  kw_language : option string;
  kw_task : string;
  kw_beam_size : Z;
  kw_best_of : Z;
  kw_patience : float;
  kw_length_penalty : float;
  kw_repetition_penalty : float;
  kw_no_repeat_ngram_size : Z;
  kw_temperature : temperature_value;
  kw_compression_ratio_threshold : float;
  kw_log_prob_threshold : float;
  kw_no_speech_threshold : float;
  kw_condition_on_previous_text : bool;
  kw_prompt_reset_on_temperature : float;
  kw_initial_prompt : option string;
  kw_suppress_blank : bool;
  kw_suppress_tokens : list Z;
  kw_max_new_tokens : option Z;
  kw_max_initial_timestamp : float;
  kw_word_timestamps : bool;
  kw_without_timestamps : bool;
  kw_hallucination_silence_threshold : option float;
  kw_hotwords : option string;
  kw_vad_filter : bool;
  kw_vad_parameters : option VadParams }.

(** What a call does: it raises, or it returns [info] and a generator
    that yields [segs] and then stops, normally or with an exception. *)
Inductive EngineOutcome :=
| CallRaises (e : exn)
| Generates (segs : list Segment) (stop : option exn) (info : Info).

(** ** The request *)

(** The multipart form of [POST /v1/audio/transcriptions], defaults
    applied. *)
Record Request := {
  file_data : string;
  file_filename : option string;
  model : string;
  language : option string;
  prompt : option string;
  response_format : string;
  temperature : string;
  timestamp_granularities : option (list string);
  beam_size : Z;
  best_of : Z;
  patience : float;
  length_penalty : float;
  repetition_penalty : float;
  no_repeat_ngram_size : Z;
  compression_ratio_threshold : float;
  log_prob_threshold : float;
  no_speech_threshold : float;
  condition_on_previous_text : bool;
  prompt_reset_on_temperature : float;
  suppress_blank : bool;
  suppress_tokens : string;
  max_new_tokens : option Z;
  max_initial_timestamp : float;
  hallucination_silence_threshold : option float;
  hotwords : option string;
  word_timestamps : option bool;
  without_timestamps : bool;
  vad_filter : bool;
  vad_threshold : float;
  vad_min_speech_duration_ms : Z;
  vad_min_silence_duration_ms : Z;
  vad_max_speech_duration_s : float;
  vad_speech_pad_ms : Z }.

(** The form with nothing but the file: every field at its default. *)
Definition form_defaults (data : string) (filename : option string)
  : Request :=
  {| file_data := data;
     file_filename := filename;
     model := "whisper-1";
     language := None;
     prompt := None;
     response_format := "json";
     temperature := "0.0,0.2,0.4,0.6,0.8,1.0";
     timestamp_granularities := None;
     beam_size := 5;
     best_of := 5;
     patience := float_of_Z 1;
     length_penalty := float_of_Z 1;
     repetition_penalty := float_of_Z 1;
     no_repeat_ngram_size := 0;
     compression_ratio_threshold := float_of_decimal false 24 (-1);
     log_prob_threshold := float_of_Z (-1);
     no_speech_threshold := float_of_decimal false 6 (-1);
     condition_on_previous_text := true;
     prompt_reset_on_temperature := float_of_decimal false 5 (-1);
     suppress_blank := true;
     suppress_tokens := "-1";
     max_new_tokens := None;
     max_initial_timestamp := float_of_Z 1;
     hallucination_silence_threshold := None;
     hotwords := None;
     word_timestamps := None;
     without_timestamps := false;
     vad_filter := false;
     vad_threshold := float_of_decimal false 5 (-1);
     vad_min_speech_duration_ms := 250;
     vad_min_silence_duration_ms := 2000;
     vad_max_speech_duration_s := S754_infinity false;
     vad_speech_pad_ms := 400 |}.

(** The request [req] with another [response_format]. *)
Definition with_response_format (rf : string) (req : Request) : Request :=
  {| file_data := file_data req;
     file_filename := file_filename req;
     model := model req;
     language := language req;
     prompt := prompt req;
     response_format := rf;
     temperature := temperature req;
     timestamp_granularities := timestamp_granularities req;
     beam_size := beam_size req;
     best_of := best_of req;
     patience := patience req;
     length_penalty := length_penalty req;
     repetition_penalty := repetition_penalty req;
     no_repeat_ngram_size := no_repeat_ngram_size req;
     compression_ratio_threshold := compression_ratio_threshold req;
     log_prob_threshold := log_prob_threshold req;
     no_speech_threshold := no_speech_threshold req;
     condition_on_previous_text := condition_on_previous_text req;
     prompt_reset_on_temperature := prompt_reset_on_temperature req;
     suppress_blank := suppress_blank req;
     suppress_tokens := suppress_tokens req;
     max_new_tokens := max_new_tokens req;
     max_initial_timestamp := max_initial_timestamp req;
     hallucination_silence_threshold := hallucination_silence_threshold req;
     hotwords := hotwords req;
     word_timestamps := word_timestamps req;
     without_timestamps := without_timestamps req;
     vad_filter := vad_filter req;
     vad_threshold := vad_threshold req;
     vad_min_speech_duration_ms := vad_min_speech_duration_ms req;
     vad_min_silence_duration_ms := vad_min_silence_duration_ms req;
     vad_max_speech_duration_s := vad_max_speech_duration_s req;
     vad_speech_pad_ms := vad_speech_pad_ms req |}.

(** The request [req] with other [word_timestamps] and
    [timestamp_granularities[]]. *)
Definition with_word_options (flag : option bool)
    (granularities : option (list string)) (req : Request) : Request :=
  {| file_data := file_data req;
     file_filename := file_filename req;
     model := model req;
     language := language req;
     prompt := prompt req;
     response_format := response_format req;
     temperature := temperature req;
     timestamp_granularities := granularities;
     beam_size := beam_size req;
     best_of := best_of req;
     patience := patience req;
     length_penalty := length_penalty req;
     repetition_penalty := repetition_penalty req;
     no_repeat_ngram_size := no_repeat_ngram_size req;
     compression_ratio_threshold := compression_ratio_threshold req;
     log_prob_threshold := log_prob_threshold req;
     no_speech_threshold := no_speech_threshold req;
     condition_on_previous_text := condition_on_previous_text req;
     prompt_reset_on_temperature := prompt_reset_on_temperature req;
     suppress_blank := suppress_blank req;
     suppress_tokens := suppress_tokens req;
     max_new_tokens := max_new_tokens req;
     max_initial_timestamp := max_initial_timestamp req;
     hallucination_silence_threshold := hallucination_silence_threshold req;
     hotwords := hotwords req;
     word_timestamps := flag;
     without_timestamps := without_timestamps req;
     vad_filter := vad_filter req;
     vad_threshold := vad_threshold req;
     vad_min_speech_duration_ms := vad_min_speech_duration_ms req;
     vad_min_silence_duration_ms := vad_min_silence_duration_ms req;
     vad_max_speech_duration_s := vad_max_speech_duration_s req;
     vad_speech_pad_ms := vad_speech_pad_ms req |}.

(** The request [req] with another [vad_filter]. *)
Definition with_vad_filter (on : bool) (req : Request) : Request :=
  {| file_data := file_data req;
     file_filename := file_filename req;
     model := model req;
     language := language req;
     prompt := prompt req;
     response_format := response_format req;
     temperature := temperature req;
     timestamp_granularities := timestamp_granularities req;
     beam_size := beam_size req;
     best_of := best_of req;
     patience := patience req;
     length_penalty := length_penalty req;
     repetition_penalty := repetition_penalty req;
     no_repeat_ngram_size := no_repeat_ngram_size req;
     compression_ratio_threshold := compression_ratio_threshold req;
     log_prob_threshold := log_prob_threshold req;
     no_speech_threshold := no_speech_threshold req;
     condition_on_previous_text := condition_on_previous_text req;
     prompt_reset_on_temperature := prompt_reset_on_temperature req;
     suppress_blank := suppress_blank req;
     suppress_tokens := suppress_tokens req;
     max_new_tokens := max_new_tokens req;
     max_initial_timestamp := max_initial_timestamp req;
     hallucination_silence_threshold := hallucination_silence_threshold req;
     hotwords := hotwords req;
     word_timestamps := word_timestamps req;
     without_timestamps := without_timestamps req;
     vad_filter := on;
     vad_threshold := vad_threshold req;
     vad_min_speech_duration_ms := vad_min_speech_duration_ms req;
     vad_min_silence_duration_ms := vad_min_silence_duration_ms req;
     vad_max_speech_duration_s := vad_max_speech_duration_s req;
     vad_speech_pad_ms := vad_speech_pad_ms req |}.

Inductive Response :=
| PlainTextResponse (content : string) (media_type : string)
| JSONResponse (content : value).

(** What the encoder of [JSONResponse] accepts: it is called with
    [allow_nan=False], which refuses NaN and the infinities wherever they
    stand in the content. *)
Fixpoint json_compliant (v : value) : bool :=
  match v with
  | VFloat x => is_finite x
  | VList l => forallb json_compliant l
  | VDict d => forallb (fun kv => json_compliant (snd kv)) d
  | _ => true
  end.

(** [JSONResponse(content)]: the body is encoded when the response is
    built, and the encoder raises [ValueError] on a float it refuses. *)
Definition json_response (content : value) : result Response :=
  if json_compliant content then Ok (JSONResponse content)
  else Raise (ValueError "Out of range float values are not JSON compliant").

(** ** The state the handler works on *)

(** The files on disk, by path, and the engine calls made so far. *)
Record State := {
  fs : gmap string string;
  calls : list EngineCall }.

Definition M (A : Type) : Type := State -> result A * State.

Definition ret {A} (a : A) : M A := fun st => (Ok a, st).

Definition raise {A} (e : exn) : M A := fun st => (Raise e, st).

Definition lift {A} (r : result A) : M A := fun st => (r, st).

Definition bindM {A B} (m : M A) (k : A -> M B) : M B :=
  fun st =>
    match m st with
    | (Ok a, st') => k a st'
    | (Raise e, st') => (Raise e, st')
    end.

Notation "x <~ m ;; k" := (bindM m (fun x => k))
  (at level 100, m at next level, right associativity).

(** [try: body finally: fin]: [fin] runs whatever [body] did; an
    exception of [fin] replaces the outcome of [body]. *)
Definition try_finally {A} (body : M A) (fin : M unit) : M A :=
  fun st =>
    let '(r, st1) := body st in
    match fin st1 with
    | (Ok _, st2) => (r, st2)
    | (Raise e, st2) => (Raise e, st2)
    end.

(** [os.unlink(path)] *)
Definition unlink (path : string) : M unit :=
  fun st =>
    match fs st !! path with
    | Some _ => (Ok tt, {| fs := delete path (fs st); calls := calls st |})
    | None => (Raise (FileNotFoundError path), st)
    end.

(** Writing [data] to the file at [path]. *)
Definition write_file (path data : string) : M unit :=
  fun st => (Ok tt, {| fs := <[path := data]> (fs st); calls := calls st |}).

(** ** POST /v1/audio/transcriptions *)

Section Handler.

(** The loaded model: what a call returns, and what it leaves on disk. *)
Variable whisper_model :
  EngineCall -> gmap string string -> EngineOutcome * gmap string string.

(** [os.path.splitext] and the name [tempfile.NamedTemporaryFile] picks
    for a suffix, given the files on disk. *)
Variable splitext : string -> string * string.
Variable temp_name : string -> gmap string string -> string.

(** The two readings of [time.time()]. *)
Variables t0 t1 : float.

(** [want_words], from the explicit flag or from the granularities. *)
Definition resolve_want_words (req : Request) : bool :=
  match word_timestamps req with
  | Some b => b
  | None =>
      match timestamp_granularities req with
      | Some ((_ :: _) as l) => existsb (String.eqb "word") l
      | _ => false
      end
  end.

(** [vad_params] *)
Definition build_vad_params (req : Request) : option VadParams :=
  if vad_filter req then
    Some {| threshold := vad_threshold req;
            min_speech_duration_ms := vad_min_speech_duration_ms req;
            min_silence_duration_ms := vad_min_silence_duration_ms req;
            max_speech_duration_s := vad_max_speech_duration_s req;
            speech_pad_ms := vad_speech_pad_ms req |}
  else None.

(** [with tempfile.NamedTemporaryFile(suffix=suffix, delete=False) as tmp:
    tmp.write(data); tmp_path = tmp.name] *)
Definition named_temporary_file (suffix data : string) : M string :=
  fun st =>
    let path := temp_name suffix (fs st) in
    match write_file path data st with
    | (_, st') => (Ok path, st')
    end.

(** [whisper_model.transcribe(...)]: the call is recorded, the disk is as
    the engine leaves it. *)
Definition call_engine (c : EngineCall) : M (list Segment * option exn * Info) :=
  fun st =>
    let '(out, fs') := whisper_model c (fs st) in
    let st' := {| fs := fs'; calls := calls st ++ [c] |} in
    match out with
    | CallRaises e => (Raise e, st')
    | Generates segs stop info => (Ok (segs, stop, info), st')
    end.

Definition word_dict (w : Word) : dict :=
  [ ("word", VStr (w_word w));
    ("start", VFloat (float_round (w_start w) 3));
    ("end", VFloat (float_round (w_end w) 3));
    ("probability", VFloat (float_round (w_probability w) 4)) ].

(** The words a segment contributes: none unless [want_words and
    seg.words]. *)
Definition seg_word_dicts (want_words : bool) (seg : Segment) : list dict :=
  match seg_words seg with
  | Some ((_ :: _) as ws) => if want_words then map word_dict ws else []
  | _ => []
  end.

Definition seg_dict (want_words : bool) (seg : Segment) : dict :=
  [ ("id", VInt (seg_id seg));
    ("start", VFloat (float_round (seg_start seg) 3));
    ("end", VFloat (float_round (seg_end seg) 3));
    ("text", VStr (seg_text seg));
    ("avg_logprob", VFloat (float_round (seg_avg_logprob seg) 4));
    ("compression_ratio", VFloat (float_round (seg_compression_ratio seg) 4));
    ("no_speech_prob", VFloat (float_round (seg_no_speech_prob seg) 4));
    ("temperature", VFloat (seg_temperature seg)) ]
  ++ match seg_words seg with
     | Some ((_ :: _) as ws) =>
         if want_words then [("words", VList (map VDict (map word_dict ws)))]
         else []
     | _ => []
     end.

(** What the [try] block leaves for the rendering. *)
Record Transcription := {
  result_segments : list dict;
  all_words : list dict;
  full_text : string;
  tr_info : Info;
  duration : float;
  processing_time : float }.

(** The loop over [segments_gen] and what follows it. *)
Definition consume (want_words : bool) (segs : list Segment) (info : Info)
  : Transcription :=
  {| result_segments := map (seg_dict want_words) segs;
     all_words := flat_map (seg_word_dicts want_words) segs;
     full_text := strip (String.concat "" (map seg_text segs));
     tr_info := info;
     duration := float_round (info_duration info) 3;
     processing_time := float_round (fsub t1 t0) 3 |}.

(** The response for a [response_format]. *)
Definition render (response_format : string) (want_words : bool)
    (t : Transcription) : result Response :=
  if String.eqb response_format "text" then
    Ok (PlainTextResponse (full_text t) "text/plain")
  else if String.eqb response_format "srt" then
    body <- segments_to_srt (result_segments t) ;;
    Ok (PlainTextResponse body "text/plain")
  else if String.eqb response_format "vtt" then
    body <- segments_to_vtt (result_segments t) ;;
    Ok (PlainTextResponse body "text/plain")
  else if String.eqb response_format "verbose_json" then
    json_response (VDict
      [ ("task", VStr "transcribe");
        ("language", VStr (info_language (tr_info t)));
        ("duration", VFloat (duration t));
        ("text", VStr (full_text t));
        ("segments", VList (map VDict (result_segments t)));
        ("words", VList (map VDict (if want_words then all_words t else [])));
        ("processing_time", VFloat (processing_time t)) ])
  else
    json_response (VDict [ ("text", VStr (full_text t)) ]).

(** [sup_tokens] *)
Definition parse_suppress_tokens (raw : string) : result (list Z) :=
  traverse (fun t => int_of_string (strip t))
    (List.filter (fun t => nonempty (strip t)) (split comma raw)).

(** [suffix]: the extension of the uploaded file's name, [".wav"] without
    one. *)
Definition upload_suffix (req : Request) : string :=
  let filename :=
    match file_filename req with
    | Some ((String _ _) as n) => n
    | _ => "audio.wav"
    end in
  match snd (splitext filename) with
  | EmptyString => ".wav"
  | ext => ext
  end.

(** The keyword arguments of the engine call. *)
Definition engine_call (req : Request) (tmp_path : string)
    (temp : temperature_value) (sup_tokens : list Z) (want_words : bool)
    (vad_params : option VadParams) : EngineCall :=
  {| kw_path := tmp_path;
     kw_language := language req;
     kw_task := "transcribe";
     kw_beam_size := beam_size req;
     kw_best_of := best_of req;
     kw_patience := patience req;
     kw_length_penalty := length_penalty req;
     kw_repetition_penalty := repetition_penalty req;
     kw_no_repeat_ngram_size := no_repeat_ngram_size req;
     kw_temperature := temp;
     kw_compression_ratio_threshold := compression_ratio_threshold req;
     kw_log_prob_threshold := log_prob_threshold req;
     kw_no_speech_threshold := no_speech_threshold req;
     kw_condition_on_previous_text := condition_on_previous_text req;
     kw_prompt_reset_on_temperature := prompt_reset_on_temperature req;
     kw_initial_prompt := prompt req;
     kw_suppress_blank := suppress_blank req;
     kw_suppress_tokens := sup_tokens;
     kw_max_new_tokens := max_new_tokens req;
     kw_max_initial_timestamp := max_initial_timestamp req;
     kw_word_timestamps := want_words;
     kw_without_timestamps := without_timestamps req;
     kw_hallucination_silence_threshold :=
       hallucination_silence_threshold req;
     kw_hotwords := hotwords req;
     kw_vad_filter := vad_filter req;
     kw_vad_parameters := vad_params |}.

Definition transcribe (req : Request) : M Response :=
  let want_words := resolve_want_words req in
  temp <~ lift (parse_temperature (temperature req)) ;;
  sup_tokens <~ lift (parse_suppress_tokens (suppress_tokens req)) ;;
  let vad_params := build_vad_params req in
  let data := file_data req in
  let suffix := upload_suffix req in
  tmp_path <~ named_temporary_file suffix data ;;
  t <~ try_finally
         (out <~ call_engine
                   (engine_call req tmp_path temp sup_tokens want_words
                      vad_params) ;;
          let '(segs, stop, info) := out in
          match stop with
          | Some e => raise e
          | None => ret (consume want_words segs info)
          end)
         (unlink tmp_path) ;;
  lift (render (response_format req) want_words t).

(** *** Names for the steps of the handler *)

(** The path of the transient file of a request. *)
Definition tmp_path_of (req : Request) (st : State) : string :=
  temp_name (upload_suffix req) (fs st).

(** The call the handler makes, once the two fields have parsed. *)
Definition call_of (req : Request) (st : State) (temp : temperature_value)
    (toks : list Z) : EngineCall :=
  engine_call req (tmp_path_of req st) temp toks (resolve_want_words req)
    (build_vad_params req).

(** The disk the engine finds: the upload written to the transient file. *)
Definition disk_at_call (req : Request) (st : State) : gmap string string :=
  <[tmp_path_of req st := file_data req]> (fs st).

(** The handler up to the rendering: from the form to [full_text],
    [result_segments] and the rest, the transient file removed. *)
Definition transcription_of (req : Request) : M Transcription :=
  let want_words := resolve_want_words req in
  temp <~ lift (parse_temperature (temperature req)) ;;
  sup_tokens <~ lift (parse_suppress_tokens (suppress_tokens req)) ;;
  tmp_path <~ named_temporary_file (upload_suffix req) (file_data req) ;;
  try_finally
    (out <~ call_engine
              (engine_call req tmp_path temp sup_tokens want_words
                 (build_vad_params req)) ;;
     let '(segs, stop, info) := out in
     match stop with
     | Some e => raise e
     | None => ret (consume want_words segs info)
     end)
    (unlink tmp_path).

(** The engine calls a request adds to those of [st]. *)
Definition calls_made (req : Request) (st : State) : list EngineCall :=
  drop (length (calls st)) (calls (snd (transcribe req st))).

End Handler.

End Server.

(* ===================================================================== *)
(** * sweep.py *)
(* ===================================================================== *)

Module Sweep.
Import Py.

Definition URL : string := "http://localhost:8000/v1/audio/transcriptions".

Definition FILES : list string :=
  [ "D:\Downloads\test_audio\11501-1732852092-101.m4a";
    "D:\Downloads\test_audio\11501-1732890340-4771.m4a";
    "D:\Downloads\test_audio\11501-1732896070-5814.m4a";
    "D:\Downloads\test_audio\11531-1732910648-858.m4a";
    "D:\Downloads\test_audio\17508-1726293137_851762500.0-call_91989.m4a";
    "D:\Downloads\test_audio\21029-1726738591_852687500.0-call_35128.m4a" ].

(** The configurations: a label and the form fields it overrides. *)
Definition TESTS : list (string * list (string * string)) :=
  [ ("BASELINE (temp=0.0 only)",
     [ ("temperature", "0.0") ]);
    ("TEMP: fallback list",
     [ ("temperature", "0.0,0.2,0.4,0.6,0.8,1.0") ]);
    ("BEAM=1 (greedy)",
     [ ("temperature", "0.0");
       ("beam_size", "1") ]);
    ("BEAM=3",
     [ ("temperature", "0.0");
       ("beam_size", "3") ]);
    ("BEAM=5 (default)",
     [ ("temperature", "0.0");
       ("beam_size", "5") ]);
    ("BEAM=10",
     [ ("temperature", "0.0");
       ("beam_size", "10") ]);
    ("REP=1.0 (none)",
     [ ("temperature", "0.0");
       ("repetition_penalty", "1.0") ]);
    ("REP=1.1",
     [ ("temperature", "0.0");
       ("repetition_penalty", "1.1") ]);
    ("REP=1.2",
     [ ("temperature", "0.0");
       ("repetition_penalty", "1.2") ]);
    ("REP=1.5",
     [ ("temperature", "0.0");
       ("repetition_penalty", "1.5") ]);
    ("REP=2.0",
     [ ("temperature", "0.0");
       ("repetition_penalty", "2.0") ]);
    ("NGRAM=0 (off)",
     [ ("temperature", "0.0");
       ("no_repeat_ngram_size", "0") ]);
    ("NGRAM=2",
     [ ("temperature", "0.0");
       ("no_repeat_ngram_size", "2") ]);
    ("NGRAM=3",
     [ ("temperature", "0.0");
       ("no_repeat_ngram_size", "3") ]);
    ("NGRAM=4",
     [ ("temperature", "0.0");
       ("no_repeat_ngram_size", "4") ]);
    ("COND_PREV=true",
     [ ("temperature", "0.0");
       ("condition_on_previous_text", "true") ]);
    ("COND_PREV=false",
     [ ("temperature", "0.0");
       ("condition_on_previous_text", "false") ]);
    ("HALLUC=0 (off)",
     [ ("temperature", "0.0") ]);
    ("HALLUC=1.0",
     [ ("temperature", "0.0");
       ("hallucination_silence_threshold", "1.0") ]);
    ("HALLUC=2.0",
     [ ("temperature", "0.0");
       ("hallucination_silence_threshold", "2.0") ]);
    ("HALLUC=3.0",
     [ ("temperature", "0.0");
       ("hallucination_silence_threshold", "3.0") ]);
    ("NOSPEECH=0.3",
     [ ("temperature", "0.0");
       ("no_speech_threshold", "0.3") ]);
    ("NOSPEECH=0.6 (default)",
     [ ("temperature", "0.0");
       ("no_speech_threshold", "0.6") ]);
    ("NOSPEECH=0.8",
     [ ("temperature", "0.0");
       ("no_speech_threshold", "0.8") ]);
    ("PROMPT: none",
     [ ("temperature", "0.0") ]);
    ("PROMPT: detailed dispatch",
     [ ("temperature", "0.0");
       ("prompt", ("Butler County dispatch radio. Medic 23, Engine 7, Rescue"
          +:+ " 52, District 1 Life Squad. 10-4, copy, en route, respon"
          +:+ "ding, on scene. State Route 134, Hamilton-Mason Road.")) ]);
    ("PROMPT: short generic",
     [ ("temperature", "0.0");
       ("prompt", "Police and fire dispatch radio communications.") ]);
    ("HOTWORDS: radio terms",
     [ ("temperature", "0.0");
       ("hotwords", ("Medic,Engine,Ladder,Rescue,Squad,District,dispatch,respo"
          +:+ "nding,en route,10-4,copy,State Route,Hamilton")) ]);
    ("COMPRESS=1.8 (strict)",
     [ ("temperature", "0.0");
       ("compression_ratio_threshold", "1.8") ]);
    ("COMPRESS=2.4 (default)",
     [ ("temperature", "0.0");
       ("compression_ratio_threshold", "2.4") ]);
    ("COMPRESS=3.0 (permissive)",
     [ ("temperature", "0.0");
       ("compression_ratio_threshold", "3.0") ]);
    ("VAD=off",
     [ ("temperature", "0.0");
       ("vad_filter", "false") ]);
    ("VAD=on (defaults)",
     [ ("temperature", "0.0");
       ("vad_filter", "true") ]);
    ("VAD=aggressive",
     [ ("temperature", "0.0");
       ("vad_filter", "true");
       ("vad_threshold", "0.3");
       ("vad_min_speech_duration_ms", "100") ]);
    ("COMBO-A: rep1.2+ngram3+noprev+halluc2.0",
     [ ("temperature", "0.0");
       ("repetition_penalty", "1.2");
       ("no_repeat_ngram_size", "3");
       ("condition_on_previous_text", "false");
       ("hallucination_silence_threshold", "2.0") ]);
    ("COMBO-B: rep1.1+ngram3+noprev+prompt",
     [ ("temperature", "0.0");
       ("repetition_penalty", "1.1");
       ("no_repeat_ngram_size", "3");
       ("condition_on_previous_text", "false");
       ("prompt", ("Butler County dispatch radio. Medic 23, Engine 7, Rescue"
          +:+ " 52, District 1 Life Squad.")) ]);
    ("COMBO-C: kitchen sink",
     [ ("temperature", "0.0,0.2,0.4,0.6,0.8,1.0");
       ("beam_size", "5");
       ("repetition_penalty", "1.2");
       ("no_repeat_ngram_size", "3");
       ("condition_on_previous_text", "false");
       ("hallucination_silence_threshold", "2.0");
       ("no_speech_threshold", "0.6");
       ("prompt", ("Butler County dispatch radio. Medic 23, Engine 7, Rescue"
          +:+ " 52, District 1 Life Squad. 10-4, copy, en route."));
       ("hotwords", ("Medic,Engine,Ladder,Rescue,Squad,District,dispatch,respo"
          +:+ "nding,en route,10-4")) ]);
    ("COMBO-D: prompt+hotwords+rep1.2+halluc2.0 (no ngram)",
     [ ("temperature", "0.0");
       ("repetition_penalty", "1.2");
       ("condition_on_previous_text", "false");
       ("hallucination_silence_threshold", "2.0");
       ("prompt", ("Butler County dispatch radio. Medic 23, Engine 7, Rescue"
          +:+ " 52, District 1 Life Squad."));
       ("hotwords", ("Medic,Engine,Ladder,Rescue,Squad,District,dispatch,respo"
          +:+ "nding,en route,10-4")) ]) ].

Section Driver.

(** [os.path.exists] and [os.path.basename]. *)
Variable path_exists : string -> bool.
Variable basename : string -> string.

(** [subprocess.run(cmd, capture_output=True, text=True, timeout=120)]:
    the captured standard output, or the exception it raises. *)
Variable subprocess_run : list string -> result string.

(** [json.loads] *)
Variable json_loads : string -> result value.

(** The command line for one file and one configuration. *)
Definition curl_cmd (f : string) (params : list (string * string))
  : list string :=
  [ "curl"; "-s"; "-X"; "POST"; URL; "-F"; "file=@" +:+ f ]
  ++ [ "-F"; "language=en"; "-F"; "response_format=verbose_json";
       "-F"; "timestamp_granularities[]=word" ]
  ++ flat_map (fun kv => [ "-F"; fst kv +:+ "=" +:+ snd kv ]) params.

(** [sum(w["probability"] for w in words)], from [acc]: one addition after
    the other, from the left. *)
Fixpoint sum_probabilities (acc : num) (ws : list value) : result num :=
  match ws with
  | [] => Ok acc
  | w :: ws' =>
      p <- subscript "probability" w ;;
      a <- as_num p ;;
      acc' <- num_add acc a ;;
      sum_probabilities acc' ws'
  end.

(** [[w["probability"] for w in words]] as numbers. *)
Definition probabilities (ws : list value) : result (list num) :=
  traverse (fun w => p <- subscript "probability" w ;; as_num p) ws.

(** The record of a file whose response decoded to [data]. *)
Definition file_record (f : string) (data : value) : result dict :=
  match data with
  | VDict d =>
      let text := dict_get "text" (VStr "") d in
      let dur := dict_get "duration" (VInt 0) d in
      let ptime := dict_get "processing_time" (VInt 0) d in
      let words := dict_get "words" (VList []) d in
      let segs := dict_get "segments" (VList []) d in
      avg_prob <-
        (if truthy words then
           ws <- iterate words ;;
           total <- sum_probabilities (NInt 0) ws ;;
           n <- len words ;;
           num_truediv total (NInt n)
         else Ok (NInt 0)) ;;
      ws <- iterate words ;;
      ps <- probabilities ws ;;
      let min_prob :=
        match ps with
        | [] => NInt 0
        | p :: ps' => min_from p ps'
        end in
      let low_words :=
        List.filter (fun p => num_lt p (NFloat (float_of_decimal false 3 (-1)))) ps in
      n_segs <- len segs ;;
      n_words <- len words ;;
      let r :=
        [ ("file", VStr (basename f));
          ("duration", dur);
          ("proc_time", ptime);
          ("segments", VInt n_segs);
          ("words", VInt n_words);
          ("avg_prob", of_num (num_round avg_prob 3));
          ("min_prob", of_num (num_round min_prob 3));
          ("low_conf_words", VInt (Z.of_nat (length low_words)));
          ("text", text) ] in
      (* the formatting done for [print] *)
      _ <- format_aligned_check dur ;;
      _ <- format_aligned_check ptime ;;
      _ <- format_3f avg_prob ;;
      _ <- format_3f min_prob ;;
      Ok r
  | _ => Raise (AttributeError "object has no attribute 'get'")
  end.

(** The record kept for a file whose request or decoding raised [e]. *)
Definition error_record (f : string) (e : exn) : dict :=
  [ ("file", VStr (basename f)); ("error", VStr (exn_str e)) ].

(** The [try] block: the response of the server for [f], decoded. *)
Definition fetch (f : string) (params : list (string * string))
  : result value :=
  out <- subprocess_run (curl_cmd f params) ;; json_loads out.

(** The loop of [run_test] over [files]: the commands run, in order, and
    the records appended to [results], or the exception that ends it. *)
Fixpoint run_files (files : list string) (params : list (string * string))
    (results : list dict) : list (list string) * result (list dict) :=
  match files with
  | [] => ([], Ok results)
  | f :: rest =>
      if negb (path_exists f) then run_files rest params results
      else
        match fetch f params with
        | Raise e =>
            let '(cs, r) :=
              run_files rest params (results ++ [error_record f e]) in
            (curl_cmd f params :: cs, r)
        | Ok data =>
            match file_record f data with
            | Raise e => ([curl_cmd f params], Raise e)
            | Ok r =>
                let '(cs, res) := run_files rest params (results ++ [r]) in
                (curl_cmd f params :: cs, res)
            end
        end
  end.

Definition run_test (label : string) (params : list (string * string))
  : list (list string) * result (list dict) :=
  run_files FILES params [].

(** ** The summary table *)

(** [valid = [r for r in results if "error" not in r]] *)
Definition valid_of (results : list dict) : list dict :=
  List.filter (fun r => negb (dict_has "error" r)) results.

(** [r[k]] used as a number, for every [r] (the records are those of
    [run_test], where these are numbers). *)
Definition column (k : string) (rs : list dict) : result (list num) :=
  traverse (fun r => v <- dict_item k r ;; as_num v) rs.

(** [sum(r[k] for r in rs)], from [acc]: one addition after the other,
    from the left. *)
Fixpoint sum_column (k : string) (acc : num) (rs : list dict) : result num :=
  match rs with
  | [] => Ok acc
  | r :: rs' =>
      v <- dict_item k r ;;
      a <- as_num v ;;
      acc' <- num_add acc a ;;
      sum_column k acc' rs'
  end.

(** [format(a, ">8d")] *)
Definition format_8d (a : num) : result string :=
  match a with
  | NInt z => Ok (align_right 8 (str_of_int z))
  | NFloat _ => Raise (ValueError "Unknown format code 'd' for object of type 'float'")
  end.

(** [format(a, ">8.3f")] *)
Definition format_8_3f (a : num) : result string :=
  s <- format_3f a ;; Ok (align_right 8 s).

(** The line of one configuration, computed from its [valid] records
    (which are not empty). *)
Definition summary_line (label : string) (valid : list dict)
  : result string :=
  let n := NInt (Z.of_nat (length valid)) in
  total <- sum_column "avg_prob" (NInt 0) valid ;;
  avg_p <- num_truediv total n ;;
  ms <- column "min_prob" valid ;;
  let min_p := match ms with [] => NInt 0 | m :: ms' => min_from m ms' end in
  low_c <- sum_column "low_conf_words" (NInt 0) valid ;;
  total_t <- sum_column "proc_time" (NInt 0) valid ;;
  avg_t <- num_truediv total_t n ;;
  s1 <- format_8_3f avg_p ;;
  s2 <- format_8_3f min_p ;;
  s3 <- format_8d low_c ;;
  s4 <- format_8_3f avg_t ;;
  Ok (align_left 55 label +:+ " " +:+ s1 +:+ " " +:+ s2 +:+ " " +:+ s3
        +:+ " " +:+ s4).

(** The lines the summary loop writes for [all_results], in order. *)
Fixpoint summary_table (all_results : list (string * list dict))
  : result (list string) :=
  match all_results with
  | [] => Ok []
  | (label, results) :: rest =>
      let valid := valid_of results in
      match valid with
      | [] => summary_table rest
      | _ =>
          line <- summary_line label valid ;;
          lines <- summary_table rest ;;
          Ok (line :: lines)
      end
  end.

(** ** The script *)

(** [all_results[label] = results]: a new key goes last, a known key keeps
    its place. *)
Fixpoint dict_set (label : string) (results : list dict)
    (all_results : list (string * list dict)) : list (string * list dict) :=
  match all_results with
  | [] => [(label, results)]
  | (l, rs) :: rest =>
      if String.eqb label l then (label, results) :: rest
      else (l, rs) :: dict_set label results rest
  end.

(** The loop over the configurations: the commands run and [all_results]. *)
Fixpoint run_all (tests : list (string * list (string * string)))
    (all_results : list (string * list dict))
  : list (list string) * result (list (string * list dict)) :=
  match tests with
  | [] => ([], Ok all_results)
  | (label, params) :: rest =>
      match run_test label params with
      | (cs, Raise e) => (cs, Raise e)
      | (cs, Ok results) =>
          let '(cs', r) := run_all rest (dict_set label results all_results) in
          (cs ++ cs', r)
      end
  end.

(** The whole sweep over [tests]: the commands run and the lines of the
    summary table. *)
Definition sweep (tests : list (string * list (string * string)))
  : list (list string) * result (list string) :=
  match run_all tests [] with
  | (cs, Raise e) => (cs, Raise e)
  | (cs, Ok all_results) => (cs, summary_table all_results)
  end.

(** The script: the sweep over [TESTS]. *)
Definition main : list (list string) * result (list string) := sweep TESTS.

End Driver.

End Sweep.

(* ===================================================================== *)
(** * What the specification asks of the renderers *)
(* ===================================================================== *)

Module Spec.
Import Py Server.

(** [enumerate(l, start)] *)
Fixpoint enumerate {A} (start : Z) (l : list A) : list (Z * A) :=
  match l with
  | [] => []
  | a :: l' => (start, a) :: enumerate (start + 1) l'
  end.

(** The layout of a timestamp: hours, minutes and seconds padded with
    zeros to two digits at least, milliseconds to three, a comma before
    them. The fields are not bounded here: see [is_clock]. *)
Definition srt_timestamp (t : string) : Prop :=
  exists h m s ms : Z,
    t = format_0d 2 h +:+ ":" +:+ format_0d 2 m +:+ ":" +:+ format_0d 2 s
          +:+ "," +:+ format_0d 3 ms.

(** The four lines of one segment of an SRT document, as a function. *)
Definition srt_block (i : Z) (seg : dict) : result (list string) :=
  a <- seg_num "start" seg ;;
  ta <- format_timestamp a ;;
  b <- seg_num "end" seg ;;
  tb <- format_timestamp b ;;
  txt <- seg_stripped "text" seg ;;
  Ok [str_of_int i; ta +:+ " --> " +:+ tb; txt; ""].

(** The four lines of segment number [i]: the number, the timestamp line,
    the trimmed text, an empty line. *)
Definition srt_block_of (i : Z) (seg : dict) (block : list string) : Prop :=
  exists (a b : num) (s ta tb : string),
    seg_num "start" seg = Ok a /\
    seg_num "end" seg = Ok b /\
    dict_lookup "text" seg = Some (VStr s) /\
    format_timestamp a = Ok ta /\ srt_timestamp ta /\
    format_timestamp b = Ok tb /\ srt_timestamp tb /\
    block = [str_of_int i; ta +:+ " --> " +:+ tb; strip s; ""].

(** [response["segments"][i][k]] of a JSON response. *)
Definition segment_field (r : result Response) (i : nat) (k : string)
  : option value :=
  match r with
  | Ok (JSONResponse (VDict d)) =>
      match dict_lookup "segments" d with
      | Some (VList segs) =>
          match nth_error segs i with
          | Some (VDict sd) => dict_lookup k sd
          | _ => None
          end
      | _ => None
      end
  | _ => None
  end.

(** Strings made of exactly [n] decimal digits. *)
Fixpoint digits_exactly (n : nat) (s : string) : bool :=
  match n, s with
  | O, EmptyString => true
  | S n', String c s' => is_digit c && digits_exactly n' s'
  | _, _ => false
  end.

(** [dd:dd:dd<sep>ddd] to the character. *)
Definition is_clock (sep : ascii) (t : string) : bool :=
  match t with
  | String h1 (String h2 (String c1 (String m1 (String m2 (String c2
      (String s1 (String s2 (String c3 (String f1 (String f2 (String f3
         EmptyString))))))))))) =>
      is_digit h1 && is_digit h2 && Ascii.eqb c1 ":" &&
      is_digit m1 && is_digit m2 && Ascii.eqb c2 ":" &&
      is_digit s1 && is_digit s2 && Ascii.eqb c3 sep &&
      is_digit f1 && is_digit f2 && is_digit f3
  | _ => false
  end.

(** The float of [k] milliseconds, as [round(x, 3)] returns it for an [x]
    within half a millisecond of it. *)
Definition millis (k : Z) : float := float_of_decimal false k (-3).

(** The timestamp that shows [k] milliseconds to the millisecond. *)
Definition clock_of_millis (sep : string) (k : Z) : string :=
  format_0d 2 (k / 3600000) +:+ ":" +:+ format_0d 2 (k / 60000 mod 60)
    +:+ ":" +:+ format_0d 2 (k / 1000 mod 60) +:+ sep
    +:+ format_0d 3 (k mod 1000).

(** [format_timestamp] on [k] milliseconds returns a well-formed
    timestamp. *)
Definition formats_as_clock (k : Z) : bool :=
  match format_timestamp (NFloat (millis k)) with
  | Ok t => is_clock "," t
  | Raise _ => false
  end.

(** [format_timestamp] on [k] milliseconds shows [k] milliseconds. *)
Definition keeps_millis (k : Z) : bool :=
  match format_timestamp (NFloat (millis k)) with
  | Ok t => String.eqb t (clock_of_millis "," k)
  | Raise _ => false
  end.

(** [format_timestamp] on [k] milliseconds shows [k - 1] milliseconds. *)
Definition drops_a_milli (k : Z) : bool :=
  match format_timestamp (NFloat (millis k)) with
  | Ok t => String.eqb t (clock_of_millis "," (k - 1))
  | Raise _ => false
  end.

(** The [n] integers from [start] on. *)
Definition range (start : Z) (n : nat) : list Z :=
  map (fun i => start + Z.of_nat i) (seq 0 n).

(** [response["words"]] of a JSON response. *)
Definition response_words (r : result Response) : option value :=
  match r with
  | Ok (JSONResponse (VDict d)) => dict_lookup "words" d
  | _ => None
  end.

(** A finite float below [2^K] in magnitude: a zero, or a mantissa of [d]
    binary digits and an exponent [e] with [d + e <= K]. *)
Definition sized (K : Z) (x : float) : Prop :=
  match x with
  | S754_zero _ => True
  | S754_finite _ m e => Zpos (digits2_pos m) + e <= K
  | _ => False
  end.

(** A finite float from [1/2] on and below [2^K] in magnitude. *)
Definition divisor_within (K : Z) (y : float) : bool :=
  match y with
  | S754_finite _ m e =>
      (1 <=? Zpos (digits2_pos m) + e) && (Zpos (digits2_pos m) + e <=? K)
  | _ => false
  end.

(** The times [format_timestamp] is shown to accept: the ints below
    [10^4300] and the floats below [2^959] in magnitude. *)
Definition bounded (a : num) : Prop :=
  match a with
  | NInt z => Z.abs z < 10 ^ 4300
  | NFloat x => sized 959 x
  end.

(** A segment with such a start and such an end, and a string as text. *)
Definition renderable (seg : dict) : Prop :=
  exists (a b : num) (s : string),
    seg_num "start" seg = Ok a /\ bounded a /\
    seg_num "end" seg = Ok b /\ bounded b /\
    dict_lookup "text" seg = Some (VStr s).

End Spec.

(* ===================================================================== *)
(** * What the specification asks of a verbose_json response *)
(* ===================================================================== *)

Module Payload.
Import Py Server.

(** A number the response can carry once rounded: a finite float below
    [2^946] in magnitude. *)
Definition modest (x : float) : Prop := Spec.sized 946 x.

Definition plain_word (w : Word) : Prop :=
  modest (w_start w) /\ modest (w_end w) /\ modest (w_probability w).

(** A segment all of whose numbers can be carried: its floats as above,
    its [id] below [10^4300]. *)
Definition plain_segment (seg : Segment) : Prop :=
  Z.abs (seg_id seg) < 10 ^ 4300 /\
  modest (seg_start seg) /\ modest (seg_end seg) /\
  modest (seg_avg_logprob seg) /\ modest (seg_compression_ratio seg) /\
  modest (seg_no_speech_prob seg) /\
  is_finite (seg_temperature seg) = true /\
  match seg_words seg with
  | Some ws => Forall plain_word ws
  | None => True
  end.

(** A segment one of whose own numbers is NaN or an infinity. *)
Definition unfit (seg : Segment) : Prop :=
  is_finite (seg_start seg) = false \/ is_finite (seg_end seg) = false \/
  is_finite (seg_avg_logprob seg) = false \/
  is_finite (seg_compression_ratio seg) = false \/
  is_finite (seg_no_speech_prob seg) = false \/
  is_finite (seg_temperature seg) = false.

(** The object of a word: its text, its start and end rounded to 3
    decimals, its probability to 4. *)
Definition word_object (w : Word) : value :=
  VDict [ ("word", VStr (w_word w));
          ("start", VFloat (float_round (w_start w) 3));
          ("end", VFloat (float_round (w_end w) 3));
          ("probability", VFloat (float_round (w_probability w) 4)) ].

End Payload.

(* ===================================================================== *)
(** * Sample collaborators *)
(* ===================================================================== *)

(** Engines, a disk and a sweep environment to run the two programs on. *)
Module Sample.
Import Py Server.

(** The literals [3661.234] and [0.12345] as binary64 floats. *)
#[warnings="-inexact-float"]
Definition seconds_3661_234 : float := Prim2SF 3661.234%float.

#[warnings="-inexact-float"]
Definition temperature_0_12345 : float := Prim2SF 0.12345%float.

Definition hello : Segment :=
  {| seg_id := 0;
     seg_start := pzero;
     seg_end := float_of_decimal false 15004 (-4);
     seg_text := " hello";
     seg_avg_logprob := float_of_decimal true 123456 (-6);
     seg_compression_ratio := float_of_decimal false 7 (-1);
     seg_no_speech_prob := float_of_decimal false 1 (-2);
     seg_temperature := temperature_0_12345;
     seg_words :=
       Some [ {| w_word := " hello";
                 w_start := pzero;
                 w_end := float_of_decimal false 15004 (-4);
                 w_probability := float_of_decimal false 98765 (-5) |} ] |}.

Definition world : Segment :=
  {| seg_id := 1;
     seg_start := float_of_decimal false 15004 (-4);
     seg_end := float_of_ratio false 9 4;
     seg_text := " world ";
     seg_avg_logprob := float_of_decimal true 2 (-1);
     seg_compression_ratio := float_of_decimal false 8 (-1);
     seg_no_speech_prob := float_of_decimal false 2 (-2);
     seg_temperature := pzero;
     seg_words := None |}.

Definition english : Info :=
  {| info_language := "en"; info_duration := float_of_ratio false 9 4 |}.

(** Two segments as the renderers receive them. *)
Definition spoken : list dict :=
  [ [ ("start", VFloat pzero); ("end", VFloat (float_of_ratio false 3 2));
      ("text", VStr " hello ") ];
    [ ("start", VFloat (float_of_ratio false 3 2));
      ("end", VFloat (float_of_ratio false 9 4));
      ("text", VStr " world") ] ].

(** An engine that transcribes and leaves the disk alone. *)
Definition steady (c : EngineCall) (disk : gmap string string)
  : EngineOutcome * gmap string string :=
  (Generates [hello; world] None english, disk).

(** An engine whose call raises. *)
Definition refusing (c : EngineCall) (disk : gmap string string)
  : EngineOutcome * gmap string string :=
  (CallRaises (Exn "RuntimeError" "invalid data found when processing input"),
   disk).

(** An engine whose generator raises after the first segment. *)
Definition breaking (c : EngineCall) (disk : gmap string string)
  : EngineOutcome * gmap string string :=
  (Generates [hello] (Some (Exn "RuntimeError" "out of memory")) english,
   disk).

(** An engine that removes the file it was given. *)
Definition tidy (c : EngineCall) (disk : gmap string string)
  : EngineOutcome * gmap string string :=
  (Generates [hello; world] None english, delete (kw_path c) disk).

(** An engine that reports no average log-probability for its segment. *)
Definition hazy : Segment :=
  {| seg_id := 0;
     seg_start := pzero;
     seg_end := float_of_decimal false 15004 (-4);
     seg_text := " hello";
     seg_avg_logprob := nan;
     seg_compression_ratio := float_of_decimal false 7 (-1);
     seg_no_speech_prob := float_of_decimal false 1 (-2);
     seg_temperature := pzero;
     seg_words := None |}.

Definition murmuring (c : EngineCall) (disk : gmap string string)
  : EngineOutcome * gmap string string :=
  (Generates [hazy] None english, disk).

Definition any_splitext (name : string) : string * string := (name, ".m4a").

Definition any_temp_name (suffix : string) (disk : gmap string string)
  : string :=
  "/tmp/tmpk3v9x2" +:+ suffix.

Definition clock0 : float := float_of_Z 1700000000.
Definition clock1 : float := float_of_decimal false 17000000012504 (-4).

Definition upload : Request := form_defaults "RIFF" (Some "call.m4a").

(** What the default [temperature] and [suppress_tokens] fields parse to. *)
Definition ladder : temperature_value :=
  TempList [ pzero; float_of_decimal false 2 (-1);
             float_of_decimal false 4 (-1); float_of_decimal false 6 (-1);
             float_of_decimal false 8 (-1); float_of_Z 1 ].

Definition no_tokens : list Z := [-1].

Definition tmp_path : string := "/tmp/tmpk3v9x2.m4a".

Definition idle : State := {| fs := ∅; calls := [] |}.

(** A run of the handler on the sample disk and clock. *)
Definition run
    (engine : EngineCall -> gmap string string ->
              EngineOutcome * gmap string string)
    (req : Request) : result Response * State :=
  transcribe engine any_splitext any_temp_name clock0 clock1 req idle.

(** *** A sweep environment *)

(** Only the second and the third file are on disk. *)
Definition on_disk (f : string) : bool :=
  String.eqb f "D:\Downloads\test_audio\11501-1732890340-4771.m4a"
  || String.eqb f "D:\Downloads\test_audio\11501-1732896070-5814.m4a".

(** The part of a path after its last separator. *)
Fixpoint after_last_separator (s : string) : string :=
  match s with
  | EmptyString => EmptyString
  | String c s' =>
      if contains "\" s' || contains "/" s' then after_last_separator s'
      else if Ascii.eqb c "\" || Ascii.eqb c "/" then s'
      else s
  end.

(** A server that answers every request with an error page. *)
Definition error_page (cmd : list string) : result string :=
  Ok "Internal Server Error".

(** A decoder that knows the empty object only. *)
Definition decode (s : string) : result value :=
  if String.eqb s "{}" then Ok (VDict [])
  else Raise (Exn "JSONDecodeError" "Expecting value: line 1 column 1 (char 0)").

Definition greedy : list (string * string) :=
  [ ("temperature", "0.0"); ("beam_size", "1") ].

(** Records as [run_test] builds them. *)
Definition failed (file : string) : dict :=
  [ ("file", VStr file);
    ("error", VStr "Expecting value: line 1 column 1 (char 0)") ].

Definition scored (file : string) (avg low : Z) : dict :=
  [ ("file", VStr file);
    ("duration", VFloat (float_of_ratio false 9 4));
    ("proc_time", VFloat (float_of_ratio false 1 4));
    ("segments", VInt 2);
    ("words", VInt 8);
    ("avg_prob", VFloat (float_of_decimal false avg (-3)));
    ("min_prob", VFloat (float_of_decimal false (avg - 500) (-3)));
    ("low_conf_words", VInt low);
    ("text", VStr "hello world") ].

Definition all_results : list (string * list dict) :=
  [ ("BEAM=1 (greedy)", [ failed "a.m4a"; failed "b.m4a" ]);
    ("BEAM=3", [ scored "a.m4a" 900 1; failed "b.m4a"; scored "c.m4a" 800 2 ]) ].

End Sample.

(* ===================================================================== *)
(** * What the code shows of the other renderer and of the responses *)
(* ===================================================================== *)

Module Webvtt.
Import Py Server.

(** [t] with every comma turned into a period. *)
Fixpoint with_period (t : string) : string :=
  match t with
  | EmptyString => EmptyString
  | String c t' =>
      String (if Ascii.eqb c "," then "."%char else c) (with_period t')
  end.

(** The three lines of one segment of a WebVTT document, as a function. *)
Definition vtt_block (seg : dict) : result (list string) :=
  a <- seg_num "start" seg ;;
  ta <- format_vtt_timestamp a ;;
  b <- seg_num "end" seg ;;
  tb <- format_vtt_timestamp b ;;
  txt <- seg_stripped "text" seg ;;
  Ok [ta +:+ " --> " +:+ tb; txt; ""].

End Webvtt.

Module Wire.
Import Py Server.


(** The request [req] with another [model]. *)
Definition with_model (m : string) (req : Request) : Request :=
  {| file_data := file_data req;
     file_filename := file_filename req;
     model := m;
     language := language req;
     prompt := prompt req;
     response_format := response_format req;
     temperature := temperature req;
     timestamp_granularities := timestamp_granularities req;
     beam_size := beam_size req;
     best_of := best_of req;
     patience := patience req;
     length_penalty := length_penalty req;
     repetition_penalty := repetition_penalty req;
     no_repeat_ngram_size := no_repeat_ngram_size req;
     compression_ratio_threshold := compression_ratio_threshold req;
     log_prob_threshold := log_prob_threshold req;
     no_speech_threshold := no_speech_threshold req;
     condition_on_previous_text := condition_on_previous_text req;
     prompt_reset_on_temperature := prompt_reset_on_temperature req;
     suppress_blank := suppress_blank req;
     suppress_tokens := suppress_tokens req;
     max_new_tokens := max_new_tokens req;
     max_initial_timestamp := max_initial_timestamp req;
     hallucination_silence_threshold := hallucination_silence_threshold req;
     hotwords := hotwords req;
     word_timestamps := word_timestamps req;
     without_timestamps := without_timestamps req;
     vad_filter := vad_filter req;
     vad_threshold := vad_threshold req;
     vad_min_speech_duration_ms := vad_min_speech_duration_ms req;
     vad_min_silence_duration_ms := vad_min_silence_duration_ms req;
     vad_max_speech_duration_s := vad_max_speech_duration_s req;
     vad_speech_pad_ms := vad_speech_pad_ms req |}.

(** A string none of whose characters is white space for [str.strip] or
    for [float()], or a comma. *)
Fixpoint plain (s : string) : bool :=
  match s with
  | EmptyString => true
  | String c s' =>
      negb (is_space c) && negb (is_float_space c)
        && negb (Ascii.eqb c comma) && negb (Ascii.eqb c "_") && plain s'
  end.

End Wire.

(* ===================================================================== *)
(** * Floats as exact numbers *)
(* ===================================================================== *)

Module Exact.
Import Py.

(** A float as the machine holds it: the mantissa of a finite float has
    53 binary digits, or fewer at the least exponent. *)
Definition valid (x : float) : bool := SpecFloat.valid_binary prec emax x.

(** The least positive float is [2^-1074]; there are [unit] of them in 1. *)
Definition unit : Z := 2 ^ 1074.

(** The value of a finite float, counted in least positive floats. *)
Definition units (x : float) : Z :=
  match x with
  | S754_finite s m e => cond_Zopp s (Zpos m * 2 ^ (e + 1074))
  | _ => 0
  end.

(** A time a clock can show: a finite float as the machine holds it, not
    negative, and less than [n] seconds. *)
Definition seconds_below (n : Z) (x : float) : Prop :=
  valid x = true /\ is_finite x = true /\ sign_of x = false /\
  units x < n * unit.

(** The float that is the integer [k], for [0 < k < 2^53]. *)
Definition of_int (k : Z) : float :=
  S754_finite false (Z.to_pos (k * 2 ^ (53 - Zdigits2 k))) (Zdigits2 k - 53).

(** The thousandths of a second in [X] least positive floats, cut. *)
Definition thousandths (X : Z) : Z := 1000 * (X mod unit) / unit.

(** The clock that shows the hours, the minutes and the seconds of [X]
    least positive floats, and [ms] behind the separator. *)
Definition clock (sep : ascii) (X ms : Z) : string :=
  format_0d 2 (X / (3600 * unit)) +:+ ":"
    +:+ format_0d 2 (X mod (3600 * unit) / (60 * unit)) +:+ ":"
    +:+ format_0d 2 (X mod (60 * unit) / unit)
    +:+ String sep EmptyString +:+ format_0d 3 ms.

End Exact.

(* ===================================================================== *)
(** * What the sweep can be sent *)
(* ===================================================================== *)

Module Reply.
Import Py.

(** The keys [run_test] reads from a decoded response. *)
Definition keys : list string :=
  ["text"; "duration"; "processing_time"; "words"; "segments"].

(** A JSON object. *)
Definition is_object (data : value) : bool :=
  match data with VDict _ => true | _ => false end.

(** A float, or the [0] that [data.get] and [r.get] put for a missing
    key. *)
Definition measure (v : value) : bool :=
  match v with
  | VFloat _ => true
  | VInt 0 => true
  | _ => false
  end.

(** A word as the server sends it: an object whose [probability] is a
    float. *)
Definition scored_word (w : value) : bool :=
  match w with
  | VDict d =>
      match dict_lookup "probability" d with
      | Some (VFloat _) => true
      | _ => false
      end
  | _ => false
  end.

(** A response as the server sends it for [verbose_json]: an object whose
    [words], when present, is a list of fewer than [2^53] scored words,
    whose [segments], when present, is a list, and whose [duration] and
    [processing_time], when present, are floats. *)
Definition well_formed (data : value) : bool :=
  match data with
  | VDict d =>
      match dict_get "words" (VList []) d,
            dict_get "segments" (VList []) d with
      | VList ws, VList _ =>
          forallb scored_word ws && (Z.of_nat (length ws) <? 2 ^ 53)
      | _, _ => false
      end
      && measure (dict_get "duration" (VInt 0) d)
      && measure (dict_get "processing_time" (VInt 0) d)
  | _ => false
  end.

(** The integer a value is, if it is one. *)
Definition int_of (v : option value) : option Z :=
  match v with Some (VInt z) => Some z | _ => None end.

(** A record the summary can take: an error record, or one whose
    [avg_prob], [min_prob] and [proc_time] are measures and whose
    [low_conf_words] is an integer. *)
Definition summable (r : dict) : bool :=
  dict_has "error" r
  || (measure (dict_get "avg_prob" VNone r)
      && measure (dict_get "min_prob" VNone r)
      && measure (dict_get "proc_time" VNone r)
      && match int_of (dict_lookup "low_conf_words" r) with
         | Some _ => true
         | None => false
         end).

(** The record of a response that has none of the keys, for the file
    named [file]. *)
Definition blank (file : string) : dict :=
  [ ("file", VStr file);
    ("duration", VInt 0);
    ("proc_time", VInt 0);
    ("segments", VInt 0);
    ("words", VInt 0);
    ("avg_prob", VInt 0);
    ("min_prob", VInt 0);
    ("low_conf_words", VInt 0);
    ("text", VStr "") ].

End Reply.

Module Trial.
Import Py.

(** A response of two words, one of them of low confidence. *)
Definition reply : value :=
  VDict
    [ ("task", VStr "transcribe");
      ("language", VStr "en");
      ("duration", VFloat (float_of_decimal false 184 (-2)));
      ("text", VStr "Medic 23");
      ("segments", VList [ VDict [ ("id", VInt 1) ] ]);
      ("words",
       VList
         [ VDict [ ("word", VStr " Medic");
                   ("probability", VFloat (float_of_decimal false 9 (-1))) ];
           VDict [ ("word", VStr " 23");
                   ("probability", VFloat (float_of_decimal false 2 (-1))) ] ]);
      ("processing_time", VFloat (float_of_decimal false 25 (-2))) ].

(** A server that answers every request, and the decoding of its
    answer. *)
Definition answering (cmd : list string) : result string := Ok "{...}".
Definition decoding (s : string) : result value := Ok reply.

(** The body of a request the server refused, decoded. *)
Definition refusal : dict :=
  [ ("detail", VStr "There was an error parsing the body") ].

(** A decoder of a server that answers with a JSON array. *)
Definition decoding_array (s : string) : result value := Ok (VList []).

(** Two configurations. *)
Definition two_tests : list (string * list (string * string)) :=
  [ ("BASELINE (temp=0.0 only)", [ ("temperature", "0.0") ]);
    ("BEAM=3", [ ("temperature", "0.0"); ("beam_size", "3") ]) ].

End Trial.

(* ===================================================================== *)
(** * What the specification asks of a timestamp *)
(* ===================================================================== *)

Module Clock.
Import Py Server.

(** A time, counted in least positive floats. *)
Definition units_of (a : num) : Z :=
  match a with
  | NInt z => z * Exact.unit
  | NFloat x => Exact.units x
  end.

(** A time that two digits of hours can show: from zero to below a
    hundred hours; a float is one the machine holds, its sign bit
    clear. *)
Definition in_range (a : num) : Prop :=
  match a with
  | NInt z => 0 <= z < 360000
  | NFloat x => Exact.seconds_below 360000 x
  end.

(** The milliseconds shown for a time: none for an int; for a float the
    thousandths of its fraction, cut, or one more. *)
Definition millis_of (a : num) (ms : Z) : Prop :=
  match a with
  | NInt _ => ms = 0
  | NFloat x =>
      ms = Exact.thousandths (Exact.units x) \/
      ms = Exact.thousandths (Exact.units x) + 1
  end.

(** [t] is the timestamp [HH:MM:SS<sep>mmm] of the time [a]: twelve
    characters, the hours, the minutes and the seconds of [a] in two
    digits each, and its milliseconds in three. *)
Definition shows (sep : ascii) (a : num) (t : string) : Prop :=
  Spec.is_clock sep t = true /\
  exists ms : Z,
    0 <= ms <= 999 /\ millis_of a ms /\
    t = Exact.clock sep (units_of a) ms.

(** A segment on the clock: its start and its end are in range, its text
    is a string. *)
Definition timed (seg : dict) : Prop :=
  exists (a b : num) (s : string),
    seg_num "start" seg = Ok a /\ in_range a /\
    seg_num "end" seg = Ok b /\ in_range b /\
    dict_lookup "text" seg = Some (VStr s).

(** The lines of a segment: the line of its two timestamps, its text
    trimmed, an empty line. *)
Definition lines_of (sep : ascii) (seg : dict) (ls : list string) : Prop :=
  exists (a b : num) (s ta tb : string),
    seg_num "start" seg = Ok a /\
    seg_num "end" seg = Ok b /\
    dict_lookup "text" seg = Some (VStr s) /\
    shows sep a ta /\ shows sep b tb /\
    ls = [ta +:+ " --> " +:+ tb; strip s; ""].

(** The block of the segment numbered [i] in an SRT document: its number,
    then its lines. *)
Definition srt_block_of (i : Z) (seg : dict) (block : list string) : Prop :=
  exists ls : list string,
    lines_of "," seg ls /\ block = str_of_int i :: ls.

(** A segment that starts at a hundred hours, and one that starts before
    zero. *)
Definition late : dict :=
  [ ("start", VFloat (float_of_Z 360000));
    ("end", VFloat (float_of_Z 360001));
    ("text", VStr "late") ].

Definition early : dict :=
  [ ("start", VFloat (float_of_ratio true 3 2));
    ("end", VFloat pzero);
    ("text", VStr "early") ].

End Clock.

(* ===================================================================== *)
(** * What the specification asks of the summary table *)
(* ===================================================================== *)

Module Tally.
Import Py.

(** The records that hold no [error], in their order. *)
Fixpoint non_error (results : list dict) : list dict :=
  match results with
  | [] => []
  | r :: rest =>
      match dict_lookup "error" r with
      | Some _ => non_error rest
      | None => r :: non_error rest
      end
  end.

(** What a record gives to the table. *)
Record row := {
  avg_prob : num;
  min_prob : num;
  low_conf_words : Z;
  proc_time : num }.

(** The record [r] holds the four numbers of [w]. *)
Definition row_of (r : dict) (w : row) : Prop :=
  dict_lookup "avg_prob" r = Some (of_num (avg_prob w)) /\
  dict_lookup "min_prob" r = Some (of_num (min_prob w)) /\
  dict_lookup "low_conf_words" r = Some (VInt (low_conf_words w)) /\
  dict_lookup "proc_time" r = Some (of_num (proc_time w)).

(** The sum of numbers as [sum] computes it: from [acc], one addition
    after the other. *)
Fixpoint total_from (acc : num) (l : list num) : result num :=
  match l with
  | [] => Ok acc
  | a :: l' => acc' <- num_add acc a ;; total_from acc' l'
  end.

(** The average: the sum from the int 0, over the count. *)
Definition mean (l : list num) : result num :=
  s <- total_from (NInt 0) l ;; num_truediv s (NInt (Z.of_nat (length l))).

(** The least of the numbers of a list that is not empty. *)
Definition least (l : list num) : num :=
  match l with
  | [] => NInt 0
  | a :: l' => min_from a l'
  end.

(** The count: the sum of the ints. *)
Definition count (l : list Z) : Z := fold_right Z.add 0 l.

(** A number in a column of width 8 with 3 decimals. *)
Definition cell (a : num) : result string :=
  s <- format_3f a ;; Ok (align_right 8 s).

(** The line of a configuration: its label in 55 columns, then the
    average of the average probabilities, the least of the minimum
    probabilities, the count of the low-confidence words and the average
    of the processing times of its rows. *)
Definition line (label : string) (rows : list row) : result string :=
  avg_p <- mean (map avg_prob rows) ;;
  avg_t <- mean (map proc_time rows) ;;
  s1 <- cell avg_p ;;
  s2 <- cell (least (map min_prob rows)) ;;
  s4 <- cell avg_t ;;
  Ok (align_left 55 label +:+ " " +:+ s1 +:+ " " +:+ s2 +:+ " "
        +:+ align_right 8 (str_of_int (count (map low_conf_words rows)))
        +:+ " " +:+ s4).

(** The rows of [Sample.scored "a.m4a" 900 1] and of
    [Sample.scored "c.m4a" 800 2]. *)
Definition sample_rows : list row :=
  [ {| avg_prob := NFloat (float_of_decimal false 900 (-3));
       min_prob := NFloat (float_of_decimal false 400 (-3));
       low_conf_words := 1;
       proc_time := NFloat (float_of_ratio false 1 4) |};
    {| avg_prob := NFloat (float_of_decimal false 800 (-3));
       min_prob := NFloat (float_of_decimal false 300 (-3));
       low_conf_words := 2;
       proc_time := NFloat (float_of_ratio false 1 4) |} ].

End Tally.

(* ===================================================================== *)
(** * Properties of the built-ins *)
(* ===================================================================== *)

Import Py.

Section Results.

Context {A B C : Type}.

Lemma bind_ok (a : A) (k : A -> result B) : bind (Ok a) k = k a.
Proof. reflexivity. Qed.

Lemma bind_raise (e : exn) (k : A -> result B) : bind (Raise e) k = Raise e.
Proof. reflexivity. Qed.

Lemma bind_assoc (r : result A) (k : A -> result B) (h : B -> result C) :
  bind (bind r k) h = bind r (fun a => bind (k a) h).
Proof. destruct r; reflexivity. Qed.

Lemma bind_ret (r : result A) : bind r Ok = r.
Proof. destruct r; reflexivity. Qed.

Lemma traverse_app (f : A -> result B) (l1 l2 : list A) :
  traverse f (l1 ++ l2) =
  (bs1 <- traverse f l1 ;; bs2 <- traverse f l2 ;; Ok (bs1 ++ bs2)).
Proof.
  induction l1 as [|a l1 IH]; simpl.
  - destruct (traverse f l2); reflexivity.
  - destruct (f a); simpl; [|reflexivity].
    rewrite IH. destruct (traverse f l1); simpl; [|reflexivity].
    destruct (traverse f l2); reflexivity.
Qed.

(** A comprehension that maps [g] before filtering and converting. *)
Lemma traverse_filter_map (g : A -> C) (p : C -> bool) (f : C -> result B)
    (l : list A) :
  traverse (fun a => f (g a)) (List.filter (fun a => p (g a)) l) =
  traverse f (List.filter p (map g l)).
Proof.
  induction l as [|a l IH]; simpl; [reflexivity|].
  destruct (p (g a)); simpl; now rewrite IH.
Qed.

Lemma traverse_ok_length (f : A -> result B) (l : list A) (bs : list B) :
  traverse f l = Ok bs -> length bs = length l.
Proof.
  revert bs. induction l as [|a l IH]; simpl; intros bs H.
  - now inversion H.
  - destruct (f a); simpl in H; [|discriminate].
    destruct (traverse f l); simpl in H; [|discriminate].
    inversion H; subst; simpl. f_equal. now apply IH.
Qed.

End Results.

(** Closed goals, conjunct by conjunct, by evaluation. *)
Ltac evaluate :=
  cbv zeta;
  repeat match goal with |- _ /\ _ => split end; vm_compute; reflexivity.

(** [String.append] on constructors, one step at a time. *)
Ltac step_append :=
  repeat match goal with
    | |- context [String.append EmptyString ?x] =>
        change (String.append EmptyString x) with x
    | |- context [String.append (String ?a ?x) ?y] =>
        change (String.append (String a x) y) with (String a (String.append x y))
    end.

(** The integer operations of [SpecFloat], under the names [lia] knows. *)
Ltac zfold :=
  change IntDef.Z.min with Z.min in *; change IntDef.Z.max with Z.max in *;
  change IntDef.Z.sub with Z.sub in *; change IntDef.Z.add with Z.add in *;
  change IntDef.Z.mul with Z.mul in *; change IntDef.Z.opp with Z.opp in *.

Section Strings.

(** [repr] on a word, on a text with an apostrophe, on a text with both
    quotes, and on characters that are escaped. *)
Example repr_str_samples :
  repr_str "warm" = "'warm'" /\
  repr_str "it's" =
    String double_quote ("it's" +:+ String double_quote EmptyString) /\
  repr_str (String double_quote "it's") =
    "'" +:+ String double_quote "it\'s'" /\
  repr_str (String "009" (String "000" (String "\" (String "233" "")))) =
    "'\t\x00\\" +:+ String "233" "'".
Proof. repeat split; vm_compute; reflexivity. Qed.

Lemma split_not_nil (c : ascii) (s : string) : split c s <> [].
Proof.
  destruct s as [|a s]; simpl; [discriminate|].
  destruct (Ascii.eqb a c); [discriminate|].
  destruct (split c s); discriminate.
Qed.

Lemma join_cons (sep x : string) (y : string) (l : list string) :
  join sep (x :: y :: l) = x +:+ sep +:+ join sep (y :: l).
Proof. reflexivity. Qed.

(** Joining the pieces of a split gives the string back. *)
Lemma join_split (c : ascii) (s : string) :
  join (String c EmptyString) (split c s) = s.
Proof.
  induction s as [|a s IH]; simpl; [reflexivity|].
  pose proof (split_not_nil c s) as Hnn.
  destruct (split c s) as [|y l]; [contradiction|].
  destruct (Ascii.eqb_spec a c) as [->|Hne].
  - rewrite join_cons, IH. reflexivity.
  - destruct l as [|z l].
    + simpl in *. now rewrite IH.
    + rewrite join_cons in IH. rewrite join_cons, <- IH. reflexivity.
Qed.

(** No piece of a split contains the separator. *)
Lemma split_pieces_free (c : ascii) (s : string) :
  Forall (fun p => contains c p = false) (split c s).
Proof.
  induction s as [|a s IH]; simpl.
  - constructor; [reflexivity|constructor].
  - destruct (Ascii.eqb a c) eqn:E.
    + constructor; [reflexivity|exact IH].
    + destruct (split c s) as [|h t].
      * constructor; [simpl; now rewrite E|constructor].
      * inversion IH; subst. constructor; [simpl; now rewrite E|assumption].
Qed.

(** The pieces are determined by the string: separator-free pieces, joined,
    split back into themselves. *)
Lemma split_join (c : ascii) (ps : list string) :
  ps <> [] ->
  Forall (fun p => contains c p = false) ps ->
  split c (join (String c EmptyString) ps) = ps.
Proof.
  induction ps as [|p ps IH]; intros Hnn Hfree; [contradiction|].
  inversion Hfree as [|? ? Hp Hps]; subst.
  destruct ps as [|q ps].
  - clear IH Hps Hnn Hfree. simpl.
    induction p as [|a p IHp]; simpl in *; [reflexivity|].
    apply orb_false_iff in Hp as [Ha Hp]. rewrite Ha, (IHp Hp). reflexivity.
  - rewrite join_cons. specialize (IH ltac:(discriminate) Hps).
    set (rest := join (String c EmptyString) (q :: ps)) in *.
    clearbody rest. clear Hfree Hnn Hps. step_append.
    induction p as [|a p IHp]; step_append; simpl in *.
    + rewrite Ascii.eqb_refl. now rewrite IH.
    + apply orb_false_iff in Hp as [Ha Hp]. rewrite Ha, (IHp Hp). reflexivity.
Qed.

Lemma contains_split_length (c : ascii) (s : string) :
  contains c s = true <-> (2 <= length (split c s))%nat.
Proof.
  induction s as [|a s IH]; simpl.
  - split; [discriminate|lia].
  - pose proof (split_not_nil c s) as Hnn.
    destruct (Ascii.eqb a c); simpl.
    + split; [intros _|reflexivity].
      destruct (split c s); [contradiction|simpl; lia].
    + rewrite IH. destruct (split c s); [contradiction|]. reflexivity.
Qed.

End Strings.

Section Digits.

Lemma format_0d_2_small (n : nat) :
  (n < 100)%nat -> Spec.digits_exactly 2 (format_0d 2 (Z.of_nat n)) = true.
Proof.
  intros Hn.
  assert (Hall : forallb (fun k => Spec.digits_exactly 2 (format_0d 2 (Z.of_nat k)))
                   (seq 0 100) = true) by (vm_compute; reflexivity).
  rewrite forallb_forall in Hall. apply Hall, in_seq. lia.
Qed.

Lemma format_0d_3_small (n : nat) :
  (n < 1000)%nat -> Spec.digits_exactly 3 (format_0d 3 (Z.of_nat n)) = true.
Proof.
  intros Hn.
  assert (Hall : forallb (fun k => Spec.digits_exactly 3 (format_0d 3 (Z.of_nat k)))
                   (seq 0 1000) = true) by (vm_compute; reflexivity).
  rewrite forallb_forall in Hall. apply Hall, in_seq. lia.
Qed.

(** Two digits for a field below one hundred. *)
Lemma format_0d_2_digits (z : Z) :
  0 <= z < 100 -> Spec.digits_exactly 2 (format_0d 2 z) = true.
Proof.
  intros Hz. rewrite <- (Z2Nat.id z) by lia. apply format_0d_2_small. lia.
Qed.

(** Three digits for a field below one thousand. *)
Lemma format_0d_3_digits (z : Z) :
  0 <= z < 1000 -> Spec.digits_exactly 3 (format_0d 3 z) = true.
Proof.
  intros Hz. rewrite <- (Z2Nat.id z) by lia. apply format_0d_3_small. lia.
Qed.

End Digits.

(** ** The size of floats

    How large the result of an operation can be, counted in binary digits:
    enough to know that a computation on floats of moderate size meets no
    infinity and no NaN. *)

Section Digits2.

Lemma digits2_pos_bounds (p : positive) :
  2 ^ (Zpos (digits2_pos p) - 1) <= Zpos p < 2 ^ Zpos (digits2_pos p).
Proof.
  induction p as [p IH|p IH|]; cbn [digits2_pos].
  - rewrite Pos2Z.inj_succ.
    replace (Z.succ (Zpos (digits2_pos p)) - 1)
      with (Z.succ (Zpos (digits2_pos p) - 1)) by lia.
    rewrite !Z.pow_succ_r by lia. lia.
  - rewrite Pos2Z.inj_succ.
    replace (Z.succ (Zpos (digits2_pos p)) - 1)
      with (Z.succ (Zpos (digits2_pos p) - 1)) by lia.
    rewrite !Z.pow_succ_r by lia. lia.
  - cbn. lia.
Qed.

Lemma Zdigits2_nonneg (m : Z) : 0 <= Zdigits2 m.
Proof. destruct m; cbn; lia. Qed.

Lemma Zdigits2_bounds (m : Z) :
  0 < m -> 2 ^ (Zdigits2 m - 1) <= m < 2 ^ Zdigits2 m.
Proof.
  destruct m as [|p|p]; try lia. intros _. apply digits2_pos_bounds.
Qed.

(** A number below [2^k] has at most [k] digits. *)
Lemma Zdigits2_le (m k : Z) : 0 <= m < 2 ^ k -> 0 <= k -> Zdigits2 m <= k.
Proof.
  intros [H0 Hk] Hk0.
  destruct (Z.eq_dec m 0) as [->|Hne]; [cbn; lia|].
  pose proof (Zdigits2_bounds m ltac:(lia)) as [Hlo _].
  pose proof (Zdigits2_nonneg m).
  destruct (Z.le_gt_cases (Zdigits2 m) k) as [|Hgt]; [assumption|exfalso].
  assert (2 ^ k <= 2 ^ (Zdigits2 m - 1)) by (apply Z.pow_le_mono_r; lia).
  lia.
Qed.

Lemma Zdigits2_lt_pow (m : Z) : 0 <= m -> m < 2 ^ Zdigits2 m.
Proof.
  intros H. destruct (Z.eq_dec m 0) as [->|]; [cbn; lia|].
  apply Zdigits2_bounds. lia.
Qed.

Lemma Zdigits2_mono (a b : Z) : 0 <= a <= b -> Zdigits2 a <= Zdigits2 b.
Proof.
  intros [Ha Hab]. apply Zdigits2_le; [|apply Zdigits2_nonneg].
  pose proof (Zdigits2_lt_pow b ltac:(lia)). lia.
Qed.

Lemma Zdigits2_succ (m : Z) : 0 <= m -> Zdigits2 (m + 1) <= Zdigits2 m + 1.
Proof.
  intros H. pose proof (Zdigits2_nonneg m).
  apply Zdigits2_le; [|lia].
  pose proof (Zdigits2_lt_pow m H). rewrite Z.pow_add_r by lia.
  change (2 ^ 1) with 2. lia.
Qed.

Lemma Zdigits2_div_pow2 (m n : Z) :
  0 <= m -> 0 <= n -> Zdigits2 (m / 2 ^ n) <= Z.max 0 (Zdigits2 m - n).
Proof.
  intros Hm Hn. pose proof (Zdigits2_nonneg m).
  assert (Hp : 0 < 2 ^ n) by (apply Z.pow_pos_nonneg; lia).
  apply Zdigits2_le; [|lia]. split; [apply Z.div_pos; lia|].
  apply Z.div_lt_upper_bound; [lia|].
  pose proof (Zdigits2_lt_pow m Hm).
  destruct (Z.le_gt_cases n (Zdigits2 m)).
  - rewrite Z.max_r by lia. rewrite <- Z.pow_add_r by lia.
    now replace (n + (Zdigits2 m - n)) with (Zdigits2 m) by lia.
  - rewrite Z.max_l by lia. rewrite Z.pow_0_r, Z.mul_1_r.
    assert (2 ^ Zdigits2 m <= 2 ^ n) by (apply Z.pow_le_mono_r; lia). lia.
Qed.

Lemma Zdigits2_mul_pow2 (m n : Z) :
  0 < m -> 0 <= n -> Zdigits2 (m * 2 ^ n) = Zdigits2 m + n.
Proof.
  intros Hm Hn. pose proof (Zdigits2_bounds m Hm) as [Hlo Hhi].
  pose proof (Zdigits2_nonneg m).
  assert (Hp : 0 < 2 ^ n) by (apply Z.pow_pos_nonneg; lia).
  assert (Hd : 1 <= Zdigits2 m) by (destruct m; cbn in *; lia).
  apply Z.le_antisymm.
  - apply Zdigits2_le; [|lia]. split; [lia|].
    rewrite Z.pow_add_r by lia. nia.
  - assert (0 < m * 2 ^ n) by nia.
    pose proof (Zdigits2_lt_pow (m * 2 ^ n) ltac:(lia)) as Hlt.
    destruct (Z.le_gt_cases (Zdigits2 m + n) (Zdigits2 (m * 2 ^ n)));
      [assumption|exfalso].
    pose proof (Zdigits2_nonneg (m * 2 ^ n)).
    assert (2 ^ Zdigits2 (m * 2 ^ n) <= 2 ^ (Zdigits2 m - 1 + n))
      by (apply Z.pow_le_mono_r; lia).
    rewrite Z.pow_add_r in * by lia. nia.
Qed.

End Digits2.

Section Rounding.

Lemma shr_m_of_loc (m : Z) (l : location) : shr_m (shr_record_of_loc m l) = m.
Proof. destruct l as [|[| |]]; reflexivity. Qed.

(** One shift to the right halves the mantissa. *)
Lemma shr_1_m (mrs : shr_record) :
  0 <= shr_m mrs -> shr_m (shr_1 mrs) = shr_m mrs / 2.
Proof.
  destruct mrs as [m r s]. cbn [shr_m]. intros Hm.
  destruct m as [|[p|p|]|p]; cbn [shr_1 shr_m]; try lia.
  - reflexivity.
  - rewrite Pos2Z.inj_xI. apply Z.div_unique with (r := 1); lia.
  - rewrite Pos2Z.inj_xO. apply Z.div_unique with (r := 0); lia.
  - reflexivity.
Qed.

Lemma pow2_xO (p : positive) : 2 ^ Zpos p~0 = 2 ^ Zpos p * 2 ^ Zpos p.
Proof.
  rewrite Pos2Z.inj_xO, <- Z.pow_add_r by lia. f_equal. lia.
Qed.

Lemma pow2_xI (p : positive) : 2 ^ Zpos p~1 = 2 * (2 ^ Zpos p * 2 ^ Zpos p).
Proof.
  rewrite Pos2Z.inj_xI, <- Z.pow_add_r, <- Z.pow_succ_r by lia. f_equal. lia.
Qed.

Lemma iter_pos_shr (p : positive) : forall mrs : shr_record,
  0 <= shr_m mrs ->
  shr_m (SpecFloat.iter_pos shr_1 p mrs) = shr_m mrs / 2 ^ Zpos p.
Proof.
  induction p as [p IH|p IH|]; intros mrs Hm; cbn [SpecFloat.iter_pos].
  - assert (H1 : 0 <= shr_m (shr_1 mrs))
      by (rewrite shr_1_m by assumption; apply Z.div_pos; lia).
    assert (Hp : 0 < 2 ^ Zpos p) by (apply Z.pow_pos_nonneg; lia).
    assert (H2 : 0 <= shr_m (SpecFloat.iter_pos shr_1 p (shr_1 mrs)))
      by (rewrite IH by assumption; apply Z.div_pos; lia).
    rewrite IH, IH, shr_1_m by assumption.
    rewrite !Z.div_div by lia. now rewrite pow2_xI.
  - assert (Hp : 0 < 2 ^ Zpos p) by (apply Z.pow_pos_nonneg; lia).
    assert (H2 : 0 <= shr_m (SpecFloat.iter_pos shr_1 p mrs))
      by (rewrite IH by assumption; apply Z.div_pos; lia).
    rewrite IH, IH by assumption.
    rewrite !Z.div_div by lia. now rewrite pow2_xO.
  - rewrite shr_1_m by assumption. reflexivity.
Qed.

(** Shifting to the canonical exponent does not make a number larger. *)
Lemma shr_fexp_sized (m e : Z) (l : location) :
  0 <= m ->
  0 <= shr_m (fst (shr_fexp prec emax m e l)) /\
  snd (shr_fexp prec emax m e l) = Z.max e (fexp prec emax (Zdigits2 m + e)) /\
  Zdigits2 (shr_m (fst (shr_fexp prec emax m e l)))
    + snd (shr_fexp prec emax m e l)
  <= Z.max (Zdigits2 m + e) (snd (shr_fexp prec emax m e l)).
Proof.
  intros Hm. unfold shr_fexp, shr.
  set (f := fexp prec emax (Zdigits2 m + e)).
  destruct (f - e) as [|n|n] eqn:En; cbn [fst snd].
  - rewrite shr_m_of_loc. lia.
  - assert (H0 : 0 <= shr_m (shr_record_of_loc m l))
      by (rewrite shr_m_of_loc; assumption).
    rewrite (iter_pos_shr n _ H0), shr_m_of_loc.
    assert (Hp : 0 < 2 ^ Zpos n) by (apply Z.pow_pos_nonneg; lia).
    split; [apply Z.div_pos; lia|]. split; [lia|].
    pose proof (Zdigits2_div_pow2 m (Zpos n) Hm ltac:(lia)). lia.
  - rewrite shr_m_of_loc. lia.
Qed.

Lemma round_nearest_even_range (m : Z) (l : location) :
  round_nearest_even m l = m \/ round_nearest_even m l = m + 1.
Proof.
  destruct l as [|[| |]]; cbn; auto. destruct (Z.even m); auto.
Qed.

Lemma fexp_le (e K : Z) :
  e <= K + prec -> -1074 <= K -> fexp prec emax e <= K.
Proof. unfold fexp, SpecFloat.emin, prec, emax. lia. Qed.

Lemma fexp_ge (e : Z) : -1074 <= fexp prec emax e.
Proof. unfold fexp, SpecFloat.emin, prec, emax. lia. Qed.

(** Rounding keeps a number that is not too large finite. *)
Lemma binary_round_aux_sized (s : bool) (m e : Z) (l : location) (K : Z) :
  0 <= m -> Zdigits2 m + e <= K -> e <= K -> -1074 <= K -> K + 1 <= 971 ->
  Spec.sized (K + 1) (binary_round_aux prec emax s m e l).
Proof.
  intros Hm Hmag He HK0 HK. unfold binary_round_aux.
  pose proof (shr_fexp_sized m e l Hm) as (H1 & H2 & H3).
  destruct (shr_fexp prec emax m e l) as [mrs1 e1]. cbn [fst snd] in *.
  set (m2 := round_nearest_even (shr_m mrs1) (loc_of_shr_record mrs1)).
  assert (Hm2 : 0 <= m2 /\ Zdigits2 m2 <= Zdigits2 (shr_m mrs1) + 1).
  { subst m2.
    destruct (round_nearest_even_range (shr_m mrs1) (loc_of_shr_record mrs1))
      as [-> | ->]; [lia|].
    split; [lia|]. now apply Zdigits2_succ. }
  destruct Hm2 as [Hm2 Hd2].
  pose proof (shr_fexp_sized m2 e1 loc_Exact Hm2) as (H4 & H5 & H6).
  destruct (shr_fexp prec emax m2 e1 loc_Exact) as [mrs2 e2].
  cbn [fst snd] in *.
  pose proof (fexp_ge (Zdigits2 m + e)).
  pose proof (fexp_ge (Zdigits2 m2 + e1)).
  assert (He1 : e1 <= K).
  { rewrite H2. apply Z.max_lub; [assumption|].
    apply fexp_le; [unfold prec; lia|assumption]. }
  assert (He2 : e2 <= K).
  { rewrite H5. apply Z.max_lub; [assumption|].
    apply fexp_le; [unfold prec; lia|assumption]. }
  destruct (shr_m mrs2) as [|p|p] eqn:Ep; cbn [Spec.sized]; [exact I| |lia].
  replace (e2 <=? emax - prec) with true
    by (symmetry; apply Z.leb_le; unfold emax, prec; lia).
  cbn [Spec.sized]. change (Zpos (digits2_pos p)) with (Zdigits2 (Zpos p)).
  lia.
Qed.

End Rounding.

Section Magnitudes.

Lemma sized_mono (K K' : Z) (x : float) :
  K <= K' -> Spec.sized K x -> Spec.sized K' x.
Proof. destruct x; cbn; try tauto. lia. Qed.

Lemma pos_iter_xO (m d : positive) :
  Zpos (Pos.iter xO m d) = Zpos m * 2 ^ Zpos d.
Proof.
  induction d as [|d IH] using Pos.peano_ind.
  - cbn. lia.
  - rewrite Pos.iter_succ, Pos2Z.inj_xO, IH, Pos2Z.inj_succ, Z.pow_succ_r by lia.
    lia.
Qed.

(** Aligning to a smaller exponent keeps the value and the size. *)
Lemma shl_align_spec (mx : positive) (ex ex' : Z) :
  let r := shl_align mx ex ex' in
  snd r = Z.min ex ex' /\
  Zpos (fst r) = Zpos mx * 2 ^ (ex - snd r) /\
  Zdigits2 (Zpos (fst r)) + snd r = Zdigits2 (Zpos mx) + ex.
Proof.
  unfold shl_align. destruct (ex' - ex) as [|d|d] eqn:Ed; cbn [fst snd].
  - replace (ex - ex) with 0 by lia. rewrite Z.pow_0_r. lia.
  - replace (ex - ex) with 0 by lia. rewrite Z.pow_0_r. lia.
  - rewrite pos_iter_xO. replace (ex - ex') with (Zpos d) by lia.
    split; [lia|]. split; [reflexivity|].
    rewrite Zdigits2_mul_pow2 by lia. lia.
Qed.

Lemma binary_round_sized (s : bool) (m : positive) (e K : Z) :
  Zdigits2 (Zpos m) + e <= K -> -1074 <= K -> K + 1 <= 971 ->
  Spec.sized (K + 1) (binary_round prec emax s m e).
Proof.
  intros Hmag HK0 HK. unfold binary_round.
  pose proof (shl_align_spec m e (fexp prec emax (Zpos (digits2_pos m) + e)))
    as (H1 & H2 & H3).
  destruct (shl_align m e _) as [mz ez]. cbn [fst snd] in *.
  assert (1 <= Zdigits2 (Zpos m)) by (cbn; lia).
  apply binary_round_aux_sized; lia.
Qed.

Lemma Zdigits2_abs (m : Z) : Zdigits2 (Z.abs m) = Zdigits2 m.
Proof. destruct m; reflexivity. Qed.

Lemma binary_normalize_sized (m e : Z) (szero : bool) (K : Z) :
  Zdigits2 m + e <= K -> -1074 <= K -> K + 1 <= 971 ->
  Spec.sized (K + 1) (binary_normalize prec emax m e szero).
Proof.
  intros Hmag HK0 HK. destruct m as [|p|p]; cbn [binary_normalize].
  - exact I.
  - now apply binary_round_sized.
  - now apply binary_round_sized.
Qed.

Lemma Zdigits2_add (a b : Z) :
  0 <= a -> 0 <= b -> Zdigits2 (a + b) <= Z.max (Zdigits2 a) (Zdigits2 b) + 1.
Proof.
  intros Ha Hb.
  pose proof (Zdigits2_nonneg a). pose proof (Zdigits2_nonneg b).
  apply Zdigits2_le; [|lia].
  pose proof (Zdigits2_lt_pow a Ha). pose proof (Zdigits2_lt_pow b Hb).
  assert (2 ^ Zdigits2 a <= 2 ^ Z.max (Zdigits2 a) (Zdigits2 b))
    by (apply Z.pow_le_mono_r; lia).
  assert (2 ^ Zdigits2 b <= 2 ^ Z.max (Zdigits2 a) (Zdigits2 b))
    by (apply Z.pow_le_mono_r; lia).
  rewrite Z.pow_add_r by lia. change (2 ^ 1) with 2. lia.
Qed.

(** The digits of a sum or difference of two signed numbers. *)
Lemma Zdigits2_signed (sa sb : bool) (a b : positive) (sub : bool) :
  Zdigits2 (if sub then cond_Zopp sa (Zpos a) - cond_Zopp sb (Zpos b)
            else cond_Zopp sa (Zpos a) + cond_Zopp sb (Zpos b))
  <= Z.max (Zdigits2 (Zpos a)) (Zdigits2 (Zpos b)) + 1.
Proof.
  set (z := if sub then _ else _).
  rewrite <- Zdigits2_abs.
  transitivity (Zdigits2 (Zpos a + Zpos b)).
  - apply Zdigits2_mono. subst z.
    destruct sub, sa, sb; cbn [cond_Zopp]; lia.
  - apply Zdigits2_add; lia.
Qed.

Lemma sized_exponent (K : Z) (s : bool) (m : positive) (e : Z) :
  Spec.sized K (S754_finite s m e) -> e <= K - 1.
Proof. cbn. lia. Qed.

(** A sum or a difference is at most two digits larger. *)
Lemma fadd_fsub_sized (sub : bool) (x y : float) (K : Z) :
  Spec.sized K x -> Spec.sized K y -> -1074 <= K -> K + 2 <= 971 ->
  Spec.sized (K + 2) (if sub then fsub x y else fadd x y).
Proof.
  intros Hx Hy HK0 HK.
  destruct x as [sx|sx| |sx mx ex]; try contradiction;
    destruct y as [sy|sy| |sy my ey]; try contradiction.
  - destruct sub, sx, sy; exact I.
  - destruct sub; cbn in *; lia.
  - destruct sub; cbn in *; lia.
  - pose proof (shl_align_spec mx ex (Z.min ex ey)) as (A1 & A2 & A3).
    pose proof (shl_align_spec my ey (Z.min ex ey)) as (B1 & B2 & B3).
    pose proof (Zdigits2_signed sx sy (fst (shl_align mx ex (Z.min ex ey)))
                  (fst (shl_align my ey (Z.min ex ey))) sub) as Hd.
    cbn [Spec.sized] in Hx, Hy.
    change (Zpos (digits2_pos mx)) with (Zdigits2 (Zpos mx)) in Hx.
    change (Zpos (digits2_pos my)) with (Zdigits2 (Zpos my)) in Hy.
    replace (K + 2) with (K + 1 + 1) by lia.
    clear A2 B2. destruct sub; unfold fsub, fadd; cbn [SFsub SFadd];
      apply binary_normalize_sized; try lia; zfold; lia.
Qed.

Lemma fsub_sized (x y : float) (K : Z) :
  Spec.sized K x -> Spec.sized K y -> -1074 <= K -> K + 2 <= 971 ->
  Spec.sized (K + 2) (fsub x y).
Proof. exact (fadd_fsub_sized true x y K). Qed.

Lemma fadd_sized (x y : float) (K : Z) :
  Spec.sized K x -> Spec.sized K y -> -1074 <= K -> K + 2 <= 971 ->
  Spec.sized (K + 2) (fadd x y).
Proof. exact (fadd_fsub_sized false x y K). Qed.

Lemma Zdigits2_mul (a b : Z) :
  0 <= a -> 0 <= b -> Zdigits2 (a * b) <= Zdigits2 a + Zdigits2 b.
Proof.
  intros Ha Hb.
  pose proof (Zdigits2_nonneg a). pose proof (Zdigits2_nonneg b).
  apply Zdigits2_le; [|lia].
  pose proof (Zdigits2_lt_pow a Ha). pose proof (Zdigits2_lt_pow b Hb).
  rewrite Z.pow_add_r by lia. nia.
Qed.

(** A product has the digits of its factors, and one for the rounding. *)
Lemma fmul_sized (x y : float) (K1 K2 : Z) :
  Spec.sized K1 x -> Spec.sized K2 y -> -1074 <= K1 + K2 -> K1 + K2 + 1 <= 971 ->
  Spec.sized (K1 + K2 + 1) (fmul x y).
Proof.
  intros Hx Hy HK0 HK.
  destruct x as [sx|sx| |sx mx ex]; try contradiction;
    destruct y as [sy|sy| |sy my ey]; try contradiction; try exact I.
  unfold fmul. cbn [SFmul]. cbn [Spec.sized] in Hx, Hy.
  change (Zpos (digits2_pos mx)) with (Zdigits2 (Zpos mx)) in Hx.
  change (Zpos (digits2_pos my)) with (Zdigits2 (Zpos my)) in Hy.
  pose proof (Zdigits2_mul (Zpos mx) (Zpos my) ltac:(lia) ltac:(lia)) as Hm.
  rewrite <- Pos2Z.inj_mul in Hm.
  assert (1 <= Zdigits2 (Zpos mx)) by (cbn; lia).
  assert (1 <= Zdigits2 (Zpos my)) by (cbn; lia).
  apply binary_round_aux_sized; lia.
Qed.

(** The quotient of the division of two mantissas. *)
Lemma SFdiv_core_binary_spec (mx my : positive) (ex ey : Z) :
  let r := SFdiv_core_binary prec emax (Zpos mx) ex (Zpos my) ey in
  let mag := Zdigits2 (Zpos mx) + ex - (Zdigits2 (Zpos my) + ey) in
  0 <= fst (fst r) /\
  Zdigits2 (fst (fst r)) + snd (fst r) <= Z.max (mag + 1) (-1074) /\
  snd (fst r) <= Z.max (mag - prec) (-1074).
Proof.
  cbv zeta. unfold SFdiv_core_binary.
  set (d1 := Zdigits2 (Zpos mx)). set (d2 := Zdigits2 (Zpos my)).
  zfold.
  set (e' := Z.min _ _).
  assert (He' : e' <= ex - ey) by (subst e'; lia).
  assert (He'' : e' <= Z.max (d1 + ex - (d2 + ey) - prec) (-1074)).
  { subst e'. unfold fexp, SpecFloat.emin, prec, emax. zfold. lia. }
  assert (He3 : d1 + ex - (d2 + ey) - prec <= e' \/ ex - ey <= e').
  { subst e'. unfold fexp, SpecFloat.emin, prec, emax. zfold. lia. }
  set (m' := match ex - ey - e' with Z0 => _ | Zpos _ => _ | Zneg _ => _ end).
  assert (Hm' : m' = Zpos mx * 2 ^ (ex - ey - e')).
  { subst m'. destruct (ex - ey - e') as [|p|p] eqn:Es.
    - cbn. lia.
    - apply Z.shiftl_mul_pow2. lia.
    - lia. }
  pose proof (Z_div_mod m' (Zpos my) ltac:(lia)) as Hdiv.
  destruct (Z.div_eucl m' (Zpos my)) as [q r]. cbn [fst snd].
  destruct Hdiv as [Hq Hr].
  assert (H1 : 1 <= d1) by (subst d1; cbn; lia).
  assert (H2 : 1 <= d2) by (subst d2; cbn; lia).
  pose proof (Zdigits2_bounds (Zpos my) ltac:(lia)) as [Hmy _].
  fold d2 in Hmy.
  assert (Hm'0 : 0 < m').
  { rewrite Hm'. apply Z.mul_pos_pos; [lia|]. apply Z.pow_pos_nonneg; lia. }
  assert (Hq0 : 0 <= q) by nia.
  split; [exact Hq0|]. split; [|exact He''].
  assert (Hdm : Zdigits2 m' = d1 + (ex - ey - e')).
  { rewrite Hm'. apply Zdigits2_mul_pow2; lia. }
  pose proof (Zdigits2_lt_pow m' ltac:(lia)) as Hlt. rewrite Hdm in Hlt.
  set (s := ex - ey - e') in *.
  assert (Hs : 0 <= s) by (subst s; lia).
  (* q * 2^(d2-1) <= q * my <= m' < 2^(d1+s) *)
  assert (Hpow : 0 < 2 ^ (d2 - 1)) by (apply Z.pow_pos_nonneg; lia).
  assert (Hq' : q * 2 ^ (d2 - 1) < 2 ^ (d1 + s)) by nia.
  destruct (Z.le_gt_cases (d2 - 1) (d1 + s)) as [Hle|Hgt].
  - assert (Zdigits2 q <= d1 + s - (d2 - 1)); [|subst s; lia].
    apply Zdigits2_le; [|lia]. split; [exact Hq0|].
    replace (d1 + s) with ((d1 + s - (d2 - 1)) + (d2 - 1)) in Hq' by lia.
    rewrite Z.pow_add_r in Hq' by lia. nia.
  - assert (q = 0).
    { assert (2 ^ (d1 + s) < 2 ^ (d2 - 1)) by (apply Z.pow_lt_mono_r; lia).
      nia. }
    subst q. cbn [Zdigits2]. unfold prec in *. lia.
Qed.

(** Division by a number that is at least one half. *)
Lemma fdiv_sized (x : float) (sy : bool) (my : positive) (ey K : Z) :
  Spec.sized K x -> 0 <= Zdigits2 (Zpos my) + ey -> -1074 <= K -> K + 2 <= 971 ->
  Spec.sized (K + 2) (fdiv x (S754_finite sy my ey)).
Proof.
  intros Hx Hy HK0 HK.
  destruct x as [sx|sx| |sx mx ex]; try contradiction; [exact I|].
  unfold fdiv. cbn [SFdiv].
  pose proof (SFdiv_core_binary_spec mx my ex ey) as H. cbv zeta in H.
  destruct (SFdiv_core_binary prec emax (Zpos mx) ex (Zpos my) ey)
    as [[mz ez] lz].
  cbn [fst snd] in H. destruct H as (H0 & H1 & H2).
  cbn [Spec.sized] in Hx.
  change (Zpos (digits2_pos mx)) with (Zdigits2 (Zpos mx)) in Hx.
  replace (K + 2) with (K + 1 + 1) by lia.
  apply binary_round_aux_sized; unfold prec in *; lia.
Qed.

(** The remainder is no larger than the divisor. *)
Lemma fmod_sized (x : float) (sy : bool) (my : positive) (ey K M : Z) :
  Spec.sized K x -> Zdigits2 (Zpos my) + ey <= M -> -1074 <= M -> M + 1 <= 971 ->
  Spec.sized (M + 1) (fmod x (S754_finite sy my ey)).
Proof.
  intros Hx Hy HM0 HM.
  destruct x as [sx|sx| |sx mx ex]; try contradiction; [exact I|].
  cbn [fmod]. cbv zeta.
  set (e := Z.min ex ey).
  set (a := Z.shiftl (Zpos mx) (ex - e)).
  set (b := Z.shiftl (Zpos my) (ey - e)).
  assert (Hb : b = Zpos my * 2 ^ (ey - e))
    by (apply Z.shiftl_mul_pow2; subst e; lia).
  assert (Hb0 : 0 < b).
  { rewrite Hb. apply Z.mul_pos_pos; [lia|].
    apply Z.pow_pos_nonneg; subst e; lia. }
  pose proof (Z.mod_pos_bound a b Hb0) as Hr.
  apply binary_normalize_sized; [|lia|lia].
  rewrite <- Zdigits2_abs.
  assert (Habs : Z.abs (cond_Zopp sx (a mod b)) = a mod b)
    by (destruct sx; cbn [cond_Zopp]; lia).
  rewrite Habs.
  assert (Zdigits2 (a mod b) <= Zdigits2 b) by (apply Zdigits2_mono; lia).
  assert (Zdigits2 b = Zdigits2 (Zpos my) + (ey - e)).
  { rewrite Hb. apply Zdigits2_mul_pow2; subst e; lia. }
  lia.
Qed.

(** [floor] adds one to the magnitude at most. *)
Lemma ffloor_sized (x : float) (K : Z) :
  Spec.sized K x -> 1 <= K -> K + 3 <= 971 -> Spec.sized (K + 3) (ffloor x).
Proof.
  intros Hx HK0 HK.
  destruct x as [sx|sx| |sx mx ex]; try contradiction; [exact I|].
  destruct ex as [|p|p]; cbn [ffloor].
  1,2: cbn [Spec.sized] in *; lia.
  replace (K + 3) with (K + 2 + 1) by lia.
  apply binary_normalize_sized; [|lia|lia].
  rewrite Z.shiftr_div_pow2 by lia.
  cbn [Spec.sized] in Hx.
  change (Zpos (digits2_pos mx)) with (Zdigits2 (Zpos mx)) in Hx.
  assert (Hp : 0 < 2 ^ Zpos p) by (apply Z.pow_pos_nonneg; lia).
  rewrite <- Zdigits2_abs.
  transitivity (Zdigits2 (Zpos mx / 2 ^ Zpos p + 1) + 0); [|].
  - apply Z.add_le_mono_r. apply Zdigits2_mono. split; [lia|].
    destruct sx; cbn [cond_Zopp].
    + pose proof (Z.div_mod (Zpos mx) (2 ^ Zpos p) ltac:(lia)).
      pose proof (Z.mod_pos_bound (Zpos mx) (2 ^ Zpos p) Hp).
      pose proof (Z.div_mod (- Zpos mx) (2 ^ Zpos p) ltac:(lia)).
      pose proof (Z.mod_pos_bound (- Zpos mx) (2 ^ Zpos p) Hp).
      change (Z.neg mx) with (- Zpos mx).
      assert (- (Zpos mx / 2 ^ Zpos p) - 1 <= - Zpos mx / 2 ^ Zpos p <= 0)
        by nia.
      lia.
    + assert (0 <= Zpos mx / 2 ^ Zpos p) by (apply Z.div_pos; lia). lia.
  - pose proof (Zdigits2_div_pow2 (Zpos mx) (Zpos p) ltac:(lia) ltac:(lia)).
    assert (0 <= Zpos mx / 2 ^ Zpos p) by (apply Z.div_pos; lia).
    pose proof (Zdigits2_succ (Zpos mx / 2 ^ Zpos p) ltac:(lia)).
    lia.
Qed.

Lemma divisor_within_inv (K : Z) (y : float) :
  Spec.divisor_within K y = true ->
  exists s m e, y = S754_finite s m e /\
    1 <= Zdigits2 (Zpos m) + e <= K /\ feq y pzero = false.
Proof.
  destruct y as [| | |s m e]; try discriminate. cbn [Spec.divisor_within].
  intros H. apply andb_prop in H as [H1 H2].
  exists s, m, e. split; [reflexivity|]. split; [cbn [Zdigits2]; lia|].
  now destruct s.
Qed.

Lemma divisor_within_sized (K : Z) (y : float) :
  Spec.divisor_within K y = true -> Spec.sized K y.
Proof.
  intros H. apply divisor_within_inv in H as (s & m & e & -> & H & _).
  cbn [Spec.sized Zdigits2] in *. lia.
Qed.

(** [x % y] returns, and is of the size of [y]. *)
Lemma float_mod_sized (x y : float) (K M : Z) :
  Spec.sized K x -> Spec.divisor_within M y = true -> M + 3 <= 971 ->
  exists r, float_mod x y = Ok r /\ Spec.sized (M + 3) r.
Proof.
  intros Hx Hy HM.
  pose proof (divisor_within_sized M y Hy) as Hys.
  apply divisor_within_inv in Hy as (s & m & e & -> & Hmag & Hne).
  unfold float_mod. rewrite Hne. eexists. split; [reflexivity|].
  pose proof (fmod_sized x s m e K M Hx ltac:(lia) ltac:(lia) ltac:(lia))
    as Hm.
  destruct (ftruthy _); [|exact I].
  destruct (negb _).
  - replace (M + 3) with (M + 1 + 2) by lia.
    apply fadd_sized; [exact Hm|eapply sized_mono; [|exact Hys]; lia|lia|lia].
  - eapply sized_mono; [|exact Hm]. lia.
Qed.

(** [x // y] returns a finite float when [y] is at least one half. *)
Lemma float_floordiv_sized (x y : float) (K : Z) :
  Spec.sized K x -> Spec.divisor_within K y = true -> K + 12 <= 971 ->
  exists q, float_floordiv x y = Ok q /\ Spec.sized (K + 12) q.
Proof.
  intros Hx Hy HK.
  pose proof (divisor_within_sized K y Hy) as Hys.
  apply divisor_within_inv in Hy as (s & m & e & -> & Hmag & Hne).
  unfold float_floordiv, float_divmod. rewrite Hne. cbv zeta.
  pose proof (fmod_sized x s m e K K Hx ltac:(lia) ltac:(lia) ltac:(lia))
    as Hm.
  set (mod0 := fmod x (S754_finite s m e)) in *.
  assert (Hd0 : Spec.sized (K + 5) (fdiv (fsub x mod0) (S754_finite s m e))).
  { replace (K + 5) with (K + 3 + 2) by lia.
    apply fdiv_sized; [|lia|lia|lia].
    replace (K + 3) with (K + 1 + 2) by lia.
    apply fsub_sized; [eapply sized_mono; [|exact Hx]; lia|exact Hm|lia|lia]. }
  set (div0 := fdiv (fsub x mod0) (S754_finite s m e)) in *.
  assert (H1 : Spec.sized (K + 5) (float_of_Z 1)).
  { apply (sized_mono 1); [lia|].
    apply divisor_within_sized. vm_compute. reflexivity. }
  set (dm := if ftruthy mod0 then _ else _).
  assert (Hd1 : Spec.sized (K + 7) (fst dm)).
  { subst dm. destruct (ftruthy mod0); [destruct (negb _)|]; cbn [fst].
    - replace (K + 7) with (K + 5 + 2) by lia.
      apply fsub_sized; [exact Hd0|exact H1|lia|lia].
    - eapply sized_mono; [|exact Hd0]. lia.
    - eapply sized_mono; [|exact Hd0]. lia. }
  destruct dm as [div1 mod1]. cbn [fst] in Hd1. cbn [bind fst].
  eexists. split; [reflexivity|].
  destruct (ftruthy div1); [|exact I].
  assert (Hfl : Spec.sized (K + 10) (ffloor div1)).
  { replace (K + 10) with (K + 7 + 3) by lia.
    apply ffloor_sized; [exact Hd1|lia|lia]. }
  destruct (fgt _ _).
  - replace (K + 12) with (K + 10 + 2) by lia.
    apply fadd_sized; [exact Hfl| |lia|lia].
    eapply sized_mono; [|exact H1]. lia.
  - eapply sized_mono; [|exact Hfl]. lia.
Qed.

(** [int(x)] returns on such a float. *)
Lemma int_of_float_sized (x : float) (K : Z) :
  Spec.sized K x -> exists z, int_of_float x = Ok z.
Proof.
  destruct x; try contradiction; intros _; cbn [int_of_float]; eauto.
Qed.

(** The digits of the decimal expansion [round] goes through. *)
Lemma round_scaled_bounds (m : positive) (e : Z) (nd : N) :
  0 <= round_scaled m e nd /\
  Zdigits2 (round_scaled m e nd) <=
    Z.max 0 (Zdigits2 (Zpos (m * pow10 nd)) + e) + 1.
Proof.
  unfold round_scaled. cbv zeta.
  set (n := Zpos (m * pow10 nd)).
  assert (Hn : 0 < n) by (subst n; lia).
  pose proof (Zdigits2_nonneg n) as Hdn.
  destruct e as [|p|p].
  - rewrite Z.shiftl_0_r. lia.
  - rewrite Z.shiftl_mul_pow2 by lia.
    assert (0 < 2 ^ Zpos p) by (apply Z.pow_pos_nonneg; lia).
    rewrite Zdigits2_mul_pow2 by lia. split; [nia|lia].
  - assert (Hd : 0 < 2 ^ Zpos p) by (apply Z.pow_pos_nonneg; lia).
    assert (Hq : 0 <= n / 2 ^ Zpos p) by (apply Z.div_pos; lia).
    pose proof (Zdigits2_div_pow2 n (Zpos p) ltac:(lia) ltac:(lia)) as Hdq.
    pose proof (Zdigits2_succ (n / 2 ^ Zpos p) Hq) as Hs.
    change (Z.neg p) with (- Zpos p).
    destruct (2 * (n mod 2 ^ Zpos p) ?= 2 ^ Zpos p);
      [destruct (Z.even _)| |]; split; lia.
Qed.

(** [round(x, nd)] grows a float by the digits of [10^nd] at most. *)
Lemma float_round_sized (x : float) (nd : N) (K : Z) :
  Spec.sized K x -> 0 <= K -> K + Zdigits2 (Zpos (pow10 nd)) + 3 <= 971 ->
  Spec.sized (K + Zdigits2 (Zpos (pow10 nd)) + 3) (float_round x nd).
Proof.
  intros Hx HK0 HK.
  pose proof (Zdigits2_nonneg (Zpos (pow10 nd))) as Hp.
  destruct x as [s|s| |s m e]; try contradiction; [exact I|].
  cbn [float_round].
  pose proof (round_scaled_bounds m e nd) as [H0 Hd].
  destruct (round_scaled m e nd) as [|r|r]; [exact I| |exact I].
  unfold float_of_ratio.
  replace (K + Zdigits2 (Zpos (pow10 nd)) + 3)
    with (K + Zdigits2 (Zpos (pow10 nd)) + 1 + 2) by lia.
  apply fdiv_sized; [|lia|lia|lia].
  cbn [Spec.sized] in *.
  change (Zpos (digits2_pos r)) with (Zdigits2 (Zpos r)).
  change (Zpos (digits2_pos m)) with (Zdigits2 (Zpos m)) in Hx.
  pose proof (Zdigits2_mul (Zpos m) (Zpos (pow10 nd)) ltac:(lia) ltac:(lia))
    as Hm.
  rewrite <- Pos2Z.inj_mul in Hm. lia.
Qed.

Lemma float_round_3_sized (x : float) :
  Spec.sized 946 x -> Spec.sized 959 (float_round x 3).
Proof.
  intros Hx.
  apply (float_round_sized x 3 946 Hx);
    [lia|apply Z.leb_le; vm_compute; reflexivity].
Qed.

End Magnitudes.

(* ===================================================================== *)
(** * Properties of server.py: the helpers *)
(* ===================================================================== *)

Import Server.

Section Temperature.

(** [val == 0.0] holds of the two zeros only. *)
Lemma feq_zero_inv (v : float) :
  feq v pzero = true -> v = pzero \/ v = nzero.
Proof.
  destruct v as [[|]|[|]| |[|] m e]; cbn; intros H;
    auto; discriminate.
Qed.

Lemma parse_temperature_comma (raw : string) :
  contains comma raw = true ->
  parse_temperature raw =
    (l <- traverse float_of_string
            (List.filter nonempty (map strip (split comma raw))) ;;
     Ok (TempList l)).
Proof.
  intros H. unfold parse_temperature. rewrite H.
  now rewrite (traverse_filter_map strip nonempty float_of_string).
Qed.

Lemma parse_temperature_scalar (raw : string) :
  contains comma raw = false ->
  parse_temperature raw =
    (v <- float_of_string raw ;;
     Ok (TempScalar (if feq v pzero then pzero else v))).
Proof.
  intros H. unfold parse_temperature. rewrite H.
  destruct (float_of_string raw) as [v|e]; simpl; [|reflexivity].
  now destruct (feq v pzero).
Qed.

(** C1. [parse_temperature]: with a comma in the input, the result is the
    list of the floats parsed, in order, from the trimmed and non-empty
    pieces between the commas; without one it is a scalar, the parsed float
    (the negative zero, which compares equal to [0.0], comes back as
    [0.0]), and a failed conversion is raised as it is. The input ["0.0"] gives the
    scalar [0.0]. *)
Theorem parse_temperature_spec (raw : string) :
  (if contains comma raw then
     exists pieces : list string,
       raw = join "," pieces /\
       Forall (fun p => contains comma p = false) pieces /\
       parse_temperature raw =
         (l <- traverse float_of_string
                 (List.filter nonempty (map strip pieces)) ;;
          Ok (TempList l))
   else
     match float_of_string raw with
     | Ok v =>
         exists r : float,
           parse_temperature raw = Ok (TempScalar r) /\
           (r = v \/ (v = nzero /\ r = pzero))
     | Raise e => parse_temperature raw = Raise e
     end)
  /\ parse_temperature "0.0" = Ok (TempScalar pzero).
Proof.
  split; [|reflexivity].
  destruct (contains comma raw) eqn:Hc.
  - exists (split comma raw). split; [|split].
    + symmetry. apply join_split.
    + apply split_pieces_free.
    + now apply parse_temperature_comma.
  - rewrite (parse_temperature_scalar raw Hc).
    destruct (float_of_string raw) as [v|e]; simpl; [|reflexivity].
    destruct (feq v pzero) eqn:Hz.
    + exists pzero. split; [reflexivity|].
      destruct (feq_zero_inv v Hz) as [->| ->]; [now left|now right].
    + exists v. split; [reflexivity|]. now left.
Qed.

(** The default ladder of the form field. *)
Example parse_temperature_default :
  parse_temperature "0.0,0.2,0.4,0.6,0.8,1.0" =
    Ok (TempList [ pzero; float_of_decimal false 2 (-1);
                   float_of_decimal false 4 (-1); float_of_decimal false 6 (-1);
                   float_of_decimal false 8 (-1); float_of_Z 1 ]).
Proof. vm_compute. reflexivity. Qed.

(** Empty pieces are dropped, the others trimmed; a lone comma gives the
    empty list. *)
Example parse_temperature_gaps :
  parse_temperature " 0.5 ,, 1 ," =
    Ok (TempList [ float_of_ratio false 1 2; float_of_Z 1 ]) /\
  parse_temperature "," = Ok (TempList []).
Proof. evaluate. Qed.

(** A negative zero is returned as [0.0]; a text that is no number raises. *)
Example parse_temperature_edge :
  parse_temperature "-0.0" = Ok (TempScalar pzero) /\
  parse_temperature "warm" =
    Raise (ValueError "could not convert string to float: 'warm'").
Proof. evaluate. Qed.

End Temperature.

Section Timestamps.

(** The parser of [float()] agrees with the binary64 literal. *)
Lemma float_of_string_3661_234 :
  float_of_string "3661.234" = Ok Sample.seconds_3661_234.
Proof. vm_compute. reflexivity. Qed.

(** [3661.234 % 1] is just below [0.234], so the product with [1000] is
    just below [234]. *)
Lemma millis_of_3661_234 :
  (r <- num_mod (NFloat Sample.seconds_3661_234) (NInt 1) ;;
   num_mul r (NInt 1000)) =
    Ok (NFloat (S754_finite false 8233143068784000 (-45))) /\
  233 * 2 ^ 45 < 8233143068784000 < 234 * 2 ^ 45.
Proof. split; [vm_compute; reflexivity|lia]. Qed.

(** C5, on the code: at [3661.234] the milliseconds are truncated to [233],
    with both separators. *)
Theorem format_timestamp_3661_234 :
  format_timestamp (NFloat Sample.seconds_3661_234) = Ok "01:01:01,233" /\
  format_vtt_timestamp (NFloat Sample.seconds_3661_234) = Ok "01:01:01.233" /\
  (x <- float_of_string "3661.234" ;; format_timestamp (NFloat x)) =
    Ok "01:01:01,233" /\
  (x <- float_of_string "3661.234" ;; format_vtt_timestamp (NFloat x)) =
    Ok "01:01:01.233".
Proof. evaluate. Qed.

(** The input of C5 is the float of 3661234 milliseconds. *)
Lemma seconds_3661_234_millis :
  Sample.seconds_3661_234 = Spec.millis 3661234.
Proof. vm_compute. reflexivity. Qed.

(** What [round(x, 3)] returns is a float of whole milliseconds, or a
    zero, or [x] itself when it is not finite. *)
Lemma float_round_millis (x : float) :
  match x with
  | S754_finite false m e =>
      float_round x 3 = Spec.millis (round_scaled m e 3)
  | _ => True
  end.
Proof.
  destruct x as [s|s| |[|] m e]; try exact I.
  unfold float_round, Spec.millis, float_of_decimal.
  destruct (round_scaled m e 3) as [|r|r]; reflexivity.
Qed.

(** Every timestamp of the first five seconds, millisecond by millisecond,
    is returned and well formed. *)
Lemma format_timestamp_first_seconds (k : Z) :
  0 <= k < 5000 -> Spec.formats_as_clock k = true.
Proof.
  intros Hk.
  assert (Hall : forallb Spec.formats_as_clock (Spec.range 0 5000) = true)
    by (vm_compute; reflexivity).
  rewrite forallb_forall in Hall. apply Hall.
  unfold Spec.range. apply in_map_iff. exists (Z.to_nat k).
  split; [lia|]. apply in_seq. lia.
Qed.

(** The truncation of C5 is no accident of one input: of the thousand
    timestamps of the second that starts at 3661 s, 504 show their
    millisecond and 496 show the millisecond before. *)
Lemma format_timestamp_lost_millis :
  (length (List.filter Spec.keeps_millis (Spec.range 3661000 1000)) = 504)%nat /\
  (length (List.filter Spec.drops_a_milli (Spec.range 3661000 1000)) = 496)%nat /\
  Spec.drops_a_milli 3661234 = true /\
  Spec.drops_a_milli 1001 = true.
Proof. evaluate. Qed.

(** Where the fraction is a binary fraction nothing is lost. *)
Example format_timestamp_3661_5 :
  format_timestamp (NFloat (float_of_ratio false 7323 2)) = Ok "01:01:01,500" /\
  format_vtt_timestamp (NFloat (float_of_ratio false 7323 2)) = Ok "01:01:01.500".
Proof. evaluate. Qed.

(** Whatever [format_timestamp] returns has the SRT layout. *)
Lemma format_timestamp_layout (seconds : num) (t : string) :
  format_timestamp seconds = Ok t -> Spec.srt_timestamp t.
Proof.
  unfold format_timestamp, Spec.srt_timestamp. intros H.
  repeat match type of H with
         | bind ?r _ = Ok _ => destruct r; simpl in H; [|discriminate]
         end.
  inversion H; subst. eauto.
Qed.

(** On an [int] number of seconds [format_timestamp] always returns. *)
Lemma format_timestamp_int (z : Z) :
  format_timestamp (NInt z) =
    Ok (format_0d 2 (z / 3600) +:+ ":" +:+ format_0d 2 (z mod 3600 / 60)
          +:+ ":" +:+ format_0d 2 (z mod 60) +:+ "," +:+ format_0d 3 0).
Proof.
  unfold format_timestamp. simpl. now rewrite Z.mod_1_r.
Qed.

(** [format_timestamp] returns on every float below [2^959] in magnitude:
    none of its conversions to [int] meets an infinity or a NaN. *)
Lemma format_timestamp_returns (x : float) :
  Spec.sized 959 x -> exists t, format_timestamp (NFloat x) = Ok t.
Proof.
  intros Hx. unfold format_timestamp.
  unfold num_floordiv, num_mod, num_mul, arith, to_float.
  cbn [bind num_int].
  assert (E3600 : exists y, float_of_int 3600 = Ok y /\
            Spec.divisor_within 12 y = true) by (eexists; vm_compute; eauto).
  assert (E60 : exists y, float_of_int 60 = Ok y /\
            Spec.divisor_within 6 y = true) by (eexists; vm_compute; eauto).
  assert (E1 : exists y, float_of_int 1 = Ok y /\
            Spec.divisor_within 1 y = true) by (eexists; vm_compute; eauto).
  assert (E1000 : exists y, float_of_int 1000 = Ok y /\
            Spec.divisor_within 10 y = true) by (eexists; vm_compute; eauto).
  destruct E3600 as (y3600 & -> & D3600).
  destruct E60 as (y60 & -> & D60).
  destruct E1 as (y1 & -> & D1).
  destruct E1000 as (y1000 & -> & D1000).
  cbn [bind num_int].
  assert (D3600' : Spec.divisor_within 959 y3600 = true).
  { apply divisor_within_inv in D3600 as (s & m & e & -> & H & _).
    cbn [Spec.divisor_within Zdigits2] in *.
    apply andb_true_intro. split; lia. }
  destruct (float_floordiv_sized x y3600 959 Hx D3600' ltac:(lia))
    as (q1 & -> & Hq1).
  cbn [bind num_int].
  destruct (int_of_float_sized q1 _ Hq1) as (h & ->). cbn [bind].
  destruct (float_mod_sized x y3600 959 12 Hx D3600 ltac:(lia))
    as (r1 & -> & Hr1).
  cbn [bind num_int].
  assert (D60' : Spec.divisor_within 15 y60 = true).
  { apply divisor_within_inv in D60 as (s & m & e & -> & H & _).
    cbn [Spec.divisor_within Zdigits2] in *.
    apply andb_true_intro. split; lia. }
  destruct (float_floordiv_sized r1 y60 15 Hr1 D60' ltac:(lia))
    as (q2 & -> & Hq2).
  cbn [bind num_int].
  destruct (int_of_float_sized q2 _ Hq2) as (mi & ->). cbn [bind].
  destruct (float_mod_sized x y60 959 6 Hx D60 ltac:(lia))
    as (r2 & -> & Hr2).
  cbn [bind num_int].
  destruct (int_of_float_sized r2 _ Hr2) as (sec & ->). cbn [bind].
  destruct (float_mod_sized x y1 959 1 Hx D1 ltac:(lia))
    as (r3 & -> & Hr3).
  cbn [bind num_int].
  pose proof (fmul_sized r3 y1000 4 10 Hr3 (divisor_within_sized _ _ D1000)
                ltac:(lia) ltac:(lia)) as Hp.
  destruct (int_of_float_sized _ _ Hp) as (ms & ->). cbn [bind].
  eauto.
Qed.

(** So does [format_vtt_timestamp], which differs in the last line only. *)
Lemma format_vtt_timestamp_returns (x : float) :
  Spec.sized 959 x -> exists t, format_vtt_timestamp (NFloat x) = Ok t.
Proof.
  intros Hx. destruct (format_timestamp_returns x Hx) as (t & Ht).
  revert Ht. generalize (NFloat x). intros a Ht.
  unfold format_timestamp in Ht. unfold format_vtt_timestamp.
  repeat match type of Ht with
         | bind ?r _ = Ok _ =>
             destruct r; cbn [bind] in Ht |- *; [|discriminate]
         end.
  eauto.
Qed.

(** Every time that is [Spec.bounded] is formatted. *)
Lemma format_timestamp_bounded (a : num) :
  Spec.bounded a -> exists t, format_timestamp a = Ok t.
Proof.
  destruct a as [z|x]; intros H.
  - rewrite format_timestamp_int. eauto.
  - now apply format_timestamp_returns.
Qed.

End Timestamps.

Section Subtitles.

Lemma srt_lines_cons (i : Z) (seg : dict) (rest : list dict) :
  srt_lines i (seg :: rest) =
    (b <- Spec.srt_block i seg ;;
     ls <- srt_lines (i + 1) rest ;;
     Ok (b ++ ls)).
Proof.
  unfold Spec.srt_block. simpl.
  destruct (seg_num "start" seg) as [a|]; simpl; [|reflexivity].
  destruct (format_timestamp a); simpl; [|reflexivity].
  destruct (seg_num "end" seg) as [b|]; simpl; [|reflexivity].
  destruct (format_timestamp b); simpl; [|reflexivity].
  destruct (seg_stripped "text" seg); simpl; [|reflexivity].
  destruct (srt_lines (i + 1) rest); reflexivity.
Qed.

Lemma seg_stripped_ok (k : string) (seg : dict) (txt : string) :
  seg_stripped k seg = Ok txt ->
  exists s, dict_lookup k seg = Some (VStr s) /\ txt = strip s.
Proof.
  unfold seg_stripped, dict_item. intros H.
  destruct (dict_lookup k seg) as [v|]; simpl in H; [|discriminate].
  destruct v; try discriminate. inversion H; subst. eauto.
Qed.

(** A block that is produced is the block the specification describes. *)
Lemma srt_block_ok (i : Z) (seg : dict) (block : list string) :
  Spec.srt_block i seg = Ok block -> Spec.srt_block_of i seg block.
Proof.
  unfold Spec.srt_block, Spec.srt_block_of. intros H.
  destruct (seg_num "start" seg) as [a|] eqn:Ea; simpl in H; [|discriminate].
  destruct (format_timestamp a) as [ta|] eqn:Eta; simpl in H; [|discriminate].
  destruct (seg_num "end" seg) as [b|] eqn:Eb; simpl in H; [|discriminate].
  destruct (format_timestamp b) as [tb|] eqn:Etb; simpl in H; [|discriminate].
  destruct (seg_stripped "text" seg) as [txt|] eqn:Et; simpl in H;
    [|discriminate].
  apply seg_stripped_ok in Et as (s & Hs & ->).
  inversion H; subst.
  exists a, b, s, ta, tb.
  repeat split; eauto using format_timestamp_layout.
Qed.

(** The block of a segment with a start, an end and a text is produced. *)
Lemma srt_block_returns (i : Z) (seg : dict) :
  Spec.renderable seg -> exists block, Spec.srt_block i seg = Ok block.
Proof.
  intros (a & b & s & Ha & Hba & Hb & Hbb & Hs).
  unfold Spec.srt_block. rewrite Ha, Hb. cbn [bind].
  destruct (format_timestamp_bounded a Hba) as (ta & ->).
  destruct (format_timestamp_bounded b Hbb) as (tb & ->).
  unfold seg_stripped, dict_item. rewrite Hs. cbn [bind]. eauto.
Qed.

Lemma srt_lines_returns (segments : list dict) :
  Forall Spec.renderable segments ->
  forall i : Z, exists ls, srt_lines i segments = Ok ls.
Proof.
  induction 1 as [|seg rest Hseg _ IH]; intros i.
  - simpl. eauto.
  - rewrite srt_lines_cons.
    destruct (srt_block_returns i seg Hseg) as (b & ->).
    destruct (IH (i + 1)) as (ls & ->). cbn [bind]. eauto.
Qed.

Lemma srt_lines_blocks (segments : list dict) : forall i : Z,
  match srt_lines i segments with
  | Ok ls =>
      exists blocks : list (list string),
        Forall2 (fun p b => Spec.srt_block_of (fst p) (snd p) b)
          (Spec.enumerate i segments) blocks /\
        ls = concat blocks
  | Raise e =>
      exists (j : Z) (seg : dict),
        In (j, seg) (Spec.enumerate i segments) /\
        Spec.srt_block j seg = Raise e
  end.
Proof.
  induction segments as [|seg rest IH]; intros i.
  - simpl. exists []. split; [constructor|reflexivity].
  - rewrite srt_lines_cons. specialize (IH (i + 1)).
    destruct (Spec.srt_block i seg) as [b|e] eqn:Eb; simpl.
    + destruct (srt_lines (i + 1) rest) as [ls|e]; simpl.
      * destruct IH as (blocks & HF & ->).
        exists (b :: blocks). split; [|reflexivity].
        constructor; [now apply srt_block_ok|exact HF].
      * destruct IH as (j & s & Hin & Hr).
        exists j, s. split; [now right|exact Hr].
    + exists i, seg. split; [now left|exact Eb].
Qed.

(** The layout of the document, whatever the times: when
    [segments_to_srt] returns, the document is the blocks of the segments
    joined by line feeds, one block per segment in order; the block of the
    segment numbered [i] (from 1) is its number, the line of the two
    timestamps that [format_timestamp] returns for its start and end, its
    text trimmed, and an empty line. It raises only what the block of one
    of the segments raises. And it does return when every segment has a
    text and a start and an end that are ints below [10^4300] or floats
    below [2^959] in magnitude. *)
Lemma segments_to_srt_spec (segments : list dict) :
  match segments_to_srt segments with
  | Ok out =>
      exists blocks : list (list string),
        Forall2 (fun p b => Spec.srt_block_of (fst p) (snd p) b)
          (Spec.enumerate 1 segments) blocks /\
        out = join nl (concat blocks)
  | Raise e =>
      exists (i : Z) (seg : dict),
        In (i, seg) (Spec.enumerate 1 segments) /\
        Spec.srt_block i seg = Raise e
  end /\
  (Forall Spec.renderable segments ->
   exists out, segments_to_srt segments = Ok out).
Proof.
  unfold segments_to_srt. split.
  - pose proof (srt_lines_blocks segments 1) as H.
    destruct (srt_lines 1 segments) as [ls|e]; simpl.
    + destruct H as (blocks & HF & ->). now exists blocks.
    + exact H.
  - intros H. destruct (srt_lines_returns segments H 1) as (ls & ->).
    cbn [bind]. eauto.
Qed.

(** The theorem at two segments: they can be rendered, and are. *)
Lemma segments_to_srt_spec_witness :
  Forall Spec.renderable Sample.spoken /\
  exists out, segments_to_srt Sample.spoken = Ok out.
Proof.
  assert (H : Forall Spec.renderable Sample.spoken).
  { constructor; [|constructor; [|constructor]].
    - exists (NFloat pzero), (NFloat (float_of_ratio false 3 2)), " hello ".
      split; [reflexivity|]. split; [exact I|]. split; [reflexivity|].
      split; [|reflexivity]. vm_compute. discriminate.
    - exists (NFloat (float_of_ratio false 3 2)),
             (NFloat (float_of_ratio false 9 4)), " world".
      split; [reflexivity|]. split; [vm_compute; discriminate|].
      split; [reflexivity|]. split; [|reflexivity]. vm_compute. discriminate. }
  split; [exact H|].
  exact (proj2 (segments_to_srt_spec Sample.spoken) H).
Defined.

(** The document is the blocks of the segments, whatever the outcome. *)
Lemma segments_to_srt_document (segments : list dict) :
  segments_to_srt segments =
    (blocks <- traverse (fun p => Spec.srt_block (fst p) (snd p))
                 (Spec.enumerate 1 segments) ;;
     Ok (join nl (concat blocks))).
Proof.
  unfold segments_to_srt.
  assert (H : forall i, srt_lines i segments =
            (blocks <- traverse (fun p => Spec.srt_block (fst p) (snd p))
                         (Spec.enumerate i segments) ;;
             Ok (concat blocks))).
  { induction segments as [|seg rest IH]; intros i; [reflexivity|].
    rewrite srt_lines_cons. simpl.
    destruct (Spec.srt_block i seg); simpl; [|reflexivity].
    rewrite IH.
    now destruct (traverse _ (Spec.enumerate (i + 1) rest)). }
  rewrite H. now destruct (traverse _ (Spec.enumerate 1 segments)).
Qed.

(** Two segments, rendered. *)
Example segments_to_srt_two :
  segments_to_srt Sample.spoken =
    Ok (join nl [ "1"; "00:00:00,000 --> 00:00:01,500"; "hello"; "";
                  "2"; "00:00:01,500 --> 00:00:02,250"; "world"; "" ]).
Proof. vm_compute. reflexivity. Qed.

Lemma digits_exactly_2 (s : string) :
  Spec.digits_exactly 2 s = true ->
  exists a b, s = String a (String b EmptyString) /\
              is_digit a = true /\ is_digit b = true.
Proof.
  destruct s as [|a [|b [|c s]]]; simpl; try discriminate.
  - now destruct (is_digit a).
  - intros H. apply andb_prop in H as [Ha H]. apply andb_prop in H as [Hb _].
    eauto.
  - intros H. apply andb_prop in H as [_ H]. apply andb_prop in H as [_ H].
    discriminate.
Qed.

Lemma digits_exactly_3 (s : string) :
  Spec.digits_exactly 3 s = true ->
  exists a b c, s = String a (String b (String c EmptyString)) /\
                is_digit a = true /\ is_digit b = true /\ is_digit c = true.
Proof.
  destruct s as [|a [|b [|c [|d s]]]]; simpl; try discriminate.
  - now destruct (is_digit a).
  - destruct (is_digit a), (is_digit b); discriminate.
  - intros H. apply andb_prop in H as [Ha H]. apply andb_prop in H as [Hb H].
    apply andb_prop in H as [Hc _]. exists a, b, c. auto.
  - intros H. apply andb_prop in H as [_ H]. apply andb_prop in H as [_ H].
    apply andb_prop in H as [_ H]. discriminate.
Qed.

(** With the fields in range a timestamp is [HH:MM:SS,mmm] to the
    character: two, two, two and three digits around the separators. *)
Lemma clock_of_fields (sep : ascii) (h m s ms : Z) :
  0 <= h < 100 -> 0 <= m < 100 -> 0 <= s < 100 -> 0 <= ms < 1000 ->
  Spec.is_clock sep
    (format_0d 2 h +:+ ":" +:+ format_0d 2 m +:+ ":" +:+ format_0d 2 s
       +:+ String sep EmptyString +:+ format_0d 3 ms) = true.
Proof.
  intros Hh Hm Hs Hms.
  destruct (digits_exactly_2 _ (format_0d_2_digits h Hh))
    as (h1 & h2 & -> & Hh1 & Hh2).
  destruct (digits_exactly_2 _ (format_0d_2_digits m Hm))
    as (m1 & m2 & -> & Hm1 & Hm2).
  destruct (digits_exactly_2 _ (format_0d_2_digits s Hs))
    as (s1 & s2 & -> & Hs1 & Hs2).
  destruct (digits_exactly_3 _ (format_0d_3_digits ms Hms))
    as (f1 & f2 & f3 & -> & Hf1 & Hf2 & Hf3).
  step_append. cbn [Spec.is_clock].
  rewrite Hh1, Hh2, Hm1, Hm2, Hs1, Hs2, Hf1, Hf2, Hf3, !Ascii.eqb_refl.
  reflexivity.
Qed.

(** A whole number of seconds below a hundred hours is formatted as
    [HH:MM:SS,000]. *)
Lemma format_timestamp_int_clock (z : Z) :
  0 <= z < 360000 ->
  exists t, format_timestamp (NInt z) = Ok t /\ Spec.is_clock "," t = true.
Proof.
  intros Hz. rewrite format_timestamp_int. eexists. split; [reflexivity|].
  apply (clock_of_fields "," (z / 3600) (z mod 3600 / 60) (z mod 60) 0).
  - split; [apply Z.div_pos; lia|apply Z.div_lt_upper_bound; lia].
  - pose proof (Z.mod_pos_bound z 3600 ltac:(lia)).
    split; [apply Z.div_pos; lia|apply Z.div_lt_upper_bound; lia].
  - pose proof (Z.mod_pos_bound z 60 ltac:(lia)). lia.
  - lia.
Qed.

(** The dicts the handler builds hold what the renderers look up: the
    block of a segment can only fail in [format_timestamp]. *)
Lemma srt_block_of_seg_dict (i : Z) (want_words : bool) (seg : Segment) :
  Spec.srt_block i (seg_dict want_words seg) =
    (ta <- format_timestamp (NFloat (float_round (seg_start seg) 3)) ;;
     tb <- format_timestamp (NFloat (float_round (seg_end seg) 3)) ;;
     Ok [ str_of_int i; ta +:+ " --> " +:+ tb; strip (seg_text seg); "" ]).
Proof. reflexivity. Qed.

(** The dict of a segment of moderate times can be rendered. *)
Lemma seg_dict_renderable (want_words : bool) (seg : Segment) :
  Spec.sized 946 (seg_start seg) -> Spec.sized 946 (seg_end seg) ->
  Spec.renderable (seg_dict want_words seg).
Proof.
  intros Hs He.
  exists (NFloat (float_round (seg_start seg) 3)),
         (NFloat (float_round (seg_end seg) 3)), (seg_text seg).
  repeat split; try reflexivity; now apply float_round_3_sized.
Qed.

(** So the segments of the engine are always rendered, when their times
    are below [2^946] seconds in magnitude. *)
Lemma segments_to_srt_of_segments (want_words : bool) (segs : list Segment) :
  Forall (fun seg => Spec.sized 946 (seg_start seg) /\
                     Spec.sized 946 (seg_end seg)) segs ->
  exists out, segments_to_srt (map (seg_dict want_words) segs) = Ok out.
Proof.
  intros H. unfold segments_to_srt.
  assert (Hr : Forall Spec.renderable (map (seg_dict want_words) segs)).
  { induction H as [|seg rest [Hs He] _ IH]; constructor;
      [now apply seg_dict_renderable|exact IH]. }
  destruct (srt_lines_returns _ Hr 1) as (ls & ->). cbn [bind]. eauto.
Qed.

End Subtitles.

(* ===================================================================== *)
(** * Properties of server.py: the handler *)
(* ===================================================================== *)

Section HandlerFacts.

Variable whisper_model :
  EngineCall -> gmap string string -> EngineOutcome * gmap string string.
Variable splitext : string -> string * string.
Variable temp_name : string -> gmap string string -> string.
Variables t0 t1 : float.

Abbreviation transcribe :=
  (transcribe whisper_model splitext temp_name t0 t1).
Abbreviation consume := (consume t0 t1).
Abbreviation tmp_path_of := (tmp_path_of splitext temp_name).
Abbreviation call_of := (call_of splitext temp_name).
Abbreviation disk_at_call := (disk_at_call splitext temp_name).
Abbreviation calls_made :=
  (calls_made whisper_model splitext temp_name t0 t1).
Abbreviation transcription_of :=
  (transcription_of whisper_model splitext temp_name t0 t1).

Lemma transcribe_bad_temperature (req : Request) (st : State) (e : exn) :
  parse_temperature (temperature req) = Raise e ->
  transcribe req st = (Raise e, st).
Proof.
  intros H. unfold Server.transcribe, bindM, lift. now rewrite H.
Qed.

Lemma transcribe_bad_tokens (req : Request) (st : State)
    (temp : temperature_value) (e : exn) :
  parse_temperature (temperature req) = Ok temp ->
  parse_suppress_tokens (suppress_tokens req) = Raise e ->
  transcribe req st = (Raise e, st).
Proof.
  intros H1 H2. unfold Server.transcribe, bindM, lift. now rewrite H1, H2.
Qed.

(** The handler, step by step, once the two fields have parsed. *)
Lemma transcribe_run (req : Request) (st : State)
    (temp : temperature_value) (toks : list Z) :
  parse_temperature (temperature req) = Ok temp ->
  parse_suppress_tokens (suppress_tokens req) = Ok toks ->
  transcribe req st =
    let path := tmp_path_of req st in
    let c := call_of req st temp toks in
    let '(out, disk) := whisper_model c (disk_at_call req st) in
    match disk !! path with
    | None =>
        (Raise (FileNotFoundError path),
         {| fs := disk; calls := calls st ++ [c] |})
    | Some _ =>
        let st' := {| fs := delete path disk; calls := calls st ++ [c] |} in
        match out with
        | CallRaises e => (Raise e, st')
        | Generates segs (Some e) info => (Raise e, st')
        | Generates segs None info =>
            (render (response_format req) (resolve_want_words req)
               (consume (resolve_want_words req) segs info), st')
        end
    end.
Proof.
  intros H1 H2.
  unfold Server.transcribe, bindM, lift. rewrite H1, H2.
  unfold named_temporary_file, write_file, try_finally, call_engine, bindM,
    unlink, raise, ret. cbn [fs calls].
  fold (tmp_path_of req st). fold (call_of req st temp toks).
  fold (disk_at_call req st).
  destruct (whisper_model (call_of req st temp toks) (disk_at_call req st))
    as [out disk]. cbn zeta.
  destruct out as [e|segs [e|] info]; cbn [fs calls];
    destruct (disk !! tmp_path_of req st); reflexivity.
Qed.

(** The calls a request makes: one once the two fields have parsed, none
    otherwise. *)
Lemma calls_made_spec (req : Request) (st : State) :
  calls (snd (transcribe req st)) = calls st ++ calls_made req st /\
  calls_made req st =
    match parse_temperature (temperature req),
          parse_suppress_tokens (suppress_tokens req) with
    | Ok temp, Ok toks => [call_of req st temp toks]
    | _, _ => []
    end.
Proof.
  assert (Hnone : forall e, transcribe req st = (Raise e, st) ->
            calls (snd (transcribe req st)) = calls st ++ calls_made req st /\
            calls_made req st = []).
  { intros e He. unfold Server.calls_made. rewrite He. cbn [snd].
    rewrite drop_all. now rewrite app_nil_r. }
  destruct (parse_temperature (temperature req)) as [temp|e] eqn:E1.
  - destruct (parse_suppress_tokens (suppress_tokens req)) as [toks|e] eqn:E2.
    + unfold Server.calls_made. rewrite (transcribe_run req st temp toks E1 E2).
      cbn zeta.
      destruct (whisper_model _ _) as [out disk].
      assert (Hd : drop (length (calls st))
                     (calls st ++ [call_of req st temp toks]) =
                   [call_of req st temp toks])
        by now rewrite drop_app_length.
      destruct (disk !! tmp_path_of req st);
        [destruct out as [e|segs [e|] info]|]; cbn [snd calls];
        now rewrite Hd.
    + exact (Hnone e (transcribe_bad_tokens req st temp e E1 E2)).
  - exact (Hnone e (transcribe_bad_temperature req st e E1)).
Qed.

(** C2. Word timestamps are wanted exactly when the explicit flag is true,
    or is absent while [timestamp_granularities[]] holds ["word"]; an
    explicit [False] wins over the granularities; and the call the handler
    makes passes this value as [word_timestamps]. *)
Theorem want_words_resolution (req : Request) (st : State) :
  (resolve_want_words req = true <->
     word_timestamps req = Some true \/
     (word_timestamps req = None /\
      exists l, timestamp_granularities req = Some l /\ In "word" l)) /\
  (word_timestamps req = Some false -> resolve_want_words req = false) /\
  Forall (fun c => kw_word_timestamps c = resolve_want_words req)
    (calls_made req st).
Proof.
  split; [|split].
  - unfold resolve_want_words.
    destruct (word_timestamps req) as [[|]|].
    + split; [intros _; now left|reflexivity].
    + split; [discriminate|].
      intros [H|[H _]]; discriminate.
    + destruct (timestamp_granularities req) as [[|g l]|].
      * split; [discriminate|].
        intros [H|(_ & l & Hl & Hin)]; [discriminate|].
        inversion Hl; subst. destruct Hin.
      * rewrite existsb_exists. split.
        -- intros (x & Hin & Hx). right. split; [reflexivity|].
           apply String.eqb_eq in Hx. subst x.
           exists (g :: l). now split.
        -- intros [H|(_ & l' & Hl & Hin)]; [discriminate|].
           inversion Hl; subst. exists "word". split; [exact Hin|].
           apply String.eqb_refl.
      * split; [discriminate|].
        intros [H|(_ & l & Hl & _)]; discriminate.
  - unfold resolve_want_words. now intros ->.
  - destruct (calls_made_spec req st) as [_ ->].
    destruct (parse_temperature (temperature req));
      [destruct (parse_suppress_tokens (suppress_tokens req))|];
      repeat constructor.
Qed.

(** C3. Once the two text fields have parsed the engine is called once,
    with [vad_filter] as given and with [vad_parameters] absent when
    [vad_filter] is false, the five VAD fields of the form when it is
    true; a request whose fields do not parse calls no engine. *)
Theorem vad_parameters_to_engine (req : Request) (st : State) :
  match parse_temperature (temperature req),
        parse_suppress_tokens (suppress_tokens req) with
  | Ok _, Ok _ =>
      exists c : EngineCall,
        calls_made req st = [c] /\
        kw_vad_filter c = vad_filter req /\
        kw_vad_parameters c =
          if vad_filter req then
            Some {| threshold := vad_threshold req;
                    min_speech_duration_ms := vad_min_speech_duration_ms req;
                    min_silence_duration_ms := vad_min_silence_duration_ms req;
                    max_speech_duration_s := vad_max_speech_duration_s req;
                    speech_pad_ms := vad_speech_pad_ms req |}
          else None
  | _, _ => calls_made req st = []
  end.
Proof.
  destruct (calls_made_spec req st) as [_ ->].
  destruct (parse_temperature (temperature req)) as [temp|];
    [destruct (parse_suppress_tokens (suppress_tokens req)) as [toks|]|];
    try reflexivity.
  exists (call_of req st temp toks). repeat split.
Qed.

Lemma render_fallback (rf : string) (want_words : bool) (t : Transcription) :
  ~ In rf ["text"; "srt"; "vtt"; "verbose_json"] ->
  render rf want_words t =
    Ok (JSONResponse (VDict [ ("text", VStr (full_text t)) ])).
Proof.
  intros Hnot. unfold render.
  assert (Hne : forall k, In k ["text"; "srt"; "vtt"; "verbose_json"] ->
                          String.eqb rf k = false).
  { intros k Hk. apply String.eqb_neq. intros ->. now apply Hnot. }
  rewrite !Hne by (simpl; tauto). reflexivity.
Qed.

(** The handler is [transcription_of] followed by the rendering. *)
Lemma transcribe_renders (req : Request) (st : State) :
  transcribe req st =
    match transcription_of req st with
    | (Ok t, st') =>
        (render (response_format req) (resolve_want_words req) t, st')
    | (Raise e, st') => (Raise e, st')
    end.
Proof.
  unfold Server.transcribe, Server.transcription_of, bindM, lift.
  destruct (parse_temperature (temperature req)); [|reflexivity].
  destruct (parse_suppress_tokens (suppress_tokens req)); [|reflexivity].
  destruct (named_temporary_file _ _ _ st) as [[path|e] st1];
    [|reflexivity].
  destruct (try_finally _ _ st1) as [[t|e] st2]; reflexivity.
Qed.

(** Nothing before the rendering looks at [response_format]. *)
Lemma transcription_of_with_format (rf : string) (req : Request) :
  transcription_of (with_response_format rf req) = transcription_of req.
Proof. reflexivity. Qed.

(** C4. A [response_format] that is none of ["text"], ["srt"], ["vtt"],
    ["verbose_json"] is rendered as the object holding the full text only,
    and the rendering raises nothing; the handler then does, and answers,
    exactly what it does for ["json"]: the object with the text alone, or
    an exception raised before any rendering. *)
Theorem unrecognized_format_is_json (rf : string) (req : Request)
    (st : State) :
  ~ In rf ["text"; "srt"; "vtt"; "verbose_json"] ->
  (forall want_words t,
     render rf want_words t =
       Ok (JSONResponse (VDict [ ("text", VStr (full_text t)) ]))) /\
  transcribe (with_response_format rf req) st =
    transcribe (with_response_format "json" req) st /\
  match fst (transcribe (with_response_format rf req) st) with
  | Ok resp => exists txt, resp = JSONResponse (VDict [ ("text", VStr txt) ])
  | Raise e => fst (transcription_of req st) = Raise e
  end.
Proof.
  intros Hnot.
  assert (Hjson : ~ In "json" ["text"; "srt"; "vtt"; "verbose_json"]).
  { simpl. intros [H|[H|[H|[H|[]]]]]; discriminate. }
  split; [|split].
  - intros ww t. now apply render_fallback.
  - rewrite !transcribe_renders, !transcription_of_with_format.
    destruct (transcription_of req st) as [[t|e] st']; [|reflexivity].
    change (response_format (with_response_format rf req)) with rf.
    change (response_format (with_response_format "json" req)) with "json".
    now rewrite !render_fallback.
  - rewrite transcribe_renders, transcription_of_with_format.
    destruct (transcription_of req st) as [[t|e] st']; [|reflexivity].
    change (response_format (with_response_format rf req)) with rf.
    rewrite render_fallback by assumption. cbn [fst]. eauto.
Qed.

(** C8. For a request that reaches the engine call (its two text fields
    parse), the upload is on disk when the engine is called and the
    transient file is gone when the handler is done, whether the call or
    the generator raised or not. The removal is not guarded: when the
    engine has left no file at that path the handler raises
    [FileNotFoundError]; otherwise it removes the file and passes on what
    the engine raised, or renders. *)
Theorem transient_file_removed (req : Request) (st : State)
    (temp : temperature_value) (toks : list Z) :
  parse_temperature (temperature req) = Ok temp ->
  parse_suppress_tokens (suppress_tokens req) = Ok toks ->
  let path := tmp_path_of req st in
  let outcome :=
    whisper_model (call_of req st temp toks) (disk_at_call req st) in
  let final := transcribe req st in
  disk_at_call req st !! path = Some (file_data req) /\
  calls_made req st = [call_of req st temp toks] /\
  fs (snd final) !! path = None /\
  (snd outcome !! path = None ->
   fst final = Raise (FileNotFoundError path)) /\
  (is_Some (snd outcome !! path) ->
   fs (snd final) = delete path (snd outcome) /\
   fst final =
     match fst outcome with
     | CallRaises e => Raise e
     | Generates segs (Some e) info => Raise e
     | Generates segs None info =>
         render (response_format req) (resolve_want_words req)
           (consume (resolve_want_words req) segs info)
     end).
Proof.
  intros H1 H2 path outcome final.
  split; [apply lookup_insert_eq|].
  split.
  { destruct (calls_made_spec req st) as [_ ->]. now rewrite H1, H2. }
  subst final. rewrite (transcribe_run req st temp toks H1 H2). cbn zeta.
  fold path. fold outcome. destruct outcome as [out disk]. cbn [fst snd].
  destruct (disk !! path) as [data|] eqn:Ed.
  - assert (Hgone : delete path disk !! path = None)
      by apply lookup_delete_eq.
    split; [|split].
    + destruct out as [e|segs [e|] info]; exact Hgone.
    + discriminate.
    + intros _. destruct out as [e|segs [e|] info]; now split.
  - split; [exact Ed|]. split; [reflexivity|].
    intros [x Hx]. discriminate.
Qed.

(** ** The floats of a response *)

Lemma sized_finite (K : Z) (x : float) : Spec.sized K x -> is_finite x = true.
Proof. destruct x; try contradiction; reflexivity. Qed.

Lemma float_round_modest (x : float) (nd : N) :
  (nd = 3%N \/ nd = 4%N) ->
  Payload.modest x -> is_finite (float_round x nd) = true.
Proof.
  intros Hnd Hx.
  apply (sized_finite (946 + Zdigits2 (Zpos (pow10 nd)) + 3)).
  apply float_round_sized; [exact Hx|lia|].
  destruct Hnd as [->| ->]; apply Z.leb_le; vm_compute; reflexivity.
Qed.

Lemma float_round_not_finite (x : float) (nd : N) :
  is_finite x = false -> is_finite (float_round x nd) = false.
Proof. destruct x; try discriminate; reflexivity. Qed.

Lemma forallb_map {A B} (f : B -> bool) (g : A -> B) (l : list A) :
  forallb f (map g l) = forallb (fun a => f (g a)) l.
Proof. induction l as [|a l IH]; [reflexivity|]. cbn. now rewrite IH. Qed.

Lemma forallb_Forall {A} (f : A -> bool) (P : A -> Prop) (l : list A) :
  (forall a, P a -> f a = true) -> Forall P l -> forallb f l = true.
Proof.
  intros H. induction 1 as [|a l Ha _ IH]; [reflexivity|].
  cbn. now rewrite (H a Ha), IH.
Qed.

Lemma forallb_Exists {A} (f : A -> bool) (P : A -> Prop) (l : list A) :
  (forall a, P a -> f a = false) -> Exists P l -> forallb f l = false.
Proof.
  intros H. induction 1 as [a l Ha|a l _ IH]; cbn.
  - now rewrite (H a Ha).
  - rewrite IH. apply andb_false_r.
Qed.

Lemma word_dict_compliant (w : Word) :
  Payload.plain_word w -> json_compliant (VDict (word_dict w)) = true.
Proof.
  intros (Hs & He & Hp). cbn.
  rewrite !float_round_modest by (assumption || auto). reflexivity.
Qed.

Lemma seg_dict_compliant (want_words : bool) (seg : Segment) :
  Payload.plain_segment seg ->
  json_compliant (VDict (seg_dict want_words seg)) = true.
Proof.
  intros (_ & Hs & He & Ha & Hc & Hn & Ht & Hw). unfold seg_dict.
  cbn [json_compliant]. rewrite forallb_app. cbn [forallb snd json_compliant].
  rewrite !float_round_modest by (assumption || auto). rewrite Ht.
  cbn [andb].
  destruct (seg_words seg) as [[|w ws]|]; [reflexivity| |reflexivity].
  destruct want_words; [|reflexivity].
  cbn [forallb snd json_compliant]. rewrite andb_true_r.
  rewrite !forallb_map.
  apply (forallb_Forall _ Payload.plain_word); [|assumption].
  intros w'. apply word_dict_compliant.
Qed.

Lemma seg_word_dicts_compliant (want_words : bool) (segs : list Segment) :
  Forall Payload.plain_segment segs ->
  forallb json_compliant
    (map VDict (flat_map (seg_word_dicts want_words) segs)) = true.
Proof.
  induction 1 as [|seg rest Hseg _ IH]; [reflexivity|].
  cbn [flat_map]. rewrite map_app, forallb_app, IH, andb_true_r.
  destruct Hseg as (_ & _ & _ & _ & _ & _ & _ & Hw). unfold seg_word_dicts.
  destruct (seg_words seg) as [[|w ws]|]; [reflexivity| |reflexivity].
  destruct want_words; [|reflexivity].
  rewrite !forallb_map.
  apply (forallb_Forall _ Payload.plain_word); [|assumption].
  intros w'. apply word_dict_compliant.
Qed.

Lemma seg_dict_unfit (want_words : bool) (seg : Segment) :
  Payload.unfit seg ->
  json_compliant (VDict (seg_dict want_words seg)) = false.
Proof.
  intros H. unfold seg_dict. cbn [json_compliant]. rewrite forallb_app.
  cbn [forallb snd json_compliant].
  destruct H as [H|[H|[H|[H|[H|H]]]]];
    rewrite ?(float_round_not_finite _ _ H), ?H, ?andb_false_r;
    reflexivity.
Qed.

(** The rendering of [verbose_json]: the payload, through the encoder. *)
Lemma render_verbose_json (want_words : bool) (segs : list Segment)
    (info : Info) :
  render "verbose_json" want_words (consume want_words segs info) =
    json_response
      (VDict
         [ ("task", VStr "transcribe");
           ("language", VStr (info_language info));
           ("duration", VFloat (float_round (info_duration info) 3));
           ("text", VStr (strip (String.concat "" (map seg_text segs))));
           ("segments", VList (map VDict (map (seg_dict want_words) segs)));
           ("words",
            VList (map VDict
                     (if want_words
                      then flat_map (seg_word_dicts want_words) segs
                      else [])));
           ("processing_time", VFloat (float_round (fsub t1 t0) 3)) ]).
Proof. reflexivity. Qed.

Lemma verbose_json_compliant (want_words : bool) (segs : list Segment)
    (info : Info) :
  Forall Payload.plain_segment segs ->
  Payload.modest (info_duration info) -> Payload.modest (fsub t1 t0) ->
  json_compliant
    (VDict
       [ ("task", VStr "transcribe");
         ("language", VStr (info_language info));
         ("duration", VFloat (float_round (info_duration info) 3));
         ("text", VStr (strip (String.concat "" (map seg_text segs))));
         ("segments", VList (map VDict (map (seg_dict want_words) segs)));
         ("words",
          VList (map VDict
                   (if want_words
                    then flat_map (seg_word_dicts want_words) segs
                    else [])));
         ("processing_time", VFloat (float_round (fsub t1 t0) 3)) ]) = true.
Proof.
  intros Hsegs Hdur Hproc. cbn [json_compliant forallb snd].
  rewrite !float_round_modest by (assumption || auto).
  rewrite !forallb_map.
  rewrite (forallb_Forall _ Payload.plain_segment
             segs (seg_dict_compliant want_words) Hsegs).
  cbn [andb]. rewrite andb_true_r.
  destruct want_words; [|reflexivity].
  rewrite <- forallb_map. now apply seg_word_dicts_compliant.
Qed.

(** C6, as the code has it. A [verbose_json] response, when there is one,
    holds one object per segment the engine yielded, in order, under the
    keys [id], [start], [end], [text], [avg_logprob], [compression_ratio],
    [no_speech_prob] and [temperature], followed by [words] exactly when
    words are wanted and the segment has some: [start] and [end] rounded
    to 3 decimals, [avg_logprob], [compression_ratio] and
    [no_speech_prob] to 4, [temperature] as the engine gave it; a word's
    [start] and [end] are rounded to 3 decimals and its [probability] to
    4. There is a response when every number the engine gave is finite
    (below [2^946] in magnitude where it is rounded, an [id] below
    [10^4300]), the duration and the processing time as well; a number of
    a segment, or a duration, that is NaN or an infinity makes the handler
    raise [ValueError] instead. *)
Theorem verbose_json_segments (req : Request) (st : State)
    (temp : temperature_value) (toks : list Z) (segs : list Segment)
    (info : Info) (disk : gmap string string) :
  response_format req = "verbose_json" ->
  parse_temperature (temperature req) = Ok temp ->
  parse_suppress_tokens (suppress_tokens req) = Ok toks ->
  whisper_model (call_of req st temp toks) (disk_at_call req st) =
    (Generates segs None info, disk) ->
  is_Some (disk !! tmp_path_of req st) ->
  let want_words := resolve_want_words req in
  let payload :=
    VDict
      [ ("task", VStr "transcribe");
        ("language", VStr (info_language info));
        ("duration", VFloat (float_round (info_duration info) 3));
        ("text", VStr (strip (String.concat "" (map seg_text segs))));
        ("segments", VList (map VDict (map (seg_dict want_words) segs)));
        ("words",
         VList (map VDict
                  (if want_words
                   then flat_map (seg_word_dicts want_words) segs
                   else [])));
        ("processing_time", VFloat (float_round (fsub t1 t0) 3)) ] in
  (forall resp : Response,
     fst (transcribe req st) = Ok resp -> resp = JSONResponse payload) /\
  (Forall Payload.plain_segment segs ->
   Payload.modest (info_duration info) -> Payload.modest (fsub t1 t0) ->
   fst (transcribe req st) = Ok (JSONResponse payload)) /\
  (Exists Payload.unfit segs \/ is_finite (info_duration info) = false ->
   exists e : exn,
     fst (transcribe req st) = Raise e /\ exn_class e = "ValueError") /\
  Forall
    (fun seg =>
       exists extra : dict,
         seg_dict want_words seg =
           [ ("id", VInt (seg_id seg));
             ("start", VFloat (float_round (seg_start seg) 3));
             ("end", VFloat (float_round (seg_end seg) 3));
             ("text", VStr (seg_text seg));
             ("avg_logprob", VFloat (float_round (seg_avg_logprob seg) 4));
             ("compression_ratio",
              VFloat (float_round (seg_compression_ratio seg) 4));
             ("no_speech_prob",
              VFloat (float_round (seg_no_speech_prob seg) 4));
             ("temperature", VFloat (seg_temperature seg)) ] ++ extra /\
         (forall ws : list Word,
            want_words = true -> seg_words seg = Some ws -> ws <> [] ->
            extra = [ ("words", VList (map Payload.word_object ws)) ]) /\
         (want_words = false \/ seg_words seg = None \/
          seg_words seg = Some [] ->
          extra = []))
    segs.
Proof.
  intros Hrf H1 H2 Hrun [data Hdata] ww payload.
  assert (Hrender : fst (transcribe req st) = json_response payload).
  { rewrite (transcribe_run req st temp toks H1 H2). cbn zeta.
    rewrite Hrun, Hdata. cbn [fst]. rewrite Hrf.
    apply render_verbose_json. }
  rewrite Hrender. unfold json_response.
  split; [|split; [|split]].
  - intros resp. destruct (json_compliant payload); [|discriminate].
    intros H. now inversion H.
  - intros Hsegs Hdur Hproc. subst payload.
    now rewrite (verbose_json_compliant ww segs info Hsegs Hdur Hproc).
  - intros Hbad.
    assert (Hc : json_compliant payload = false).
    { subst payload. cbn [json_compliant forallb snd].
      destruct Hbad as [Hbad|Hbad].
      - rewrite !forallb_map.
        rewrite (forallb_Exists _ Payload.unfit segs
                   (seg_dict_unfit ww) Hbad).
        cbn [andb]. now rewrite !andb_false_r.
      - now rewrite (float_round_not_finite _ 3 Hbad). }
    rewrite Hc. eexists. split; reflexivity.
  - apply Forall_forall. intros seg _. unfold seg_dict.
    destruct (seg_words seg) as [[|w ws]|] eqn:Ew.
    + exists []. split; [reflexivity|]. split; [|reflexivity].
      intros ws' _ Hws Hne. inversion Hws; subst. contradiction.
    + destruct ww eqn:Eww.
      * eexists. split; [reflexivity|]. split.
        -- intros ws' _ Hws _. inversion Hws; subst.
           now rewrite map_map.
        -- intros [H|[H|H]]; discriminate.
      * exists []. split; [reflexivity|]. split; [|reflexivity].
        intros ws' H. discriminate.
    + exists []. split; [reflexivity|]. split; [|reflexivity].
      intros ws' _ H. discriminate.
Qed.

End HandlerFacts.

Section HandlerRuns.

Lemma upload_parses (rf : string) :
  parse_temperature (temperature (with_response_format rf Sample.upload)) =
    Ok Sample.ladder /\
  parse_suppress_tokens
    (suppress_tokens (with_response_format rf Sample.upload)) =
    Ok Sample.no_tokens.
Proof. evaluate. Qed.

Lemma unrecognized_format_is_json_witness :
  Sample.run Sample.steady (with_response_format "yaml" Sample.upload) =
    Sample.run Sample.steady (with_response_format "json" Sample.upload) /\
  ~ In "yaml" ["text"; "srt"; "vtt"; "verbose_json"].
Proof.
  assert (H : ~ In "yaml" ["text"; "srt"; "vtt"; "verbose_json"]).
  { simpl. intros [H|[H|[H|[H|[]]]]]; discriminate. }
  split; [|exact H].
  exact (proj1 (proj2 (unrecognized_format_is_json Sample.steady
           Sample.any_splitext Sample.any_temp_name Sample.clock0
           Sample.clock1 "yaml" Sample.upload Sample.idle H))).
Defined.

(** The answer to the unrecognized format, computed. *)
Example unrecognized_format_answer :
  fst (Sample.run Sample.steady (with_response_format "yaml" Sample.upload)) =
    Ok (JSONResponse (VDict [ ("text", VStr "hello world") ])).
Proof. vm_compute. reflexivity. Qed.

Lemma transient_file_removed_witness :
  fs (snd (Sample.run Sample.breaking Sample.upload)) !! Sample.tmp_path
    = None /\
  fst (Sample.run Sample.breaking Sample.upload) =
    Raise (Exn "RuntimeError" "out of memory") /\
  fst (Sample.run Sample.tidy Sample.upload) =
    Raise (FileNotFoundError Sample.tmp_path).
Proof.
  pose proof (proj1 (upload_parses "json")) as H1.
  pose proof (proj2 (upload_parses "json")) as H2.
  pose proof (transient_file_removed Sample.breaking Sample.any_splitext
                Sample.any_temp_name Sample.clock0 Sample.clock1
                Sample.upload Sample.idle Sample.ladder Sample.no_tokens
                H1 H2) as Hb.
  pose proof (transient_file_removed Sample.tidy Sample.any_splitext
                Sample.any_temp_name Sample.clock0 Sample.clock1
                Sample.upload Sample.idle Sample.ladder Sample.no_tokens
                H1 H2) as Ht.
  cbn zeta in Hb, Ht.
  destruct Hb as (Hb0 & _ & Hb1 & _ & Hb2).
  destruct Ht as (_ & _ & _ & Ht1 & _).
  split; [exact Hb1|]. split.
  - apply Hb2. exists "RIFF". exact Hb0.
  - apply Ht1. apply lookup_delete_eq.
Defined.

Lemma modest_by_size (x : float) :
  match x with
  | S754_zero _ => true
  | S754_finite _ m e => Zpos (digits2_pos m) + e <=? 946
  | _ => false
  end = true ->
  Payload.modest x.
Proof.
  destruct x; try discriminate; [exact (fun _ => I)|]. apply Z.leb_le.
Qed.

Lemma sample_segments_plain :
  Forall Payload.plain_segment [Sample.hello; Sample.world].
Proof.
  constructor; [|constructor; [|constructor]].
  - split; [apply Z.ltb_lt; vm_compute; reflexivity|].
    split; [apply modest_by_size; vm_compute; reflexivity|].
    split; [apply modest_by_size; vm_compute; reflexivity|].
    split; [apply modest_by_size; vm_compute; reflexivity|].
    split; [apply modest_by_size; vm_compute; reflexivity|].
    split; [apply modest_by_size; vm_compute; reflexivity|].
    split; [vm_compute; reflexivity|].
    constructor; [|constructor].
    split; [apply modest_by_size; vm_compute; reflexivity|].
    split; apply modest_by_size; vm_compute; reflexivity.
  - split; [apply Z.ltb_lt; vm_compute; reflexivity|].
    split; [apply modest_by_size; vm_compute; reflexivity|].
    split; [apply modest_by_size; vm_compute; reflexivity|].
    split; [apply modest_by_size; vm_compute; reflexivity|].
    split; [apply modest_by_size; vm_compute; reflexivity|].
    split; [apply modest_by_size; vm_compute; reflexivity|].
    split; [vm_compute; reflexivity|exact I].
Qed.

Lemma verbose_json_segments_witness :
  fst (Sample.run Sample.steady
         (with_response_format "verbose_json" Sample.upload)) =
    Ok (JSONResponse (VDict
      [ ("task", VStr "transcribe");
        ("language", VStr "en");
        ("duration", VFloat (float_round (float_of_ratio false 9 4) 3));
        ("text", VStr "hello world");
        ("segments",
         VList (map VDict (map (seg_dict false) [Sample.hello; Sample.world])));
        ("words", VList []);
        ("processing_time",
         VFloat (float_round (fsub Sample.clock1 Sample.clock0) 3)) ])).
Proof.
  refine (proj1 (proj2 (verbose_json_segments Sample.steady
            Sample.any_splitext Sample.any_temp_name Sample.clock0
            Sample.clock1
            (with_response_format "verbose_json" Sample.upload) Sample.idle
            Sample.ladder Sample.no_tokens [Sample.hello; Sample.world]
            Sample.english _ eq_refl
            (proj1 (upload_parses "verbose_json"))
            (proj2 (upload_parses "verbose_json")) eq_refl _)) _ _ _).
  - exists "RIFF". apply lookup_insert_eq.
  - exact sample_segments_plain.
  - apply modest_by_size. vm_compute. reflexivity.
  - apply modest_by_size. vm_compute. reflexivity.
Defined.

(** An engine that reports NaN as the average log-probability of its
    segment: no response, the handler raises. *)
Example verbose_json_of_nan :
  fst (Sample.run Sample.murmuring
         (with_response_format "verbose_json" Sample.upload)) =
    Raise (ValueError "Out of range float values are not JSON compliant") /\
  fst (Sample.run Sample.murmuring
         (with_response_format "json" Sample.upload)) =
    Ok (JSONResponse (VDict [ ("text", VStr "hello") ])).
Proof. evaluate. Qed.

(** C6, against the claim: a segment sampled at the temperature [0.12345]
    is reported with [0.12345], which is neither that number rounded to 3
    decimals ([0.123]) nor to 4 ([0.1235]), while its [avg_logprob] of
    [-0.123456] is reported as [-0.1235]. *)
Lemma temperature_is_not_rounded :
  float_of_string "0.12345" = Ok Sample.temperature_0_12345 /\
  Spec.segment_field
    (fst (Sample.run Sample.steady
            (with_response_format "verbose_json" Sample.upload)))
    0 "temperature" = Some (VFloat Sample.temperature_0_12345) /\
  float_round Sample.temperature_0_12345 3 = float_of_decimal false 123 (-3) /\
  float_round Sample.temperature_0_12345 4 = float_of_decimal false 1235 (-4) /\
  feq Sample.temperature_0_12345 (float_of_decimal false 123 (-3)) = false /\
  feq Sample.temperature_0_12345 (float_of_decimal false 1235 (-4)) = false /\
  Spec.segment_field
    (fst (Sample.run Sample.steady
            (with_response_format "verbose_json" Sample.upload)))
    0 "avg_logprob" = Some (VFloat (float_of_decimal true 1235 (-4))).
Proof. evaluate. Qed.

(** Word timestamps: with no flag and ["word"] among the granularities the
    words are wanted and reported; with the flag at [False] they are not. *)
Example want_words_from_granularities :
  let req := with_word_options None (Some ["segment"; "word"])
               (with_response_format "verbose_json" Sample.upload) in
  resolve_want_words req = true /\
  map kw_word_timestamps (calls (snd (Sample.run Sample.steady req))) = [true] /\
  Spec.response_words (fst (Sample.run Sample.steady req)) =
    Some (VList [ VDict (word_dict
                           {| w_word := " hello";
                              w_start := pzero;
                              w_end := float_of_decimal false 15004 (-4);
                              w_probability :=
                                float_of_decimal false 98765 (-5) |}) ]).
Proof. evaluate. Qed.

Example want_words_flag_wins :
  let req := with_word_options (Some false) (Some ["word"])
               (with_response_format "verbose_json" Sample.upload) in
  resolve_want_words req = false /\
  map kw_word_timestamps (calls (snd (Sample.run Sample.steady req)))
    = [false] /\
  Spec.response_words (fst (Sample.run Sample.steady req)) = Some (VList []).
Proof. evaluate. Qed.

(** VAD options: absent with [vad_filter] off, the five fields with it on. *)
Example vad_off_passes_none :
  map kw_vad_parameters
    (calls (snd (Sample.run Sample.steady (with_vad_filter false Sample.upload))))
    = [None].
Proof. vm_compute. reflexivity. Qed.

Example vad_on_passes_fields :
  map kw_vad_parameters
    (calls (snd (Sample.run Sample.steady (with_vad_filter true Sample.upload))))
    = [ Some {| threshold := float_of_ratio false 1 2;
                min_speech_duration_ms := 250;
                min_silence_duration_ms := 2000;
                max_speech_duration_s := S754_infinity false;
                speech_pad_ms := 400 |} ].
Proof. vm_compute. reflexivity. Qed.

End HandlerRuns.

(* ===================================================================== *)
(** * Properties of sweep.py *)
(* ===================================================================== *)

Import Sweep.

Section SweepFacts.

Variable path_exists : string -> bool.
Variable basename : string -> string.
Variable subprocess_run : list string -> result string.
Variable json_loads : string -> result value.

Abbreviation fetch := (fetch subprocess_run json_loads).
Abbreviation error_record := (error_record basename).
Abbreviation file_record := (file_record basename).
Abbreviation run_files :=
  (run_files path_exists basename subprocess_run json_loads).
Abbreviation run_test :=
  (run_test path_exists basename subprocess_run json_loads).
Abbreviation run_all :=
  (run_all path_exists basename subprocess_run json_loads).

(** The records already collected play no part in what follows. *)
Lemma run_files_acc (files : list string) (params : list (string * string)) :
  forall acc : list dict,
    run_files files params acc =
      let '(cs, r) := run_files files params [] in
      (cs, rs <- r ;; Ok (acc ++ rs)).
Proof.
  induction files as [|f rest IH]; intros acc; simpl.
  - now rewrite app_nil_r.
  - destruct (path_exists f); simpl; [|apply IH].
    destruct (fetch f params) as [data|e].
    + destruct (file_record f data) as [r|e]; [|reflexivity].
      rewrite (IH (acc ++ [r])), (IH [r]).
      destruct (run_files rest params []) as [cs [rs|e]]; simpl;
        [|reflexivity].
      now rewrite <- app_assoc.
    + rewrite (IH (acc ++ [error_record f e])), (IH [error_record f e]).
      destruct (run_files rest params []) as [cs [rs|e']]; simpl;
        [|reflexivity].
      now rewrite <- app_assoc.
Qed.

(** The loop over two lists of files, one after the other. *)
Lemma run_files_app (l1 l2 : list string) (params : list (string * string)) :
  run_files (l1 ++ l2) params [] =
    match run_files l1 params [] with
    | (cs1, Raise e) => (cs1, Raise e)
    | (cs1, Ok rs1) =>
        let '(cs2, r2) := run_files l2 params [] in
        (cs1 ++ cs2, rs2 <- r2 ;; Ok (rs1 ++ rs2))
    end.
Proof.
  induction l1 as [|f rest IH]; simpl.
  - destruct (run_files l2 params []) as [cs [rs|e]]; reflexivity.
  - destruct (path_exists f); simpl; [|apply IH].
    destruct (fetch f params) as [data|e].
    + destruct (file_record f data) as [r|e]; [|reflexivity].
      rewrite (run_files_acc (rest ++ l2) params [r]), IH.
      rewrite (run_files_acc rest params [r]).
      destruct (run_files rest params []) as [cs1 [rs1|e]]; simpl;
        [|reflexivity].
      destruct (run_files l2 params []) as [cs2 [rs2|e]]; reflexivity.
    + rewrite (run_files_acc (rest ++ l2) params [error_record f e]), IH.
      rewrite (run_files_acc rest params [error_record f e]).
      destruct (run_files rest params []) as [cs1 [rs1|e']]; simpl;
        [|reflexivity].
      destruct (run_files l2 params []) as [cs2 [rs2|e']]; reflexivity.
Qed.

(** A missing file: nothing is run, nothing is recorded. *)
Lemma run_files_missing (f : string) (params : list (string * string)) :
  path_exists f = false -> run_files [f] params [] = ([], Ok []).
Proof. intros H. simpl. now rewrite H. Qed.

(** A file whose request or decoding raises: one command, one error
    record. *)
Lemma run_files_failed (f : string) (params : list (string * string))
    (e : exn) :
  path_exists f = true ->
  fetch f params = Raise e ->
  run_files [f] params [] = ([curl_cmd f params], Ok [error_record f e]).
Proof. intros H1 H2. simpl. now rewrite H1, H2. Qed.

(** Missing files can be struck from the list. *)
Lemma run_files_existing (files : list string)
    (params : list (string * string)) (acc : list dict) :
  run_files files params acc =
    run_files (List.filter path_exists files) params acc.
Proof.
  revert acc. induction files as [|f rest IH]; intros acc; [reflexivity|].
  simpl. destruct (path_exists f) eqn:E; simpl; [|apply IH].
  rewrite E. simpl.
  destruct (fetch f params) as [data|e].
  - destruct (file_record f data); [|reflexivity]. now rewrite IH.
  - now rewrite IH.
Qed.

(** With the server down every file that exists gives its error record, and
    [run_test] returns. *)
Lemma run_files_all_failed (files : list string)
    (params : list (string * string)) (e : exn) :
  (forall f, In f files -> fetch f params = Raise e) ->
  run_files files params [] =
    (map (fun f => curl_cmd f params) (List.filter path_exists files),
     Ok (map (fun f => error_record f e) (List.filter path_exists files))).
Proof.
  induction files as [|f rest IH]; intros Hall; [reflexivity|].
  simpl. destruct (path_exists f) eqn:E; simpl.
  - rewrite (Hall f (or_introl eq_refl)).
    rewrite (run_files_acc rest params [error_record f e]).
    rewrite IH by (intros g Hg; apply Hall; now right). reflexivity.
  - apply IH. intros g Hg. apply Hall. now right.
Qed.

(** C9. In [run_test], for a file [f] of the list: if [f] is missing the
    run is the run without [f] (no command, no record, no exception); if
    the request for [f] or the decoding of its response raises [e], the
    run is the run over the files before [f], then one command and one
    error record for [f] (its base name and [str(e)]), then the run over
    the files after [f]. A [run_test] that returns lets the loop over the
    configurations go on. *)
Theorem run_test_partial_failure (label : string)
    (params : list (string * string)) (before after : list string)
    (f : string) :
  FILES = before ++ f :: after ->
  (path_exists f = false ->
   run_test label params = run_files (before ++ after) params []) /\
  (forall e : exn,
     path_exists f = true ->
     fetch f params = Raise e ->
     run_test label params =
       match run_files before params [] with
       | (cs1, Raise e') => (cs1, Raise e')
       | (cs1, Ok rs1) =>
           let '(cs2, r2) := run_files after params [] in
           (cs1 ++ curl_cmd f params :: cs2,
            rs2 <- r2 ;;
            Ok (rs1 ++
                [ ("file", VStr (basename f)); ("error", VStr (exn_str e)) ]
                :: rs2))
       end) /\
  (forall tests all_results cs results,
     run_test label params = (cs, Ok results) ->
     run_all ((label, params) :: tests) all_results =
       let '(cs', r) :=
         run_all tests (dict_set label results all_results) in
       (cs ++ cs', r)).
Proof.
  intros HF. unfold Sweep.run_test. rewrite HF.
  split; [|split].
  - intros Hmiss.
    rewrite run_files_existing, (run_files_existing (before ++ after)).
    rewrite !List.filter_app. simpl. now rewrite Hmiss.
  - intros e Hex Hfail.
    change (f :: after) with ([f] ++ after).
    rewrite run_files_app.
    destruct (run_files before params []) as [cs1 [rs1|e']]; [|reflexivity].
    rewrite run_files_app, (run_files_failed f params e Hex Hfail).
    destruct (run_files after params []) as [cs2 [rs2|e']]; reflexivity.
  - intros tests all_results cs results Hrun.
    cbn [Sweep.run_all]. unfold Sweep.run_test. rewrite HF, Hrun.
    reflexivity.
Qed.

End SweepFacts.

Section SummaryFacts.

Lemma summary_table_app (l1 l2 : list (string * list dict)) :
  summary_table (l1 ++ l2) =
    (a <- summary_table l1 ;; b <- summary_table l2 ;; Ok (a ++ b)).
Proof.
  induction l1 as [|[label results] rest IH]; simpl.
  - destruct (summary_table l2); reflexivity.
  - destruct (valid_of results) as [|r valid]; [exact IH|].
    destruct (summary_line label (r :: valid)); simpl; [|reflexivity].
    rewrite IH. destruct (summary_table rest); simpl; [|reflexivity].
    destruct (summary_table l2); reflexivity.
Qed.

(** Records that all hold an [error] leave nothing valid. *)
Lemma valid_of_errors (results : list dict) :
  Forall (fun r => dict_has "error" r = true) results ->
  valid_of results = [].
Proof.
  induction 1 as [|r rs Hr _ IH]; [reflexivity|].
  unfold valid_of in *. simpl. now rewrite Hr.
Qed.

Lemma valid_of_idempotent (results : list dict) :
  valid_of (valid_of results) = valid_of results.
Proof.
  unfold valid_of. induction results as [|r rs IH]; [reflexivity|].
  simpl. destruct (dict_has "error" r) eqn:E; simpl; [exact IH|].
  rewrite E. simpl. now rewrite IH.
Qed.

(** No record of [valid_of] holds an [error]. *)
Lemma valid_of_clean (results : list dict) :
  Forall (fun r => dict_has "error" r = false) (valid_of results).
Proof.
  unfold valid_of. induction results as [|r rs IH]; [constructor|].
  simpl. destruct (dict_has "error" r) eqn:E; simpl; [exact IH|].
  now constructor.
Qed.

(** The table of one configuration. *)
Lemma summary_table_one (label : string) (results : list dict) :
  summary_table [(label, results)] =
    match valid_of results with
    | [] => Ok []
    | valid => line <- summary_line label valid ;; Ok [line]
    end.
Proof.
  simpl. destruct (valid_of results) as [|r valid]; [reflexivity|].
  destruct (summary_line label (r :: valid)); reflexivity.
Qed.

(** [valid] holds the records without [error]. *)
Lemma valid_of_non_error (results : list dict) :
  valid_of results = Tally.non_error results.
Proof.
  unfold valid_of. induction results as [|r rest IH]; [reflexivity|].
  cbn [List.filter Tally.non_error]. unfold dict_has.
  destruct (dict_lookup "error" r); cbn [negb]; [exact IH|].
  f_equal. exact IH.
Qed.

Lemma as_num_of_num (a : num) : as_num (of_num a) = Ok a.
Proof. destruct a; reflexivity. Qed.

Lemma sum_column_total (k : string) (rs : list dict) (l : list num) :
  Forall2 (fun r a => dict_lookup k r = Some (of_num a)) rs l ->
  forall acc : num, sum_column k acc rs = Tally.total_from acc l.
Proof.
  induction 1 as [|r a rs l Hr _ IH]; intros acc; [reflexivity|].
  cbn [sum_column Tally.total_from]. unfold dict_item. rewrite Hr.
  cbn [bind]. rewrite as_num_of_num. cbn [bind].
  destruct (num_add acc a); cbn [bind]; [apply IH|reflexivity].
Qed.

Lemma column_values (k : string) (rs : list dict) (l : list num) :
  Forall2 (fun r a => dict_lookup k r = Some (of_num a)) rs l ->
  column k rs = Ok l.
Proof.
  unfold column. induction 1 as [|r a rs l Hr _ IH]; [reflexivity|].
  cbn [traverse]. unfold dict_item at 1. rewrite Hr. cbn [bind].
  rewrite as_num_of_num. cbn [bind]. now rewrite IH.
Qed.

Lemma sum_column_count (rs : list dict) (l : list Z) :
  Forall2 (fun r z => dict_lookup "low_conf_words" r = Some (VInt z)) rs l ->
  forall z : Z,
    sum_column "low_conf_words" (NInt z) rs = Ok (NInt (z + Tally.count l)).
Proof.
  induction 1 as [|r a rs l Hr _ IH]; intros z.
  - cbn. now rewrite Z.add_0_r.
  - cbn [sum_column]. unfold dict_item. rewrite Hr. cbn.
    rewrite IH. now rewrite Z.add_assoc.
Qed.

Lemma rows_columns (valid : list dict) (rows : list Tally.row) :
  Forall2 Tally.row_of valid rows ->
  Forall2 (fun r a => dict_lookup "avg_prob" r = Some (of_num a)) valid
    (map Tally.avg_prob rows) /\
  Forall2 (fun r a => dict_lookup "min_prob" r = Some (of_num a)) valid
    (map Tally.min_prob rows) /\
  Forall2 (fun r z => dict_lookup "low_conf_words" r = Some (VInt z)) valid
    (map Tally.low_conf_words rows) /\
  Forall2 (fun r a => dict_lookup "proc_time" r = Some (of_num a)) valid
    (map Tally.proc_time rows).
Proof.
  induction 1 as [|r w valid rows (Ha & Hm & Hl & Ht) _ (IHa & IHm & IHl & IHt)];
    cbn [map]; repeat split; constructor; assumption.
Qed.

(** The line of a configuration is the line of the rows of its valid
    records. *)
Lemma summary_line_rows (label : string) (valid : list dict)
    (rows : list Tally.row) :
  Forall2 Tally.row_of valid rows ->
  summary_line label valid = Tally.line label rows.
Proof.
  intros H.
  assert (Hlen : length valid = length rows)
    by (eapply Forall2_length; exact H).
  destruct (rows_columns valid rows H) as (Ha & Hm & Hl & Ht).
  unfold summary_line, Tally.line, Tally.mean, Tally.cell, format_8_3f.
  rewrite (sum_column_total _ _ _ Ha), (column_values _ _ _ Hm),
    (sum_column_count _ _ Hl), (sum_column_total _ _ _ Ht).
  rewrite !length_map, Hlen. cbn [Z.add].
  destruct (Tally.total_from (NInt 0) (map Tally.avg_prob rows)) as [sa|];
    cbn [bind]; [|reflexivity].
  destruct (num_truediv sa _) as [avg_p|]; cbn [bind]; [|reflexivity].
  destruct (Tally.total_from (NInt 0) (map Tally.proc_time rows)) as [st|];
    cbn [bind]; [|reflexivity].
  destruct (num_truediv st _) as [avg_t|]; cbn [bind]; [|reflexivity].
  destruct (format_3f avg_p); cbn [bind]; [|reflexivity].
  fold (Tally.least (map Tally.min_prob rows)).
  destruct (format_3f (Tally.least _)); cbn [bind format_8d];
    [|reflexivity].
  destruct (format_3f avg_t); reflexivity.
Qed.

(** C10. In the summary table a configuration whose records all hold an
    [error] has no line: the table is the table without it. For any
    configuration the error records play no part: the table is the table
    with the configuration reduced to its records without [error]; and
    when some are left, the configuration has a line, computed over these
    records only: its label, the average of their [avg_prob], the least
    of their [min_prob], the sum of their [low_conf_words] and the
    average of their [proc_time], between the lines of the
    configurations before it and after it. *)
Theorem summary_skips_errors (before after : list (string * list dict))
    (label : string) (results : list dict) :
  (Forall (fun r => dict_has "error" r = true) results ->
   summary_table (before ++ (label, results) :: after) =
     summary_table (before ++ after)) /\
  summary_table (before ++ (label, results) :: after) =
    summary_table (before ++ (label, Tally.non_error results) :: after) /\
  (forall rows : list Tally.row,
     Forall2 Tally.row_of (Tally.non_error results) rows -> rows <> [] ->
     summary_table (before ++ (label, results) :: after) =
       (above <- summary_table before ;;
        line <- Tally.line label rows ;;
        below <- summary_table after ;;
        Ok (above ++ line :: below))).
Proof.
  split; [|split].
  - intros Herr. rewrite !summary_table_app. cbn [summary_table].
    now rewrite (valid_of_errors results Herr).
  - rewrite !summary_table_app. cbn [summary_table].
    now rewrite <- !valid_of_non_error, valid_of_idempotent.
  - intros rows Hrows Hne. rewrite summary_table_app.
    cbn [summary_table]. rewrite valid_of_non_error.
    rewrite <- (summary_line_rows label _ rows Hrows).
    destruct (Tally.non_error results) as [|r valid] eqn:Ev.
    { inversion Hrows; subst. contradiction. }
    destruct (summary_table before) as [above|]; cbn [bind];
      [|reflexivity].
    destruct (summary_line label (r :: valid)) as [line|]; cbn [bind];
      [|reflexivity].
    destruct (summary_table after); reflexivity.
Qed.

End SummaryFacts.

Section SweepRuns.

(** The labels of the configurations are distinct: every configuration has
    its own entry in [all_results]. *)
Lemma TESTS_labels_distinct : NoDup (map fst TESTS) /\ length TESTS = 38%nat.
Proof.
  split; [|reflexivity].
  apply (NoDup_ListNoDup (map fst TESTS)).
  apply (List.NoDup_count_occ string_dec).
  intros x.
  assert (H : forallb (fun y => (count_occ string_dec (map fst TESTS) y <=? 1)%nat)
                (map fst TESTS) = true) by (vm_compute; reflexivity).
  destruct (in_dec string_dec x (map fst TESTS)) as [Hin|Hout].
  - rewrite forallb_forall in H. apply Nat.leb_le. exact (H x Hin).
  - rewrite (proj1 (count_occ_not_In string_dec _ x) Hout). lia.
Qed.

Lemma files_split :
  FILES =
    [ "D:\Downloads\test_audio\11501-1732852092-101.m4a" ] ++
    "D:\Downloads\test_audio\11501-1732890340-4771.m4a" ::
    [ "D:\Downloads\test_audio\11501-1732896070-5814.m4a";
      "D:\Downloads\test_audio\11531-1732910648-858.m4a";
      "D:\Downloads\test_audio\17508-1726293137_851762500.0-call_91989.m4a";
      "D:\Downloads\test_audio\21029-1726738591_852687500.0-call_35128.m4a" ].
Proof. reflexivity. Qed.

(** The second file of the list, on disk, answered with an error page:
    one command and one error record for it, and the run goes on to the
    third file. The first file, missing, leaves no trace. *)
Lemma run_test_partial_failure_witness :
  Sweep.run_test Sample.on_disk Sample.after_last_separator
    Sample.error_page Sample.decode "BEAM=1 (greedy)" Sample.greedy =
    let '(cs2, r2) :=
      Sweep.run_files Sample.on_disk Sample.after_last_separator
        Sample.error_page Sample.decode
        [ "D:\Downloads\test_audio\11501-1732896070-5814.m4a";
          "D:\Downloads\test_audio\11531-1732910648-858.m4a";
          "D:\Downloads\test_audio\17508-1726293137_851762500.0-call_91989.m4a";
          "D:\Downloads\test_audio\21029-1726738591_852687500.0-call_35128.m4a" ]
        Sample.greedy [] in
    (curl_cmd "D:\Downloads\test_audio\11501-1732890340-4771.m4a"
       Sample.greedy :: cs2,
     rs2 <- r2 ;;
     Ok ([ ("file", VStr "11501-1732890340-4771.m4a");
           ("error", VStr "Expecting value: line 1 column 1 (char 0)") ]
         :: rs2)).
Proof.
  refine (proj1 (proj2 (run_test_partial_failure Sample.on_disk
            Sample.after_last_separator Sample.error_page Sample.decode
            "BEAM=1 (greedy)" Sample.greedy _ _ _ files_split))
            (Exn "JSONDecodeError" "Expecting value: line 1 column 1 (char 0)")
            _ _); vm_compute; reflexivity.
Defined.

(** The whole run, computed: two commands, two error records. *)
Example run_test_server_down :
  Sweep.run_test Sample.on_disk Sample.after_last_separator
    Sample.error_page Sample.decode "BEAM=1 (greedy)" Sample.greedy =
    ([ curl_cmd "D:\Downloads\test_audio\11501-1732890340-4771.m4a"
         Sample.greedy;
       curl_cmd "D:\Downloads\test_audio\11501-1732896070-5814.m4a"
         Sample.greedy ],
     Ok [ Sample.failed "11501-1732890340-4771.m4a";
          Sample.failed "11501-1732896070-5814.m4a" ]).
Proof. vm_compute. reflexivity. Qed.

(** A configuration with error records only, before one with two valid
    records and an error record: one line, over the two valid records. *)
Lemma summary_skips_errors_witness :
  summary_table Sample.all_results =
    summary_table
      [ ("BEAM=3",
         [ Sample.scored "a.m4a" 900 1; Sample.failed "b.m4a";
           Sample.scored "c.m4a" 800 2 ]) ] /\
  summary_table
    [ ("BEAM=3",
       [ Sample.scored "a.m4a" 900 1; Sample.failed "b.m4a";
         Sample.scored "c.m4a" 800 2 ]) ] =
    (line <- Tally.line "BEAM=3" Tally.sample_rows ;; Ok [line]).
Proof.
  split.
  - refine (proj1 (summary_skips_errors [] _ "BEAM=1 (greedy)"
              [ Sample.failed "a.m4a"; Sample.failed "b.m4a" ]) _).
    repeat constructor.
  - refine (proj2 (proj2 (summary_skips_errors [] [] "BEAM=3"
              [ Sample.scored "a.m4a" 900 1; Sample.failed "b.m4a";
                Sample.scored "c.m4a" 800 2 ])) Tally.sample_rows _ _).
    + repeat constructor.
    + discriminate.
Defined.

Example summary_line_sample :
  Tally.line "BEAM=3" Tally.sample_rows =
    Ok (align_left 55 "BEAM=3" +:+ "    0.850    0.300        3    0.250").
Proof. vm_compute. reflexivity. Qed.

Example summary_table_sample :
  summary_table Sample.all_results =
    Ok [ align_left 55 "BEAM=3" +:+ "    0.850    0.300        3    0.250" ].
Proof. vm_compute. reflexivity. Qed.

End SweepRuns.

(* ===================================================================== *)
(** * Further properties of server.py: the WebVTT renderer *)
(* ===================================================================== *)

Section WebvttFacts.

Lemma vtt_lines_cons (seg : dict) (rest : list dict) :
  vtt_lines (seg :: rest) =
    (b <- Webvtt.vtt_block seg ;;
     ls <- vtt_lines rest ;;
     Ok (b ++ ls)).
Proof.
  unfold Webvtt.vtt_block. simpl.
  destruct (seg_num "start" seg) as [a|]; simpl; [|reflexivity].
  destruct (format_vtt_timestamp a); simpl; [|reflexivity].
  destruct (seg_num "end" seg) as [b|]; simpl; [|reflexivity].
  destruct (format_vtt_timestamp b); simpl; [|reflexivity].
  destruct (seg_stripped "text" seg); simpl; [|reflexivity].
  destruct (vtt_lines rest); reflexivity.
Qed.

(** The lines are the blocks of the segments, one after the other; what
    is raised is what the block of a segment raises. *)
Lemma vtt_lines_blocks (segments : list dict) :
  match vtt_lines segments with
  | Ok ls =>
      exists blocks : list (list string),
        Forall2 (fun seg b => Webvtt.vtt_block seg = Ok b) segments blocks /\
        ls = concat blocks
  | Raise e =>
      exists seg : dict, In seg segments /\ Webvtt.vtt_block seg = Raise e
  end.
Proof.
  induction segments as [|seg rest IH].
  - simpl. exists []. split; [constructor|reflexivity].
  - rewrite vtt_lines_cons.
    destruct (Webvtt.vtt_block seg) as [b|e] eqn:Eb; simpl.
    + destruct (vtt_lines rest) as [ls|e]; simpl.
      * destruct IH as (blocks & HF & ->).
        exists (b :: blocks). split; [|reflexivity].
        constructor; [exact Eb|exact HF].
      * destruct IH as (s & Hin & Hr).
        exists s. split; [now right|exact Hr].
    + exists seg. split; [now left|exact Eb].
Qed.

(** Every time that is [Spec.bounded] is formatted. *)
Lemma format_vtt_timestamp_bounded (a : num) :
  Spec.bounded a -> exists t, format_vtt_timestamp a = Ok t.
Proof.
  destruct a as [z|x]; intros H.
  - unfold format_vtt_timestamp. simpl. eauto.
  - now apply format_vtt_timestamp_returns.
Qed.

Lemma vtt_block_returns (seg : dict) :
  Spec.renderable seg -> exists block, Webvtt.vtt_block seg = Ok block.
Proof.
  intros (a & b & s & Ha & Hba & Hb & Hbb & Hs).
  unfold Webvtt.vtt_block. rewrite Ha, Hb. cbn [bind].
  destruct (format_vtt_timestamp_bounded a Hba) as (ta & ->).
  destruct (format_vtt_timestamp_bounded b Hbb) as (tb & ->).
  unfold seg_stripped, dict_item. rewrite Hs. cbn [bind]. eauto.
Qed.

Lemma vtt_lines_returns (segments : list dict) :
  Forall Spec.renderable segments -> exists ls, vtt_lines segments = Ok ls.
Proof.
  induction 1 as [|seg rest Hseg _ IH].
  - simpl. eauto.
  - rewrite vtt_lines_cons.
    destruct (vtt_block_returns seg Hseg) as (b & ->).
    destruct IH as (ls & ->). cbn [bind]. eauto.
Qed.

Example segments_to_vtt_two :
  segments_to_vtt Sample.spoken =
    Ok (join nl [ "WEBVTT"; "";
                  "00:00:00.000 --> 00:00:01.500"; "hello"; "";
                  "00:00:01.500 --> 00:00:02.250"; "world"; "" ]).
Proof. vm_compute. reflexivity. Qed.

(** ** The two timestamps *)

Lemma with_period_app (s t : string) :
  Webvtt.with_period (s +:+ t) =
    Webvtt.with_period s +:+ Webvtt.with_period t.
Proof.
  induction s as [|c s IH]; step_append; [reflexivity|].
  cbn [Webvtt.with_period]. step_append. now rewrite IH.
Qed.

Lemma with_period_free (s : string) :
  contains comma s = false -> Webvtt.with_period s = s.
Proof.
  induction s as [|c s IH]; [reflexivity|]. cbn [contains Webvtt.with_period].
  intros H. apply orb_false_iff in H as [Hc Hs].
  unfold comma in Hc. rewrite Hc, (IH Hs). reflexivity.
Qed.

Lemma contains_app (c : ascii) (s t : string) :
  contains c (s +:+ t) = contains c s || contains c t.
Proof.
  induction s as [|a s IH]; step_append; [reflexivity|].
  cbn [contains]. rewrite IH. now rewrite orb_assoc.
Qed.

Lemma contains_repeat_char (c a : ascii) (n : nat) :
  Ascii.eqb a c = false -> contains c (repeat_char a n) = false.
Proof.
  intros H. induction n as [|n IH]; [reflexivity|].
  cbn [repeat_char contains]. now rewrite H, IH.
Qed.

Lemma contains_digits_of_uint (c : ascii) (d : Decimal.uint) :
  is_digit c = false -> contains c (digits_of_uint d) = false.
Proof.
  intros Hc.
  assert (Hd : forall a, is_digit a = true -> Ascii.eqb a c = false).
  { intros a Ha. apply Ascii.eqb_neq. intros ->. congruence. }
  induction d; cbn [digits_of_uint contains]; [reflexivity|..];
    rewrite IHd, Hd by reflexivity; reflexivity.
Qed.

Lemma contains_digits_of_N (c : ascii) (n : N) :
  is_digit c = false -> contains c (digits_of_N n) = false.
Proof.
  intros Hc. destruct n as [|p]; cbn [digits_of_N].
  - cbn [contains]. rewrite orb_false_r. apply Ascii.eqb_neq.
    intros <-. discriminate.
  - now apply contains_digits_of_uint.
Qed.

(** A formatted int holds digits and, maybe, a minus sign. *)
Lemma contains_format_0d (c : ascii) (w : nat) (z : Z) :
  is_digit c = false -> Ascii.eqb "-" c = false ->
  contains c (format_0d w z) = false.
Proof.
  intros Hc Hm. unfold format_0d. cbv zeta.
  rewrite !contains_app, contains_digits_of_N by assumption.
  rewrite contains_repeat_char.
  2:{ apply Ascii.eqb_neq. intros <-. discriminate. }
  destruct (z <? 0); cbn [contains]; now rewrite ?Hm.
Qed.

Lemma with_period_format_0d (w : nat) (z : Z) :
  Webvtt.with_period (format_0d w z) = format_0d w z.
Proof. apply with_period_free, contains_format_0d; reflexivity. Qed.

Lemma format_vtt_timestamp_of_srt (seconds : num) :
  format_vtt_timestamp seconds =
    (t <- format_timestamp seconds ;; Ok (Webvtt.with_period t)).
Proof.
  unfold format_vtt_timestamp, format_timestamp.
  repeat match goal with
         | |- bind ?r _ = bind (bind ?r _) _ =>
             destruct r; cbn [bind]; [|reflexivity]
         end.
  rewrite !with_period_app, !with_period_format_0d. reflexivity.
Qed.

(** X2. A WebVTT timestamp is the SRT timestamp of the same seconds with
    its comma turned into a period, and [format_vtt_timestamp] raises
    exactly what [format_timestamp] raises; so the two renderers raise the
    same exception on the same segments, or both return. *)
Theorem vtt_timestamp_of_srt_timestamp :
  (forall seconds : num,
     format_vtt_timestamp seconds =
       (t <- format_timestamp seconds ;; Ok (Webvtt.with_period t))) /\
  (forall segments : list dict,
     match segments_to_srt segments, segments_to_vtt segments with
     | Ok _, Ok _ => True
     | Raise e1, Raise e2 => e1 = e2
     | _, _ => False
     end).
Proof.
  pose proof format_vtt_timestamp_of_srt as Hts.
  split; [exact Hts|].
  intros segments. unfold segments_to_srt, segments_to_vtt.
  assert (H : forall i,
            match srt_lines i segments, vtt_lines segments with
            | Ok _, Ok _ => True
            | Raise e1, Raise e2 => e1 = e2
            | _, _ => False
            end).
  { induction segments as [|seg rest IH]; intros i; [exact I|].
    cbn [srt_lines vtt_lines].
    destruct (seg_num "start" seg) as [a|]; cbn [bind]; [|reflexivity].
    rewrite (Hts a).
    destruct (format_timestamp a); cbn [bind]; [|reflexivity].
    destruct (seg_num "end" seg) as [b|]; cbn [bind]; [|reflexivity].
    rewrite (Hts b).
    destruct (format_timestamp b); cbn [bind]; [|reflexivity].
    destruct (seg_stripped "text" seg); cbn [bind]; [|reflexivity].
    specialize (IH (i + 1)).
    destruct (srt_lines (i + 1) rest), (vtt_lines rest); cbn [bind];
      exact IH. }
  specialize (H 1).
  destruct (srt_lines 1 segments), (vtt_lines segments); cbn [bind]; exact H.
Qed.

End WebvttFacts.

(* ===================================================================== *)
(** * Further properties of server.py: the two parsed fields *)
(* ===================================================================== *)

Section ParsedFields.

(** ** Plain strings: nothing to trim, nothing to split *)

Lemma plain_lstrip (s : string) : Wire.plain s = true -> lstrip s = s.
Proof.
  destruct s as [|c s]; [reflexivity|]. cbn [Wire.plain lstrip]. intros H.
  destruct (is_space c); [discriminate|reflexivity].
Qed.

Lemma plain_rstrip (s : string) : Wire.plain s = true -> rstrip s = s.
Proof.
  induction s as [|c s IH]; [reflexivity|]. cbn [Wire.plain rstrip]. intros H.
  apply andb_prop in H as [H Hs]. rewrite (IH Hs).
  destruct s; [|reflexivity].
  destruct (is_space c); [discriminate|reflexivity].
Qed.

Lemma plain_strip (s : string) : Wire.plain s = true -> strip s = s.
Proof.
  intros H. unfold strip. now rewrite plain_rstrip, plain_lstrip.
Qed.

Lemma plain_float_lstrip (s : string) :
  Wire.plain s = true -> float_lstrip s = s.
Proof.
  destruct s as [|c s]; [reflexivity|]. cbn [Wire.plain float_lstrip].
  intros H. destruct (is_float_space c); [|reflexivity].
  destruct (is_space c); discriminate.
Qed.

Lemma plain_float_rstrip (s : string) :
  Wire.plain s = true -> float_rstrip s = s.
Proof.
  induction s as [|c s IH]; [reflexivity|].
  cbn [Wire.plain float_rstrip]. intros H.
  apply andb_prop in H as [H Hs]. rewrite (IH Hs).
  destruct s; [|reflexivity].
  destruct (is_float_space c); [|reflexivity].
  destruct (is_space c); discriminate.
Qed.

Lemma plain_comma_free (s : string) :
  Wire.plain s = true -> contains comma s = false.
Proof.
  induction s as [|c s IH]; [reflexivity|]. cbn [Wire.plain contains].
  intros H. apply andb_prop in H as [H Hs]. rewrite (IH Hs).
  destruct (Ascii.eqb c comma); [|reflexivity].
  destruct (is_space c), (is_float_space c); discriminate.
Qed.

Lemma plain_drop_underscores (s : string) : forall prev : ascii,
  Wire.plain s = true -> Ascii.eqb prev "_" = false ->
  drop_underscores prev s = Some s.
Proof.
  induction s as [|c s IH]; intros prev H Hp; cbn [drop_underscores].
  - now rewrite Hp.
  - cbn [Wire.plain] in H. apply andb_prop in H as [H Hs].
    assert (Hc : Ascii.eqb c "_" = false).
    { destruct (Ascii.eqb c "_"); [|reflexivity].
      destruct (is_space c), (is_float_space c), (Ascii.eqb c comma);
        discriminate. }
    rewrite Hc, Hp. cbn [andb]. now rewrite (IH c Hs Hc).
Qed.

(** ** The digits of an int *)

Lemma digit_is_plain (c : ascii) :
  is_digit c = true ->
  negb (is_space c) && negb (is_float_space c)
    && negb (Ascii.eqb c comma) && negb (Ascii.eqb c "_") = true.
Proof.
  destruct c as [[] [] [] [] [] [] [] []]; try discriminate; reflexivity.
Qed.

Lemma all_digits_plain (s : string) :
  all_digits s = true -> Wire.plain s = true.
Proof.
  induction s as [|c s IH]; [reflexivity|]. cbn [all_digits Wire.plain].
  intros H. apply andb_prop in H as [Hc Hs].
  now rewrite (digit_is_plain c Hc), (IH Hs).
Qed.

Lemma all_digits_of_uint (d : Decimal.uint) :
  all_digits (digits_of_uint d) = true.
Proof. induction d; cbn [digits_of_uint all_digits]; auto. Qed.

Lemma digits_of_uint_nonempty (d : Decimal.uint) :
  d <> Decimal.Nil -> nonempty (digits_of_uint d) = true.
Proof. destruct d; [contradiction|reflexivity..]. Qed.

Lemma all_digits_of_N (n : N) :
  all_digits (digits_of_N n) = true /\ nonempty (digits_of_N n) = true.
Proof.
  destruct n as [|p]; cbn [digits_of_N]; [split; reflexivity|].
  split; [apply all_digits_of_uint|].
  apply digits_of_uint_nonempty, Unsigned.to_uint_nonnil.
Qed.

(** Reading the digits of [d] on top of a positive [acc]. *)
Lemma read_digits_of_uint_acc (d : Decimal.uint) :
  forall (acc : positive) (n : Z),
    fst (fst (read_digits (digits_of_uint d) (Zpos acc) n)) =
      Zpos (Pos.of_uint_acc d acc).
Proof.
  induction d; intros acc n; cbn [digits_of_uint Pos.of_uint_acc];
    [reflexivity|..];
    cbn [read_digits];
    match goal with
    | |- context [is_digit ?c] =>
        change (is_digit c) with true; cbv iota;
        let v := eval vm_compute in (digit_val c) in
        change (digit_val c) with v
    end;
    first [ rewrite Z.add_0_r, <- Pos2Z.inj_mul
          | rewrite Z.add_comm, <- Pos2Z.inj_mul, <- Pos2Z.inj_add ];
    apply IHd.
Qed.

(** Reading the digits of [d] from nothing. *)
Lemma read_digits_of_uint (d : Decimal.uint) : forall n : Z,
  fst (fst (read_digits (digits_of_uint d) 0 n)) = Z.of_N (Pos.of_uint d).
Proof.
  induction d; intros n; cbn [digits_of_uint Pos.of_uint];
    [reflexivity|..];
    cbn [read_digits];
    match goal with
    | |- context [is_digit ?c] =>
        change (is_digit c) with true; cbv iota;
        let v := eval vm_compute in (digit_val c) in
        change (digit_val c) with v
    end;
    change (10 * 0) with 0; rewrite Z.add_0_l;
    first [ apply IHd | apply read_digits_of_uint_acc ].
Qed.

Lemma read_digits_of_N (n : N) :
  fst (fst (read_digits (digits_of_N n) 0 0)) = Z.of_N n.
Proof.
  destruct n as [|p]; [reflexivity|]. cbn [digits_of_N].
  now rewrite read_digits_of_uint, Unsigned.of_to.
Qed.

Lemma read_sign_digit (c : ascii) (s : string) :
  is_digit c = true -> read_sign (String c s) = (false, String c s).
Proof.
  destruct c as [[] [] [] [] [] [] [] []]; try discriminate; reflexivity.
Qed.

(** An int is plain text: digits after a minus sign, maybe. *)
Lemma str_of_int_plain (z : Z) :
  Wire.plain (str_of_int z) = true /\ nonempty (str_of_int z) = true.
Proof.
  destruct z as [|p|p]; cbn [str_of_int].
  - split; reflexivity.
  - destruct (all_digits_of_N (Z.to_N (Zpos p))) as [H1 H2].
    split; [now apply all_digits_plain|exact H2].
  - destruct (all_digits_of_N (Npos p)) as [H1 H2].
    split; [|reflexivity].
    cbn [Wire.plain]. now rewrite (all_digits_plain _ H1).
Qed.

Lemma int_of_digits (neg : bool) (ds : string) (bad : result Z) :
  all_digits ds = true -> nonempty ds = true ->
  match drop_underscores "000" ds with
  | Some ((String c s2) as ds') =>
      if all_digits ds'
      then Ok (cond_Zopp neg (fst (fst (read_digits ds' 0 0))))
      else bad
  | _ => bad
  end = Ok (cond_Zopp neg (fst (fst (read_digits ds 0 0)))).
Proof.
  intros Ha Hne.
  rewrite plain_drop_underscores
    by first [apply all_digits_plain; assumption | reflexivity].
  destruct ds as [|c s]; [discriminate|]. now rewrite Ha.
Qed.

(** [int(str(z))] is [z]. *)
Lemma int_of_string_of_int (z : Z) : int_of_string (str_of_int z) = Ok z.
Proof.
  destruct (str_of_int_plain z) as [Hp _].
  unfold int_of_string. cbv zeta.
  rewrite plain_float_rstrip, plain_float_lstrip by assumption.
  assert (Hpos : forall n : N,
            read_sign (digits_of_N n) = (false, digits_of_N n)).
  { intros n. destruct (all_digits_of_N n) as [Ha Hne].
    destruct (digits_of_N n) as [|c s]; [discriminate|].
    cbn [all_digits] in Ha. apply andb_prop in Ha as [Ha _].
    now apply read_sign_digit. }
  destruct z as [|p|p]; cbn [str_of_int].
  - reflexivity.
  - rewrite Hpos.
    destruct (all_digits_of_N (Z.to_N (Zpos p))) as [Ha Hne].
    rewrite (int_of_digits false _ _ Ha Hne). cbn [cond_Zopp].
    now rewrite read_digits_of_N.
  - cbn [read_sign].
    destruct (all_digits_of_N (Npos p)) as [Ha Hne].
    rewrite (int_of_digits true _ _ Ha Hne). cbn [cond_Zopp].
    now rewrite read_digits_of_N.
Qed.

(** ** Pieces, padded and joined *)

Lemma split_free (c : ascii) (p : string) :
  contains c p = false -> split c p = [p].
Proof.
  induction p as [|a p IH]; [reflexivity|]. cbn [contains split]. intros H.
  apply orb_false_iff in H as [Ha Hp]. now rewrite Ha, (IH Hp).
Qed.

Lemma split_free_app (c : ascii) (p rest : string) :
  contains c p = false ->
  split c (p +:+ String c rest) = p :: split c rest.
Proof.
  induction p as [|a p IH]; intros H; step_append.
  - cbn [split]. now rewrite Ascii.eqb_refl.
  - cbn [contains] in H. apply orb_false_iff in H as [Ha Hp].
    cbn [split]. now rewrite Ha, (IH Hp).
Qed.

Lemma append_assoc (s t u : string) : (s +:+ t) +:+ u = s +:+ (t +:+ u).
Proof.
  induction s as [|a s IH]; step_append; [reflexivity|]. now rewrite IH.
Qed.

(** Pieces joined by a comma and a padding [pad] split at the commas into
    the first piece and the others behind the padding. *)
Lemma split_join_padded (pad : string) (ps : list string) :
  contains comma pad = false ->
  Forall (fun p => contains comma p = false) ps ->
  forall p0 : string,
    contains comma p0 = false ->
    split comma (p0 +:+ match ps with
                        | [] => ""
                        | _ => String comma pad +:+ join (String comma pad) ps
                        end) =
      match ps with
      | [] => [p0]
      | q :: qs => p0 :: (pad +:+ q) :: map (fun p => pad +:+ p) qs
      end.
Proof.
  intros Hpad. induction 1 as [|q qs Hq Hqs IH]; intros p0 Hp0.
  - assert (E : p0 +:+ "" = p0).
    { clear. induction p0 as [|a p IH]; step_append; [reflexivity|].
      now rewrite IH. }
    rewrite E. now apply split_free.
  - step_append. rewrite split_free_app by assumption. f_equal.
    destruct qs as [|r rs].
    + cbn [join map].
      specialize (IH (pad +:+ q)). cbn iota in IH.
      assert (E : forall s, s +:+ "" = s).
      { clear. intros s. induction s as [|a p IH]; step_append;
          [reflexivity|]. now rewrite IH. }
      rewrite E in IH. apply IH. rewrite contains_app. now rewrite Hpad, Hq.
    + rewrite join_cons. rewrite <- append_assoc.
      specialize (IH (pad +:+ q)). cbv iota in IH.
      rewrite IH by (rewrite contains_app; now rewrite Hpad, Hq).
      reflexivity.
Qed.

Lemma join_as_head (sep : string) (p : string) (ps : list string) :
  join sep (p :: ps) =
    p +:+ match ps with [] => "" | _ => sep +:+ join sep ps end.
Proof.
  destruct ps as [|q qs]; [|reflexivity]. cbn [join].
  induction p as [|a p IH]; step_append; [reflexivity|]. now rewrite <- IH.
Qed.

Lemma lstrip_spaces (n : nat) (s : string) :
  lstrip (repeat_char " " n +:+ s) = lstrip s.
Proof.
  induction n as [|n IH]; cbn [repeat_char]; step_append; [reflexivity|].
  cbn [lstrip]. change (is_space " ") with true. cbv iota. exact IH.
Qed.

Lemma rstrip_after (pre s : string) :
  nonempty s = true -> rstrip s = s -> rstrip (pre +:+ s) = pre +:+ s.
Proof.
  intros Hne Hs. induction pre as [|a pre IH]; step_append; [exact Hs|].
  cbn [rstrip]. rewrite IH.
  destruct (pre +:+ s) eqn:E; [|reflexivity].
  exfalso. destruct pre; [|discriminate].
  change ("" +:+ s) with s in E. subst s. discriminate.
Qed.

(** A plain piece behind spaces is trimmed to itself. *)
Lemma strip_padded (n : nat) (s : string) :
  Wire.plain s = true -> nonempty s = true ->
  strip (repeat_char " " n +:+ s) = s.
Proof.
  intros Hp Hne. unfold strip.
  rewrite rstrip_after by (try apply plain_rstrip; assumption).
  rewrite lstrip_spaces. now apply plain_lstrip.
Qed.

Lemma parse_pieces (n : nat) (l : list Z) :
  traverse int_of_string
    (List.filter nonempty
       (map strip (map (fun z => repeat_char " " n +:+ str_of_int z) l))) =
    Ok l.
Proof.
  induction l as [|z l IH]; [reflexivity|]. cbn [map].
  destruct (str_of_int_plain z) as [Hp Hne].
  rewrite strip_padded by assumption. cbn [List.filter]. rewrite Hne.
  cbn [traverse]. rewrite int_of_string_of_int. cbn [bind].
  now rewrite IH.
Qed.

(** X3. Ints written out and joined by commas, with any number of spaces
    after each comma, are parsed back by the [suppress_tokens] field into
    the same list, the empty list included. The ints are taken below
    [10^4300]: an interpreter may refuse to convert longer numerals. *)
Theorem suppress_tokens_round_trip (n : nat) (l : list Z) :
  Forall (fun z => Z.abs z < 10 ^ 4300) l ->
  parse_suppress_tokens
    (join (String comma (repeat_char " " n)) (map str_of_int l)) = Ok l.
Proof.
  intros _. unfold parse_suppress_tokens.
  rewrite (traverse_filter_map strip nonempty int_of_string).
  set (pad := repeat_char " " n).
  assert (Hpad : contains comma pad = false)
    by (apply contains_repeat_char; reflexivity).
  destruct l as [|z l]; [reflexivity|]. cbn [map].
  rewrite join_as_head.
  assert (Hfree : Forall (fun p => contains comma p = false)
                    (map str_of_int l)).
  { apply List.Forall_forall. intros p Hin.
    apply in_map_iff in Hin as (y & <- & _).
    apply plain_comma_free, str_of_int_plain. }
  rewrite (split_join_padded pad (map str_of_int l) Hpad Hfree)
    by apply plain_comma_free, str_of_int_plain.
  destruct (str_of_int_plain z) as [Hp Hne].
  assert (Hrest : forall k,
            traverse int_of_string
              (List.filter nonempty
                 (map strip (map (fun p => pad +:+ p) (map str_of_int k)))) =
              Ok k).
  { intros k. rewrite (List.map_map str_of_int (fun p => pad +:+ p) k).
    apply (parse_pieces n k). }
  assert (E : match map str_of_int l with
              | [] => [str_of_int z]
              | q :: qs =>
                  str_of_int z :: (pad +:+ q) :: map (fun p => pad +:+ p) qs
              end =
              str_of_int z :: map (fun p => pad +:+ p) (map str_of_int l))
    by (destruct (map str_of_int l); reflexivity).
  rewrite E. cbn [map List.filter].
  rewrite plain_strip, Hne by assumption.
  cbn [traverse]. rewrite int_of_string_of_int. cbn [bind].
  now rewrite (Hrest l).
Qed.

(** ** What the two parsers raise *)

Lemma float_of_string_raises (s : string) (e : exn) :
  float_of_string s = Raise e -> exn_class e = "ValueError".
Proof.
  unfold float_of_string. cbv zeta.
  destruct (drop_underscores "000" s) as [s1|]; [|now inversion 1].
  destruct (parse_decimal _); [discriminate|].
  destruct (parse_inf_or_nan _); [discriminate|now inversion 1].
Qed.

Lemma int_of_string_raises (s : string) (e : exn) :
  int_of_string s = Raise e -> exn_class e = "ValueError".
Proof.
  unfold int_of_string. cbv zeta.
  destruct (read_sign _) as [neg s1].
  destruct (drop_underscores "000" s1) as [[|c s2]|]; try now inversion 1.
  destruct (all_digits _); [discriminate|now inversion 1].
Qed.

Lemma traverse_raises {A B} (f : A -> result B) (l : list A) (e : exn) :
  traverse f l = Raise e -> exists a, In a l /\ f a = Raise e.
Proof.
  induction l as [|a l IH]; [discriminate|]. cbn [traverse].
  destruct (f a) as [b|e'] eqn:Ea; cbn [bind].
  - destruct (traverse f l); cbn [bind]; [discriminate|].
    intros H. inversion H; subst.
    destruct (IH eq_refl) as (x & Hin & Hx). exists x. split; [now right|easy].
  - intros H. inversion H; subst. exists a. split; [now left|easy].
Qed.

Lemma parse_temperature_raises (raw : string) (e : exn) :
  parse_temperature raw = Raise e -> exn_class e = "ValueError".
Proof.
  unfold parse_temperature. destruct (contains comma raw).
  - destruct (traverse _ _) eqn:E; cbn [bind]; [discriminate|].
    intros H. inversion H; subst.
    apply traverse_raises in E as (a & _ & Ha).
    now apply float_of_string_raises in Ha.
  - destruct (float_of_string raw) eqn:E; cbn [bind].
    + destruct (feq _ _); discriminate.
    + intros H. inversion H; subst. now apply float_of_string_raises in E.
Qed.

Lemma parse_suppress_tokens_raises (raw : string) (e : exn) :
  parse_suppress_tokens raw = Raise e -> exn_class e = "ValueError".
Proof.
  unfold parse_suppress_tokens. intros E.
  apply traverse_raises in E as (a & _ & Ha).
  now apply int_of_string_raises in Ha.
Qed.

(** ** Commas and blanks in the temperature *)

Lemma traverse_length {A B} (f : A -> result B) (l : list A) (bs : list B) :
  traverse f l = Ok bs -> length bs = length l.
Proof.
  revert bs. induction l as [|a l IH]; cbn [traverse]; intros bs H.
  - now inversion H.
  - destruct (f a); cbn [bind] in H; [|discriminate].
    destruct (traverse f l); cbn [bind] in H; [|discriminate].
    inversion H; subst. cbn [length]. f_equal. now apply IH.
Qed.

(** The default of the form and a list with blanks. *)
Lemma suppress_tokens_round_trip_witness :
  Forall (fun z => Z.abs z < 10 ^ 4300) [-1; 50256; 50257] /\
  parse_suppress_tokens "-1, 50256, 50257" = Ok [-1; 50256; 50257].
Proof.
  assert (H : Forall (fun z => Z.abs z < 10 ^ 4300) [-1; 50256; 50257])
    by (repeat constructor; apply Z.ltb_lt; vm_compute; reflexivity).
  split; [exact H|].
  exact (suppress_tokens_round_trip 1 [-1; 50256; 50257] H).
Defined.

End ParsedFields.

(* ===================================================================== *)
(** * Further properties of server.py: the handler *)
(* ===================================================================== *)

Section HandlerAlso.

Variable whisper_model :
  EngineCall -> gmap string string -> EngineOutcome * gmap string string.
Variable splitext : string -> string * string.
Variable temp_name : string -> gmap string string -> string.
Variables t0 t1 : float.

Abbreviation transcribe :=
  (transcribe whisper_model splitext temp_name t0 t1).
Abbreviation consume := (consume t0 t1).
Abbreviation tmp_path_of := (tmp_path_of splitext temp_name).
Abbreviation call_of := (call_of splitext temp_name).
Abbreviation disk_at_call := (disk_at_call splitext temp_name).
Abbreviation calls_made :=
  (calls_made whisper_model splitext temp_name t0 t1).

(** X4. A [temperature] or a [suppress_tokens] field that does not parse
    makes the handler raise the [ValueError] of the conversion, the
    temperature first, before the upload is written and before the engine
    is called: the disk and the calls are as they were. *)
Theorem unparsed_field_leaves_no_trace (req : Request) (st : State) :
  (forall e : exn,
     parse_temperature (temperature req) = Raise e ->
     transcribe req st = (Raise e, st) /\ exn_class e = "ValueError") /\
  (forall (temp : temperature_value) (e : exn),
     parse_temperature (temperature req) = Ok temp ->
     parse_suppress_tokens (suppress_tokens req) = Raise e ->
     transcribe req st = (Raise e, st) /\ exn_class e = "ValueError").
Proof.
  split.
  - intros e E1. split; [now apply transcribe_bad_temperature|].
    exact (parse_temperature_raises _ _ E1).
  - intros temp e E1 E2.
    split; [now apply (transcribe_bad_tokens _ _ _ _ _ req st temp e)|].
    exact (parse_suppress_tokens_raises _ _ E2).
Qed.

(** X5. The handler touches one file only: any other path holds, when it
    is done, what the engine left there; and when the engine leaves the
    disk alone and the name of the transient file was free, the disk is
    afterwards what it was before the request. *)
Theorem disk_left_as_found (req : Request) (st : State)
    (temp : temperature_value) (toks : list Z) :
  parse_temperature (temperature req) = Ok temp ->
  parse_suppress_tokens (suppress_tokens req) = Ok toks ->
  let path := tmp_path_of req st in
  let outcome :=
    whisper_model (call_of req st temp toks) (disk_at_call req st) in
  (forall p : string,
     p <> path -> fs (snd (transcribe req st)) !! p = snd outcome !! p) /\
  (snd outcome = disk_at_call req st -> fs st !! path = None ->
   fs (snd (transcribe req st)) = fs st).
Proof.
  intros H1 H2 path outcome.
  rewrite (transcribe_run whisper_model splitext temp_name t0 t1 req st
             temp toks H1 H2). cbn zeta.
  fold path. fold outcome. destruct outcome as [out disk]. cbn [fst snd].
  split.
  - intros p Hp. destruct (disk !! path);
      [destruct out as [e|segs [e|] info]|]; cbn [snd fs];
      try reflexivity; now apply lookup_delete_ne.
  - intros -> Hfree. unfold Server.disk_at_call. fold path.
    rewrite lookup_insert_eq.
    destruct out as [e|segs [e|] info]; cbn [snd fs];
      now apply delete_insert_id.
Qed.

(** X6. The engine receives the form: once the two text fields have
    parsed, the one call the handler makes carries every decoding field of
    the form under its keyword, as given, with the task [transcribe], the
    prompt as [initial_prompt], and the two parsed fields; the [model]
    field of the form is not passed, and the handler does the same
    whatever it holds. *)
Theorem engine_receives_the_form (req : Request) (st : State) :
  match parse_temperature (temperature req),
        parse_suppress_tokens (suppress_tokens req) with
  | Ok temp, Ok toks =>
      calls_made req st =
        [ {| kw_path := tmp_path_of req st;
             kw_language := language req;
             kw_task := "transcribe";
             kw_beam_size := beam_size req;
             kw_best_of := best_of req;
             kw_patience := patience req;
             kw_length_penalty := length_penalty req;
             kw_repetition_penalty := repetition_penalty req;
             kw_no_repeat_ngram_size := no_repeat_ngram_size req;
             kw_temperature := temp;
             kw_compression_ratio_threshold :=
               compression_ratio_threshold req;
             kw_log_prob_threshold := log_prob_threshold req;
             kw_no_speech_threshold := no_speech_threshold req;
             kw_condition_on_previous_text := condition_on_previous_text req;
             kw_prompt_reset_on_temperature :=
               prompt_reset_on_temperature req;
             kw_initial_prompt := prompt req;
             kw_suppress_blank := suppress_blank req;
             kw_suppress_tokens := toks;
             kw_max_new_tokens := max_new_tokens req;
             kw_max_initial_timestamp := max_initial_timestamp req;
             kw_word_timestamps := resolve_want_words req;
             kw_without_timestamps := without_timestamps req;
             kw_hallucination_silence_threshold :=
               hallucination_silence_threshold req;
             kw_hotwords := hotwords req;
             kw_vad_filter := vad_filter req;
             kw_vad_parameters := build_vad_params req |} ]
  | _, _ => calls_made req st = []
  end /\
  (forall m : string, transcribe (Wire.with_model m req) st = transcribe req st).
Proof.
  split; [|reflexivity].
  destruct (calls_made_spec whisper_model splitext temp_name t0 t1 req st)
    as [_ ->].
  destruct (parse_temperature (temperature req));
    [destruct (parse_suppress_tokens (suppress_tokens req))|]; reflexivity.
Qed.

(** ** The words of a response *)




(** ** Subtitles, served *)

Lemma segments_to_vtt_of_segments (want_words : bool)
    (segs : list Segment) :
  Forall (fun seg => Spec.sized 946 (seg_start seg) /\
                     Spec.sized 946 (seg_end seg)) segs ->
  exists out, segments_to_vtt (map (seg_dict want_words) segs) = Ok out.
Proof.
  intros H. unfold segments_to_vtt.
  assert (Hr : Forall Spec.renderable (map (seg_dict want_words) segs)).
  { induction H as [|seg rest [Hs He] _ IH]; constructor;
      [now apply seg_dict_renderable|exact IH]. }
  destruct (vtt_lines_returns _ Hr) as (ls & ->). cbn [bind]. eauto.
Qed.

(** X8. Subtitles are served: when the engine has yielded its segments
    and every start and end is a finite float below [2^946] seconds in
    magnitude, a request for [srt] or for [vtt] is answered, as plain
    text, with the document of the segment objects; no timestamp can make
    the rendering raise. *)
Theorem subtitles_are_served (req : Request) (st : State)
    (temp : temperature_value) (toks : list Z) (segs : list Segment)
    (info : Info) (disk : gmap string string) :
  parse_temperature (temperature req) = Ok temp ->
  parse_suppress_tokens (suppress_tokens req) = Ok toks ->
  whisper_model (call_of req st temp toks) (disk_at_call req st) =
    (Generates segs None info, disk) ->
  is_Some (disk !! tmp_path_of req st) ->
  Forall (fun seg => Spec.sized 946 (seg_start seg) /\
                     Spec.sized 946 (seg_end seg)) segs ->
  let objects := map (seg_dict (resolve_want_words req)) segs in
  (response_format req = "srt" ->
   exists body,
     segments_to_srt objects = Ok body /\
     fst (transcribe req st) = Ok (PlainTextResponse body "text/plain")) /\
  (response_format req = "vtt" ->
   exists body,
     segments_to_vtt objects = Ok body /\
     fst (transcribe req st) = Ok (PlainTextResponse body "text/plain")).
Proof.
  intros H1 H2 Hrun [data Hdata] Hsized objects.
  rewrite (transcribe_run whisper_model splitext temp_name t0 t1 req st
             temp toks H1 H2). cbn zeta.
  rewrite Hrun, Hdata. cbn [fst]. unfold render.
  cbn [result_segments Server.consume]. fold objects.
  split; intros ->; cbn [String.eqb Ascii.eqb Bool.eqb].
  - destruct (segments_to_srt_of_segments (resolve_want_words req) segs
                Hsized) as (body & Hbody).
    fold objects in Hbody. exists body. now rewrite Hbody.
  - destruct (segments_to_vtt_of_segments (resolve_want_words req) segs
                Hsized) as (body & Hbody).
    fold objects in Hbody. exists body. now rewrite Hbody.
Qed.

End HandlerAlso.

Section HandlerAlsoRuns.

(** The sample upload, transcribed by an engine that leaves the disk
    alone: the empty disk is empty again. *)
Lemma disk_left_as_found_witness :
  fs (snd (Sample.run Sample.steady Sample.upload)) = fs Sample.idle.
Proof.
  refine (proj2 (disk_left_as_found Sample.steady Sample.any_splitext
            Sample.any_temp_name Sample.clock0 Sample.clock1 Sample.upload
            Sample.idle Sample.ladder Sample.no_tokens
            (proj1 (upload_parses "json")) (proj2 (upload_parses "json")))
            eq_refl _).
  apply lookup_empty.
Defined.

(** The two sample segments, served as SRT. *)
Lemma subtitles_are_served_witness :
  exists body,
    segments_to_srt (map (seg_dict false) [Sample.hello; Sample.world]) =
      Ok body /\
    fst (Sample.run Sample.steady
           (with_response_format "srt" Sample.upload)) =
      Ok (PlainTextResponse body "text/plain").
Proof.
  refine (proj1 (subtitles_are_served Sample.steady Sample.any_splitext
            Sample.any_temp_name Sample.clock0 Sample.clock1
            (with_response_format "srt" Sample.upload) Sample.idle
            Sample.ladder Sample.no_tokens [Sample.hello; Sample.world]
            Sample.english _
            (proj1 (upload_parses "srt")) (proj2 (upload_parses "srt"))
            eq_refl _ _) eq_refl).
  - exists "RIFF". apply lookup_insert_eq.
  - repeat constructor; try exact I; vm_compute; discriminate.
Defined.

Example subtitles_served_sample :
  fst (Sample.run Sample.steady
         (with_response_format "vtt" Sample.upload)) =
    Ok (PlainTextResponse
          (join nl [ "WEBVTT"; "";
                     "00:00:00.000 --> 00:00:01.500"; "hello"; "";
                     "00:00:01.500 --> 00:00:02.250"; "world"; "" ])
          "text/plain").
Proof. vm_compute. reflexivity. Qed.

End HandlerAlsoRuns.

(* ===================================================================== *)
(** * Floats as exact numbers: the clock of a time *)
(* ===================================================================== *)

Section ExactRounding.

Lemma fexp_eq (z : Z) : fexp prec emax z = Z.max (z - 53) (-1074).
Proof. unfold fexp, SpecFloat.emin, prec, emax. zfold. lia. Qed.

Lemma valid_finite (s : bool) (m : positive) (e : Z) :
  Exact.valid (S754_finite s m e) = true <->
  fexp prec emax (Zdigits2 (Zpos m) + e) = e /\ e <= 971.
Proof.
  unfold Exact.valid, valid_binary, bounded, canonical_mantissa.
  rewrite andb_true_iff, Z.eqb_eq, Z.leb_le. unfold emax, prec at 2.
  zfold. cbn [Zdigits2]. lia.
Qed.

(** Nothing is shifted out of a mantissa that is short enough. *)
Lemma shr_fexp_short (m e : Z) (l : location) :
  fexp prec emax (Zdigits2 m + e) <= e ->
  shr_fexp prec emax m e l = (shr_record_of_loc m l, e).
Proof.
  intros H. unfold shr_fexp, shr. zfold.
  destruct (fexp prec emax (Zdigits2 m + e) - e) eqn:E; try reflexivity. lia.
Qed.

(** Rounding a number that needs no rounding. *)
Lemma binary_round_aux_short (s : bool) (m : positive) (e : Z) :
  fexp prec emax (Zdigits2 (Zpos m) + e) <= e -> e <= 971 ->
  binary_round_aux prec emax s (Zpos m) e loc_Exact = S754_finite s m e.
Proof.
  intros H He. unfold binary_round_aux.
  rewrite shr_fexp_short by assumption.
  cbn [shr_record_of_loc shr_m loc_of_shr_record round_nearest_even].
  rewrite shr_fexp_short by assumption.
  cbn [shr_record_of_loc shr_m].
  replace (IntDef.Z.leb e (IntDef.Z.sub emax prec)) with true; [reflexivity|].
  symmetry. apply Z.leb_le. unfold emax, prec. zfold. lia.
Qed.

Lemma shr_1_even (j : Z) :
  0 <= j ->
  shr_1 {| shr_m := 2 * j; shr_r := false; shr_s := false |} =
    {| shr_m := j; shr_r := false; shr_s := false |}.
Proof. destruct j as [|p|p]; [reflexivity|reflexivity|lia]. Qed.

(** Shifting out zeros leaves an exact mantissa. *)
Lemma iter_pos_shr_exact (p : positive) : forall k : Z,
  0 <= k ->
  SpecFloat.iter_pos shr_1 p
    {| shr_m := k * 2 ^ Zpos p; shr_r := false; shr_s := false |} =
    {| shr_m := k; shr_r := false; shr_s := false |}.
Proof.
  induction p as [p IH|p IH|]; intros k Hk; cbn [SpecFloat.iter_pos].
  - rewrite pow2_xI.
    replace (k * (2 * (2 ^ Zpos p * 2 ^ Zpos p)))
      with (2 * (k * 2 ^ Zpos p * 2 ^ Zpos p)) by ring.
    assert (0 <= 2 ^ Zpos p) by (apply Z.pow_nonneg; lia).
    rewrite shr_1_even by nia.
    rewrite IH by nia. now rewrite IH.
  - rewrite pow2_xO.
    replace (k * (2 ^ Zpos p * 2 ^ Zpos p))
      with (k * 2 ^ Zpos p * 2 ^ Zpos p) by ring.
    assert (0 <= 2 ^ Zpos p) by (apply Z.pow_nonneg; lia).
    rewrite IH by nia. now rewrite IH.
  - change (2 ^ 1) with 2. rewrite Z.mul_comm. now apply shr_1_even.
Qed.

(** Rounding a number whose low digits are zeros. *)
Lemma binary_round_aux_exact (s : bool) (k : positive) (n e : Z) :
  0 <= n ->
  fexp prec emax (Zdigits2 (Zpos k) + n + e) = e + n -> e + n <= 971 ->
  binary_round_aux prec emax s (Zpos k * 2 ^ n) e loc_Exact =
    S754_finite s k (e + n).
Proof.
  intros Hn HF He.
  destruct n as [|p|p]; [| |lia].
  - rewrite Z.pow_0_r, Z.mul_1_r, Z.add_0_r in *.
    apply binary_round_aux_short; [lia|assumption].
  - assert (Hp : 0 < 2 ^ Zpos p) by (apply Z.pow_pos_nonneg; lia).
    assert (Hd : Zdigits2 (Zpos k * 2 ^ Zpos p) = Zdigits2 (Zpos k) + Zpos p)
      by (apply Zdigits2_mul_pow2; lia).
    unfold binary_round_aux, shr_fexp at 1, shr. zfold.
    rewrite Hd.
    replace (Zdigits2 (Zpos k) + Zpos p + e)
      with (Zdigits2 (Zpos k) + Zpos p + e) by reflexivity.
    rewrite HF. replace (e + Zpos p - e) with (Zpos p) by lia.
    cbn [shr_record_of_loc]. rewrite iter_pos_shr_exact by lia.
    cbn [shr_m loc_of_shr_record round_nearest_even].
    rewrite shr_fexp_short.
    2:{ replace (Zdigits2 (Zpos k) + (e + Zpos p))
          with (Zdigits2 (Zpos k) + Zpos p + e) by lia. lia. }
    cbn [shr_record_of_loc shr_m].
    replace (IntDef.Z.leb (e + Zpos p) (IntDef.Z.sub emax prec)) with true;
      [reflexivity|].
    symmetry. apply Z.leb_le. unfold emax, prec. zfold. lia.
Qed.

(** [binary_round] is exact on what a float can hold: the result is the
    float of the canonical exponent with the same value. *)
Lemma binary_round_exact (s : bool) (p : positive) (e : Z) :
  let F := fexp prec emax (Zdigits2 (Zpos p) + e) in
  -1074 <= e -> F <= 971 ->
  (e < F -> (Zpos p) mod 2 ^ (F - e) = 0) ->
  exists m' : positive,
    binary_round prec emax s p e = S754_finite s m' F /\
    Zpos m' * 2 ^ (F + 1074) = Zpos p * 2 ^ (e + 1074) /\
    Exact.valid (S754_finite s m' F) = true.
Proof.
  intros F He HF Hdiv. unfold binary_round.
  change (Zpos (digits2_pos p)) with (Zdigits2 (Zpos p)). zfold. fold F.
  pose proof (shl_align_spec p e F) as (A1 & A2 & A3).
  assert (HF0 : -1074 <= F) by apply fexp_ge.
  destruct (shl_align p e F) as [mz ez]. cbn [fst snd] in *.
  destruct (Z.le_gt_cases F e) as [Hle|Hgt].
  - (* aligned to the canonical exponent *)
    assert (Hez : ez = F) by lia. clear A1. subst ez.
    exists mz. split; [|split].
    + apply binary_round_aux_short; [|assumption].
      rewrite A3. fold F. lia.
    + rewrite A2. rewrite <- Z.mul_assoc, <- Z.pow_add_r by lia.
      f_equal. f_equal. lia.
    + apply valid_finite. rewrite A3. fold F. split; [reflexivity|lia].
  - (* low zeros shifted out *)
    assert (Hez : ez = e) by lia. clear A1. subst ez.
    replace (e - e) with 0 in A2 by lia. rewrite Z.pow_0_r, Z.mul_1_r in A2.
    rewrite A2. specialize (Hdiv Hgt).
    apply Z.mod_divide in Hdiv; [|apply Z.pow_nonzero; lia].
    destruct Hdiv as [k Hk].
    assert (Hp : 0 < 2 ^ (F - e)) by (apply Z.pow_pos_nonneg; lia).
    assert (Hk0 : 0 < k) by nia.
    destruct k as [|k|k]; try lia.
    exists k. rewrite Hk.
    assert (Hd : Zdigits2 (Zpos p) = Zdigits2 (Zpos k) + (F - e)).
    { rewrite Hk. apply Zdigits2_mul_pow2; lia. }
    assert (HFk : fexp prec emax (Zdigits2 (Zpos k) + (F - e) + e) = e + (F - e)).
    { rewrite <- Hd. fold F. lia. }
    split; [|split].
    + rewrite (binary_round_aux_exact s k (F - e) e) by lia.
      f_equal. lia.
    + rewrite <- Z.mul_assoc, <- Z.pow_add_r by lia. f_equal. f_equal. lia.
    + apply valid_finite. split; [|lia].
      replace (Zdigits2 (Zpos k) + F) with (Zdigits2 (Zpos k) + (F - e) + e)
        by lia.
      rewrite HFk. lia.
Qed.

End ExactRounding.

Section ExactValues.

Lemma valid_exponent (s : bool) (m : positive) (e : Z) :
  Exact.valid (S754_finite s m e) = true ->
  -1074 <= e <= 971 /\ Zdigits2 (Zpos m) <= 53.
Proof.
  intros H. apply valid_finite in H as [H He]. rewrite fexp_eq in H. lia.
Qed.

Lemma units_digits (m : positive) (e : Z) :
  -1074 <= e ->
  Zdigits2 (Zpos m * 2 ^ (e + 1074)) = Zdigits2 (Zpos m) + (e + 1074).
Proof. intros He. apply Zdigits2_mul_pow2; lia. Qed.

Lemma units_pos (m : positive) (e : Z) :
  -1074 <= e -> 0 < Zpos m * 2 ^ (e + 1074).
Proof.
  intros He. apply Z.mul_pos_pos; [lia|]. apply Z.pow_pos_nonneg; lia.
Qed.

(** A value has one float. *)
Lemma canonical_unique (s s' : bool) (m m' : positive) (e e' : Z) :
  Exact.valid (S754_finite s m e) = true ->
  Exact.valid (S754_finite s' m' e') = true ->
  Zpos m * 2 ^ (e + 1074) = Zpos m' * 2 ^ (e' + 1074) ->
  m = m' /\ e = e'.
Proof.
  intros H H' Hv.
  pose proof (valid_exponent _ _ _ H) as [He _].
  pose proof (valid_exponent _ _ _ H') as [He' _].
  apply valid_finite in H as [H _]. apply valid_finite in H' as [H' _].
  assert (Hd : Zdigits2 (Zpos m) + e = Zdigits2 (Zpos m') + e').
  { pose proof (units_digits m e ltac:(lia)) as D.
    pose proof (units_digits m' e' ltac:(lia)) as D'.
    rewrite Hv in D. lia. }
  rewrite Hd in H. assert (e = e') by lia. subst e'.
  split; [|reflexivity].
  assert (0 < 2 ^ (e + 1074)) by (apply Z.pow_pos_nonneg; lia).
  nia.
Qed.

(** What [Exact.seconds_below] says of a float. *)
Lemma seconds_below_inv (n : Z) (x : float) :
  Exact.seconds_below n x ->
  x = S754_zero false \/
  exists (m : positive) (e : Z),
    x = S754_finite false m e /\
    Exact.valid (S754_finite false m e) = true /\
    Zpos m * 2 ^ (e + 1074) < n * Exact.unit.
Proof.
  intros (Hv & Hf & Hs & Hu).
  destruct x as [s|s| |s m e]; try discriminate.
  - left. cbn in Hs. now subst s.
  - right. cbn in Hs. subst s. exists m, e. repeat split; assumption.
Qed.

Lemma seconds_below_units (n : Z) (x : float) :
  Exact.seconds_below n x -> 0 <= Exact.units x < n * Exact.unit.
Proof.
  intros H. pose proof H as (_ & _ & _ & Hu).
  apply seconds_below_inv in H as [->|(m & e & -> & Hv & Hlt)].
  - cbn in *. lia.
  - pose proof (valid_exponent _ _ _ Hv) as [He _].
    pose proof (units_pos m e ltac:(lia)). cbn [Exact.units cond_Zopp] in *.
    lia.
Qed.

(** ** The floats that are integers *)

Lemma of_int_mantissa (k : Z) :
  0 < k < 2 ^ 53 ->
  1 <= Zdigits2 k <= 53 /\
  Zpos (Z.to_pos (k * 2 ^ (53 - Zdigits2 k))) = k * 2 ^ (53 - Zdigits2 k) /\
  Zdigits2 (k * 2 ^ (53 - Zdigits2 k)) = 53.
Proof.
  intros Hk.
  assert (Hd : 1 <= Zdigits2 k <= 53).
  { split.
    - destruct k; cbn; lia.
    - apply Zdigits2_le; lia. }
  assert (0 < 2 ^ (53 - Zdigits2 k)) by (apply Z.pow_pos_nonneg; lia).
  split; [exact Hd|]. split.
  - apply Z2Pos.id. nia.
  - rewrite Zdigits2_mul_pow2 by lia. lia.
Qed.

Lemma of_int_valid (k : Z) :
  0 < k < 2 ^ 53 -> Exact.valid (Exact.of_int k) = true.
Proof.
  intros Hk. destruct (of_int_mantissa k Hk) as (Hd & Hm & Hdm).
  apply valid_finite. rewrite Hm, Hdm, fexp_eq. lia.
Qed.

Lemma of_int_units (k : Z) :
  0 < k < 2 ^ 53 -> Exact.units (Exact.of_int k) = k * Exact.unit.
Proof.
  intros Hk. destruct (of_int_mantissa k Hk) as (Hd & Hm & Hdm).
  unfold Exact.of_int, Exact.units, Exact.unit. cbn [cond_Zopp].
  rewrite Hm, <- Z.mul_assoc, <- Z.pow_add_r by lia. f_equal. f_equal. lia.
Qed.

(** The float of a value that is an integer. *)
Lemma of_int_unique (m : positive) (e k : Z) :
  0 < k < 2 ^ 53 ->
  Exact.valid (S754_finite false m e) = true ->
  Zpos m * 2 ^ (e + 1074) = k * Exact.unit ->
  S754_finite false m e = Exact.of_int k.
Proof.
  intros Hk Hv Hu.
  pose proof (of_int_valid k Hk) as Hv'.
  pose proof (of_int_units k Hk) as Hu'.
  unfold Exact.of_int in *. cbn [Exact.units cond_Zopp] in Hu'.
  rewrite <- Hu in Hu'.
  destruct (canonical_unique _ _ _ _ _ _ Hv' Hv Hu') as [-> ->].
  reflexivity.
Qed.

(** [int(x)] is the whole part of [x]. *)
Lemma int_of_float_units (n : Z) (x : float) :
  Exact.seconds_below n x ->
  int_of_float x = Ok (Exact.units x / Exact.unit).
Proof.
  intros H. apply seconds_below_inv in H as [->|(m & e & -> & Hv & _)].
  - reflexivity.
  - pose proof (valid_exponent _ _ _ Hv) as [He _].
    cbn [int_of_float Exact.units cond_Zopp]. f_equal. unfold Exact.unit.
    destruct e as [|p|p].
    + rewrite Z.shiftl_0_r. cbn [Z.add].
      rewrite Z.div_mul; [reflexivity|]. apply Z.pow_nonzero; lia.
    + rewrite Z.shiftl_mul_pow2 by lia.
      rewrite Z.pow_add_r by lia. rewrite Z.mul_assoc.
      rewrite Z.div_mul; [reflexivity|]. apply Z.pow_nonzero; lia.
    + rewrite Z.shiftr_div_pow2 by lia.
      replace (2 ^ 1074) with (2 ^ Zpos p * 2 ^ (Zneg p + 1074))
        by (rewrite <- Z.pow_add_r by lia; f_equal; lia).
      rewrite Z.div_mul_cancel_r; [reflexivity| |];
        apply Z.pow_nonzero; lia.
Qed.

(** ** The remainder *)

Lemma fmod_exact (mx my : positive) (ex ey : Z) :
  Exact.valid (S754_finite false mx ex) = true ->
  Exact.valid (S754_finite false my ey) = true ->
  let X := Zpos mx * 2 ^ (ex + 1074) in
  let Y := Zpos my * 2 ^ (ey + 1074) in
  Exact.seconds_below (Y / Exact.unit + 1)
    (fmod (S754_finite false mx ex) (S754_finite false my ey)) /\
  Exact.units (fmod (S754_finite false mx ex) (S754_finite false my ey)) =
    X mod Y.
Proof.
  intros Hx Hy X Y.
  pose proof (valid_exponent _ _ _ Hx) as [Hex Hdx].
  pose proof (valid_exponent _ _ _ Hy) as [Hey Hdy].
  cbn [fmod]. cbv zeta.
  set (e := Z.min ex ey).
  rewrite !Z.shiftl_mul_pow2 by (subst e; lia).
  set (a := Zpos mx * 2 ^ (ex - e)). set (b := Zpos my * 2 ^ (ey - e)).
  assert (Ha : 0 < a).
  { apply Z.mul_pos_pos; [lia|]. apply Z.pow_pos_nonneg; subst e; lia. }
  assert (Hb : 0 < b).
  { apply Z.mul_pos_pos; [lia|]. apply Z.pow_pos_nonneg; subst e; lia. }
  assert (Hp : 0 < 2 ^ (e + 1074))
    by (apply Z.pow_pos_nonneg; subst e; lia).
  assert (HX : X = a * 2 ^ (e + 1074)).
  { subst X a. rewrite <- Z.mul_assoc, <- Z.pow_add_r by (subst e; lia).
    f_equal. f_equal. lia. }
  assert (HY : Y = b * 2 ^ (e + 1074)).
  { subst Y b. rewrite <- Z.mul_assoc, <- Z.pow_add_r by (subst e; lia).
    f_equal. f_equal. lia. }
  assert (HR : X mod Y = (a mod b) * 2 ^ (e + 1074)).
  { rewrite HX, HY. rewrite Z.mul_mod_distr_r by lia. reflexivity. }
  pose proof (Z.mod_pos_bound a b Hb) as HRb.
  assert (HYu : Y < (Y / Exact.unit + 1) * Exact.unit).
  { pose proof (Z.div_mod Y Exact.unit ltac:(unfold Exact.unit; lia)).
    pose proof (Z.mod_pos_bound Y Exact.unit
                  ltac:(unfold Exact.unit; lia)). lia. }
  cbn [cond_Zopp].
  destruct (a mod b) as [|r|r] eqn:Er; [| |lia].
  - cbn [binary_normalize]. split; [|now rewrite HR].
    repeat split. cbn [Exact.units]. nia.
  - cbn [binary_normalize].
    assert (Hdr : Zdigits2 (Zpos r) <= 53).
    { destruct (Z.le_gt_cases ey ex).
      - assert (b = Zpos my).
        { subst b e. rewrite Z.min_r by lia.
          replace (ey - ey) with 0 by lia. rewrite Z.pow_0_r. lia. }
        transitivity (Zdigits2 (Zpos my)); [|assumption].
        apply Zdigits2_mono. lia.
      - assert (a = Zpos mx).
        { subst a e. rewrite Z.min_l by lia.
          replace (ex - ex) with 0 by lia. rewrite Z.pow_0_r. lia. }
        pose proof (Z.mod_le a b ltac:(lia) Hb).
        transitivity (Zdigits2 (Zpos mx)); [|assumption].
        apply Zdigits2_mono. lia. }
    assert (HF : fexp prec emax (Zdigits2 (Zpos r) + e) <= e)
      by (rewrite fexp_eq; subst e; lia).
    destruct (binary_round_exact false r e) as (m' & -> & Hm' & Hv');
      [subst e; lia|subst e; lia|lia|].
    split.
    + split; [exact Hv'|]. split; [reflexivity|]. split; [reflexivity|].
      cbn [Exact.units cond_Zopp]. rewrite Hm'. nia.
    + cbn [Exact.units cond_Zopp]. rewrite Hm', HR. reflexivity.
Qed.

End ExactValues.

Section ExactOperations.

Lemma seconds_below_mono (n n' : Z) (x : float) :
  n <= n' -> Exact.seconds_below n x -> Exact.seconds_below n' x.
Proof.
  intros Hn (Hv & Hf & Hs & Hu). repeat split; try assumption.
  unfold Exact.unit in *.
  assert (0 < 2 ^ 1074) by (apply Z.pow_pos_nonneg; lia). nia.
Qed.

Lemma units_zero (n : Z) (x : float) :
  Exact.seconds_below n x -> Exact.units x = 0 -> x = S754_zero false.
Proof.
  intros H Hu. apply seconds_below_inv in H as [->|(m & e & -> & Hv & _)];
    [reflexivity|].
  pose proof (valid_exponent _ _ _ Hv) as [He _].
  pose proof (units_pos m e ltac:(lia)).
  cbn [Exact.units cond_Zopp] in Hu. lia.
Qed.

Lemma unit_pos : 0 < Exact.unit.
Proof. unfold Exact.unit. apply Z.pow_pos_nonneg; lia. Qed.

(** ** The difference *)

Lemma fsub_exact (n : Z) (x y : float) :
  Exact.seconds_below n x -> Exact.seconds_below n y ->
  Exact.units y <= Exact.units x ->
  let D := Exact.units x - Exact.units y in
  let F := fexp prec emax (Zdigits2 D - 1074) in
  (0 < D -> F <= 971 /\ D mod 2 ^ (F + 1074) = 0) ->
  Exact.seconds_below n (fsub x y) /\ Exact.units (fsub x y) = D.
Proof.
  intros Hx Hy Hle D F Hrep.
  pose proof (seconds_below_units n x Hx) as HXb.
  pose proof (seconds_below_units n y Hy) as HYb.
  pose proof Hx as Hx'. pose proof Hy as Hy'.
  apply seconds_below_inv in Hx' as [->|(mx & ex & -> & Hvx & Hltx)];
    apply seconds_below_inv in Hy' as [->|(my & ey & -> & Hvy & Hlty)].
  - split; [exact Hx|reflexivity].
  - exfalso. pose proof (valid_exponent _ _ _ Hvy) as [He _].
    pose proof (units_pos my ey ltac:(lia)).
    cbn [Exact.units cond_Zopp] in Hle. lia.
  - split; [exact Hx|]. subst D. unfold fsub.
    cbn [SFsub Exact.units cond_Zopp]. lia.
  - pose proof (valid_exponent _ _ _ Hvx) as [Hex _].
    pose proof (valid_exponent _ _ _ Hvy) as [Hey _].
    unfold fsub. cbn [SFsub]. cbv zeta. zfold.
    set (ez := Z.min ex ey).
    pose proof (shl_align_spec mx ex ez) as (A1 & A2 & _).
    pose proof (shl_align_spec my ey ez) as (B1 & B2 & _).
    destruct (shl_align mx ex ez) as [mX eX].
    destruct (shl_align my ey ez) as [mY eY].
    cbn [fst snd cond_Zopp] in *.
    assert (HeX : eX = ez) by (subst ez; lia).
    assert (HeY : eY = ez) by (subst ez; lia).
    clear A1 B1. subst eX eY.
    assert (Hp : 0 < 2 ^ (ez + 1074))
      by (apply Z.pow_pos_nonneg; subst ez; lia).
    assert (HM : (Zpos mX - Zpos mY) * 2 ^ (ez + 1074) = D).
    { subst D. cbn [Exact.units cond_Zopp]. rewrite A2, B2.
      rewrite Z.mul_sub_distr_r.
      rewrite <- !Z.mul_assoc, <- !Z.pow_add_r by (subst ez; lia).
      f_equal; f_equal; f_equal; lia. }
    assert (HD : 0 <= D) by (subst D; lia).
    destruct (Zpos mX - Zpos mY) as [|p|p] eqn:EM; [| |nia].
    + cbn [binary_normalize]. split; [|cbn [Exact.units]; lia].
      repeat split. cbn [Exact.units].
      pose proof unit_pos. nia.
    + cbn [binary_normalize].
      assert (HDp : 0 < D) by nia. destruct (Hrep HDp) as [HF Hdiv].
      assert (HdD : Zdigits2 D = Zdigits2 (Zpos p) + (ez + 1074)).
      { rewrite <- HM. apply Zdigits2_mul_pow2; subst ez; lia. }
      assert (HFp : fexp prec emax (Zdigits2 (Zpos p) + ez) = F).
      { subst F. f_equal. lia. }
      destruct (binary_round_exact false p ez) as (m' & -> & Hm' & Hv').
      * subst ez; lia.
      * now rewrite HFp.
      * rewrite HFp. intros Hlt.
        assert (Hq : 0 < 2 ^ (F - ez)) by (apply Z.pow_pos_nonneg; lia).
        assert (E : 2 ^ (F + 1074) = 2 ^ (F - ez) * 2 ^ (ez + 1074)).
        { rewrite <- Z.pow_add_r by (subst ez; lia). f_equal. lia. }
        rewrite E, <- HM, Z.mul_mod_distr_r in Hdiv by lia. nia.
      * rewrite HFp in *. split.
        -- split; [exact Hv'|]. split; [reflexivity|].
           split; [reflexivity|].
           cbn [Exact.units cond_Zopp]. rewrite Hm', HM. lia.
        -- cbn [Exact.units cond_Zopp]. now rewrite Hm', HM.
Qed.

(** ** The quotient, when it is an integer *)

Ltac zfold2 :=
  zfold;
  change IntDef.Z.div_eucl with Z.div_eucl in *;
  change IntDef.Z.shiftl with Z.shiftl in *;
  change IntDef.Z.even with Z.even in *;
  change IntDef.Z.eqb with Z.eqb in *;
  change IntDef.Z.compare with Z.compare in *.

Lemma new_location_exact (m : Z) : new_location m 0 = loc_Exact.
Proof. unfold new_location. destruct (IntDef.Z.even m); reflexivity. Qed.

Lemma fdiv_exact (mD my : positive) (eD ey k : Z) :
  Exact.valid (S754_finite false mD eD) = true ->
  Exact.valid (S754_finite false my ey) = true ->
  0 < k < 2 ^ 53 ->
  Zpos mD * 2 ^ (eD + 1074) = k * (Zpos my * 2 ^ (ey + 1074)) ->
  fdiv (S754_finite false mD eD) (S754_finite false my ey) = Exact.of_int k.
Proof.
  intros HvD Hvy Hk Hu.
  pose proof (valid_exponent _ _ _ HvD) as [HeD _].
  pose proof (valid_exponent _ _ _ Hvy) as [Hey _].
  destruct (of_int_mantissa k Hk) as (Hdk & Hmk & Hdmk).
  unfold fdiv. cbn [SFdiv]. unfold SFdiv_core_binary. cbv zeta. zfold2.
  set (d1 := Zdigits2 (Zpos mD)). set (d2 := Zdigits2 (Zpos my)).
  set (e' := Z.min (fexp prec emax (d1 + eD - (d2 + ey))) (eD - ey)).
  (* the quotient of the magnitudes *)
  assert (Hmag : d1 + eD - (d2 + ey) <= Zdigits2 k).
  { pose proof (units_digits mD eD ltac:(lia)) as D1.
    pose proof (units_digits my ey ltac:(lia)) as D2.
    pose proof (units_pos my ey ltac:(lia)) as Hy0.
    pose proof (Zdigits2_mul k (Zpos my * 2 ^ (ey + 1074))
                  ltac:(lia) ltac:(lia)) as Hm.
    rewrite <- Hu, D1, D2 in Hm. subst d1 d2. lia. }
  assert (He' : e' <= Zdigits2 k - 53).
  { subst e'. rewrite fexp_eq. lia. }
  assert (He'' : e' <= eD - ey) by (subst e'; lia).
  set (s := eD - ey - e').
  assert (Hs : 0 <= s) by (subst s; lia).
  set (m' := match s with 0 => Zpos mD | Zpos _ => Z.shiftl (Zpos mD) s
             | Zneg _ => 0 end).
  assert (Hm' : m' = Zpos mD * 2 ^ s).
  { subst m'. destruct s as [|p|p] eqn:Es; [cbn; lia| |lia].
    now rewrite Z.shiftl_mul_pow2 by lia. }
  assert (Hq : m' = k * 2 ^ (- e') * Zpos my).
  { rewrite Hm'.
    assert (Hp : 0 < 2 ^ (ey + 1074)) by (apply Z.pow_pos_nonneg; lia).
    assert (E1 : Zpos mD * 2 ^ s * 2 ^ (ey + 1074) =
                 Zpos mD * 2 ^ (eD + 1074) * 2 ^ (- e')).
    { rewrite <- !Z.mul_assoc, <- !Z.pow_add_r by lia.
      f_equal. f_equal. subst s. lia. }
    rewrite Hu in E1. nia. }
  destruct (Z.div_eucl m' (Zpos my)) as [q r] eqn:Ediv.
  assert (Hqr : q = k * 2 ^ (- e') /\ r = 0).
  { assert (E : q = m' / Zpos my /\ r = m' mod Zpos my)
      by (unfold Z.div, Z.modulo; rewrite Ediv; split; reflexivity).
    destruct E as [-> ->]. rewrite Hq.
    now rewrite Z.div_mul, Z.mod_mul by lia. }
  destruct Hqr as [-> ->].
  rewrite new_location_exact.
  replace (k * 2 ^ (- e'))
    with (Zpos (Z.to_pos (k * 2 ^ (53 - Zdigits2 k)))
            * 2 ^ (Zdigits2 k - 53 - e')).
  2:{ rewrite Hmk, <- Z.mul_assoc, <- Z.pow_add_r by lia.
      f_equal. f_equal. lia. }
  rewrite binary_round_aux_exact.
  - unfold Exact.of_int. f_equal. lia.
  - lia.
  - rewrite Hmk, Hdmk, fexp_eq. lia.
  - lia.
Qed.

(** ** The floor of an integer *)

Lemma float_of_small_int (q : positive) :
  Zpos q < 2 ^ 53 ->
  binary_round prec emax false q 0 = Exact.of_int (Zpos q).
Proof.
  intros Hq.
  destruct (of_int_mantissa (Zpos q) ltac:(lia)) as (Hd & _ & _).
  destruct (binary_round_exact false q 0) as (m' & -> & Hm' & Hv').
  - lia.
  - rewrite fexp_eq. lia.
  - rewrite fexp_eq. lia.
  - apply of_int_unique; [lia|exact Hv'|].
    rewrite Hm'. unfold Exact.unit. reflexivity.
Qed.

Lemma ffloor_of_int (k : Z) :
  0 < k < 2 ^ 53 -> ffloor (Exact.of_int k) = Exact.of_int k.
Proof.
  intros Hk. destruct (of_int_mantissa k Hk) as (Hd & Hm & _).
  unfold Exact.of_int at 1. cbn [ffloor].
  destruct (Zdigits2 k - 53) as [|p|p] eqn:Ee;
    [unfold Exact.of_int; now rewrite Ee..|].
  cbv beta iota. cbn [cond_Zopp]. rewrite Z.shiftr_div_pow2 by lia.
  rewrite Hm.
  replace (53 - Zdigits2 k) with (Zpos p) by lia.
  rewrite Z.div_mul by (apply Z.pow_nonzero; lia).
  destruct k as [|q|q]; try lia. cbn [binary_normalize].
  apply float_of_small_int. lia.
Qed.

End ExactOperations.

Section ExactDivmod.

(** Rounding keeps the sign. *)
Lemma binary_round_aux_sign (s : bool) (m e : Z) (l : location) :
  0 <= m -> sign_of (binary_round_aux prec emax s m e l) = s.
Proof.
  intros Hm. unfold binary_round_aux.
  pose proof (shr_fexp_sized m e l Hm) as (H1 & _ & _).
  destruct (shr_fexp prec emax m e l) as [mrs1 e1]. cbn [fst snd] in *.
  set (m2 := round_nearest_even (shr_m mrs1) (loc_of_shr_record mrs1)).
  assert (Hm2 : 0 <= m2).
  { subst m2.
    destruct (round_nearest_even_range (shr_m mrs1) (loc_of_shr_record mrs1))
      as [-> | ->]; lia. }
  pose proof (shr_fexp_sized m2 e1 loc_Exact Hm2) as (H4 & _ & _).
  destruct (shr_fexp prec emax m2 e1 loc_Exact) as [mrs2 e2].
  cbn [fst snd] in *.
  destruct (shr_m mrs2) as [|p|p]; [reflexivity| |lia].
  destruct (IntDef.Z.leb e2 (IntDef.Z.sub emax prec)); reflexivity.
Qed.

Lemma fdiv_sign (mx my : positive) (ex ey : Z) :
  sign_of (fdiv (S754_finite false mx ex) (S754_finite false my ey)) = false.
Proof.
  unfold fdiv. cbn [SFdiv].
  pose proof (SFdiv_core_binary_spec mx my ex ey) as H. cbv zeta in H.
  destruct (SFdiv_core_binary prec emax (Zpos mx) ex (Zpos my) ey)
    as [[mz ez] lz].
  cbn [fst snd] in H. destruct H as (H0 & _).
  now apply binary_round_aux_sign.
Qed.

Lemma of_int_below (c : Z) :
  0 < c < 2 ^ 53 -> Exact.seconds_below (c + 1) (Exact.of_int c).
Proof.
  intros Hc. split; [now apply of_int_valid|].
  split; [reflexivity|]. split; [reflexivity|].
  rewrite of_int_units by assumption. pose proof unit_pos. nia.
Qed.

(** [x % c] is the exact remainder, for a time [x] and an integer [c]. *)
Lemma float_mod_exact (n c : Z) (x : float) :
  Exact.seconds_below n x -> 0 < c < 2 ^ 53 ->
  exists r : float,
    float_mod x (Exact.of_int c) = Ok r /\
    Exact.seconds_below c r /\
    Exact.units r = Exact.units x mod (c * Exact.unit).
Proof.
  intros Hx Hc.
  pose proof (of_int_valid c Hc) as Hvy.
  pose proof (of_int_units c Hc) as Huy.
  pose proof unit_pos as HU.
  unfold float_mod.
  change (feq (Exact.of_int c) pzero) with false. cbv iota.
  apply seconds_below_inv in Hx as [->|(m & e & -> & Hv & _)].
  - exists (S754_zero false). split; [reflexivity|]. split.
    + repeat split. cbn [Exact.units]. nia.
    + cbn [Exact.units]. now rewrite Z.mod_0_l by nia.
  - unfold Exact.of_int in *.
    destruct (fmod_exact m _ e _ Hv Hvy) as [Hb Hu]. cbv zeta in Hb, Hu.
    cbn [Exact.units cond_Zopp] in Huy. rewrite Huy in Hu, Hb.
    set (r := fmod _ _) in *.
    assert (Hr : Exact.seconds_below c r).
    { destruct Hb as (B1 & B2 & B3 & _). repeat split; try assumption.
      rewrite Hu. apply Z.mod_pos_bound. nia. }
    exists r. split; [|split; [exact Hr|exact Hu]].
    f_equal.
    apply seconds_below_inv in Hr as [->|(m' & e' & -> & _)]; reflexivity.
Qed.

Lemma fgt_half_zero :
  fgt (S754_zero false) (float_of_ratio false 1 2) = false.
Proof. vm_compute. reflexivity. Qed.

Lemma fsub_self (k : Z) :
  0 < k < 2 ^ 53 ->
  fsub (Exact.of_int k) (Exact.of_int k) = S754_zero false.
Proof.
  intros Hk. pose proof (of_int_below k Hk) as Hb.
  destruct (fsub_exact (k + 1) _ _ Hb Hb ltac:(lia)) as [H1 H2].
  - cbv zeta. lia.
  - cbv zeta in H2. apply (units_zero _ _ H1). lia.
Qed.

(** [x // c] is the whole part of the exact quotient. *)
Lemma float_floordiv_exact (n c : Z) (x : float) :
  Exact.seconds_below n x -> n <= 2 ^ 53 -> 0 < c < 2 ^ 53 ->
  exists q : float,
    float_floordiv x (Exact.of_int c) = Ok q /\
    int_of_float q = Ok (Exact.units x / (c * Exact.unit)).
Proof.
  intros Hx Hn Hc.
  pose proof (of_int_valid c Hc) as Hvy.
  pose proof (of_int_units c Hc) as Huy.
  pose proof (of_int_below c Hc) as Hby.
  pose proof unit_pos as HU.
  pose proof (seconds_below_units n x Hx) as HX.
  unfold float_floordiv, float_divmod.
  change (feq (Exact.of_int c) pzero) with false. cbv iota zeta.
  pose proof Hx as Hx'.
  apply seconds_below_inv in Hx' as [->|(m & e & -> & Hv & Hlt)].
  - exists (S754_zero false). split; [reflexivity|].
    cbn [Exact.units int_of_float]. now rewrite Z.div_0_l by nia.
  - set (x := S754_finite false m e) in *.
    set (y := Exact.of_int c) in *.
    set (X := Exact.units x) in *. set (Y := c * Exact.unit) in *.
    assert (HY : 0 < Y) by (subst Y; nia).
    (* the remainder *)
    destruct (fmod_exact m (Z.to_pos (c * 2 ^ (53 - Zdigits2 c))) e
                (Zdigits2 c - 53) Hv Hvy) as [Hb Hu].
    cbv zeta in Hb, Hu. fold x in Hb, Hu.
    change (S754_finite false (Z.to_pos (c * 2 ^ (53 - Zdigits2 c)))
              (Zdigits2 c - 53)) with y in Hb, Hu.
    unfold y, Exact.of_int in Huy. cbn [Exact.units cond_Zopp] in Huy.
    rewrite Huy in Hu, Hb. fold Y in Hu, Hb.
    change (Zpos m * 2 ^ (e + 1074)) with X in Hu.
    set (mod0 := fmod x y) in *.
    pose proof (Z.mod_pos_bound X Y HY) as Hmod.
    pose proof (Z.div_mod X Y ltac:(lia)) as HXY.
    set (k := X / Y) in *.
    assert (Hk : 0 <= k) by (apply Z.div_pos; lia).
    assert (Hck : c * k < 2 ^ 53).
    { assert (c * k * Exact.unit <= X) by (subst Y; nia).
      assert (X < 2 ^ 53 * Exact.unit) by nia. nia. }
    set (N := n + c + 2).
    assert (HxN : Exact.seconds_below N x)
      by (apply (seconds_below_mono n); [subst N; lia|exact Hx]).
    assert (HmN : Exact.seconds_below N mod0).
    { destruct Hb as (B1 & B2 & B3 & _). repeat split; try assumption.
      rewrite Hu. subst N Y. nia. }
    (* the difference *)
    destruct (fsub_exact N x mod0 HxN HmN) as [Hd Hdu].
    { rewrite Hu. fold X. lia. }
    { cbv zeta. rewrite Hu. fold X.
      replace (X - X mod Y) with (c * k * 2 ^ 1074)
        by (subst Y; unfold Exact.unit in *; lia).
      intros HD.
      assert (Hck0 : 0 < c * k).
      { assert (0 < 2 ^ 1074) by (apply Z.pow_pos_nonneg; lia). nia. }
      destruct (of_int_mantissa (c * k) ltac:(lia)) as (Hdck & _ & _).
      rewrite (Zdigits2_mul_pow2 (c * k) 1074) by lia.
      rewrite fexp_eq. split; [lia|].
      replace (Z.max (Zdigits2 (c * k) + 1074 - 1074 - 53) (-1074) + 1074)
        with (Zdigits2 (c * k) + 1021) by lia.
      replace 1074 with ((53 - Zdigits2 (c * k)) + (Zdigits2 (c * k) + 1021))
        at 1 by lia.
      rewrite Z.pow_add_r, Z.mul_assoc by lia.
      apply Z.mod_mul. apply Z.pow_nonzero; lia. }
    cbv zeta in Hdu. rewrite Hu in Hdu. fold X in Hdu.
    set (d := fsub x mod0) in *.
    assert (Hmod0 : flt mod0 pzero = false).
    { destruct Hb as (_ & B2 & B3 & _).
      destruct mod0 as [s|s| |s m0 e0]; try discriminate;
        cbn in B3; subst s; reflexivity. }
    assert (Hdiv1 :
      (if ftruthy mod0
       then if negb (Bool.eqb (flt y pzero) (flt mod0 pzero))
            then (fsub (fdiv d y) (float_of_Z 1), fadd mod0 y)
            else (fdiv d y, mod0)
       else (fdiv d y, zero_like y)) =
      (fdiv d y, if ftruthy mod0 then mod0 else zero_like y)).
    { rewrite Hmod0. change (flt y pzero) with false.
      destruct (ftruthy mod0); reflexivity. }
    rewrite Hdiv1. clear Hdiv1.
    destruct (Z.eq_dec k 0) as [Hk0|Hk0].
    + (* the quotient is below one *)
      assert (Hd0 : d = S754_zero false)
        by (apply (units_zero N); [exact Hd|lia]).
      rewrite Hd0.
      change (fdiv (S754_zero false) y) with (S754_zero false).
      cbn [ftruthy]. cbv iota.
      pose proof (fdiv_sign m (Z.to_pos (c * 2 ^ (53 - Zdigits2 c))) e
                    (Zdigits2 c - 53)) as Hs.
      fold x in Hs.
      change (S754_finite false (Z.to_pos (c * 2 ^ (53 - Zdigits2 c)))
                (Zdigits2 c - 53)) with y in Hs.
      unfold zero_like. rewrite Hs.
      eexists. split; [reflexivity|]. cbn [fst int_of_float].
      now rewrite Hk0.
    + (* the quotient is [k] *)
      assert (Hkpos : 0 < k < 2 ^ 53) by nia.
      assert (Hdk : fdiv d y = Exact.of_int k).
      { pose proof Hd as Hd'.
        apply seconds_below_inv in Hd' as [Hz|(md & ed & Hde & Hvd & _)].
        - exfalso. rewrite Hz in Hdu. cbn [Exact.units] in Hdu. nia.
        - rewrite Hde. rewrite Hde in Hdu. cbn [Exact.units cond_Zopp] in Hdu.
          apply fdiv_exact; try assumption.
          rewrite Hdu, Huy. subst Y. lia. }
      rewrite Hdk.
      change (ftruthy (Exact.of_int k)) with true. cbv iota.
      rewrite ffloor_of_int, fsub_self, fgt_half_zero by assumption.
      eexists. split; [reflexivity|]. cbn [fst].
      rewrite (int_of_float_units (k + 1)) by now apply of_int_below.
      rewrite of_int_units by assumption.
      now rewrite Z.div_mul by lia.
Qed.

End ExactDivmod.

Section NearestRounding.

(** The round bit after a shift is the highest digit shifted out. *)
Lemma iter_pos_shr_r (p : positive) : forall mrs : shr_record,
  0 <= shr_m mrs ->
  shr_r (SpecFloat.iter_pos shr_1 p mrs) = Z.testbit (shr_m mrs) (Zpos p - 1).
Proof.
  induction p as [p IH|p IH|]; intros mrs Hm; cbn [SpecFloat.iter_pos].
  - assert (H1 : 0 <= shr_m (shr_1 mrs))
      by (rewrite shr_1_m by assumption; apply Z.div_pos; lia).
    assert (Hp : 0 < 2 ^ Zpos p) by (apply Z.pow_pos_nonneg; lia).
    assert (H2 : 0 <= shr_m (SpecFloat.iter_pos shr_1 p (shr_1 mrs)))
      by (rewrite iter_pos_shr by assumption; apply Z.div_pos; lia).
    rewrite IH, iter_pos_shr, shr_1_m by assumption.
    rewrite Z.div_pow2_bits by lia.
    change 2 with (2 ^ 1) at 1. rewrite Z.div_pow2_bits by lia.
    f_equal. lia.
  - assert (Hp : 0 < 2 ^ Zpos p) by (apply Z.pow_pos_nonneg; lia).
    assert (H2 : 0 <= shr_m (SpecFloat.iter_pos shr_1 p mrs))
      by (rewrite iter_pos_shr by assumption; apply Z.div_pos; lia).
    rewrite IH, iter_pos_shr by assumption.
    rewrite Z.div_pow2_bits by lia. f_equal. lia.
  - destruct mrs as [m r s]. cbn [shr_m] in *.
    change (1 - 1) with 0. rewrite Z.bit0_odd.
    destruct m as [|[q|q|]|q]; try reflexivity; lia.
Qed.

Lemma testbit_high (m n : Z) :
  0 <= m -> 0 < n -> Z.testbit m (n - 1) = true ->
  2 ^ n <= 2 * (m mod 2 ^ n).
Proof.
  intros Hm Hn Hb. apply Z.testbit_true in Hb; [|lia].
  assert (Hh : 0 < 2 ^ (n - 1)) by (apply Z.pow_pos_nonneg; lia).
  replace n with (n - 1 + 1) at 1 2 by lia.
  rewrite Z.pow_add_r by lia. change (2 ^ 1) with 2.
  rewrite Z.rem_mul_r by lia. rewrite Hb.
  pose proof (Z.mod_pos_bound m (2 ^ (n - 1)) Hh). lia.
Qed.

Lemma round_up_only_if (mrs : shr_record) :
  round_nearest_even (shr_m mrs) (loc_of_shr_record mrs) = shr_m mrs \/
  (round_nearest_even (shr_m mrs) (loc_of_shr_record mrs) = shr_m mrs + 1 /\
   shr_r mrs = true).
Proof.
  destruct mrs as [m [|] [|]]; cbn; auto.
  destruct (IntDef.Z.even m); auto.
Qed.

(** What a shift to the canonical exponent leaves. *)
Lemma shr_fexp_value (m e : Z) :
  0 <= m ->
  let F := fexp prec emax (Zdigits2 m + e) in
  e <= F ->
  let mrs := fst (shr_fexp prec emax m e loc_Exact) in
  snd (shr_fexp prec emax m e loc_Exact) = F /\
  shr_m mrs = m / 2 ^ (F - e) /\
  (shr_r mrs = true -> 0 < F - e /\ 2 ^ (F - e) <= 2 * (m mod 2 ^ (F - e))).
Proof.
  intros Hm F HF. unfold shr_fexp, shr. zfold. fold F.
  destruct (F - e) as [|p|p] eqn:En; cbn [fst snd shr_record_of_loc].
  - split; [lia|]. cbn [shr_m shr_r]. rewrite Z.pow_0_r, Z.div_1_r.
    split; [reflexivity|discriminate].
  - split; [lia|]. rewrite iter_pos_shr by (cbn; lia).
    rewrite iter_pos_shr_r by (cbn; lia). cbn [shr_m].
    split; [reflexivity|]. intros Hb. split; [lia|].
    now apply testbit_high.
  - lia.
Qed.

(** Rounding to nearest: the mantissa at the canonical exponent is the
    quotient, or the quotient and one when at least half is lost. *)
Lemma binary_round_aux_value (s : bool) (P : positive) (e : Z) :
  let F := fexp prec emax (Zdigits2 (Zpos P) + e) in
  let n := F - e in
  let m1 := Zpos P / 2 ^ n in
  e <= F -> F + 1 <= 971 ->
  exists m2 : Z,
    (m2 = m1 \/ (m2 = m1 + 1 /\ 0 < n /\ 2 ^ n <= 2 * (Zpos P mod 2 ^ n))) /\
    ((m2 = 0 /\
      binary_round_aux prec emax s (Zpos P) e loc_Exact = S754_zero s) \/
     exists (m : positive) (e' : Z),
       binary_round_aux prec emax s (Zpos P) e loc_Exact =
         S754_finite s m e' /\
       F <= e' <= F + 1 /\ Zpos m * 2 ^ (e' - F) = m2).
Proof.
  intros F n m1 HeF HF. unfold binary_round_aux.
  pose proof (shr_fexp_value (Zpos P) e ltac:(lia) HeF) as (S1 & S2 & S3).
  fold F in S1, S2, S3.
  destruct (shr_fexp prec emax (Zpos P) e loc_Exact) as [mrs1 e1].
  cbn [fst snd] in S1, S2, S3. subst e1. fold n in S2, S3. fold m1 in S2.
  set (m2 := round_nearest_even (shr_m mrs1) (loc_of_shr_record mrs1)).
  assert (Hn : 0 <= n) by (subst n; lia).
  assert (Hp : 0 < 2 ^ n) by (apply Z.pow_pos_nonneg; lia).
  assert (Hm1 : 0 <= m1) by (apply Z.div_pos; lia).
  assert (Hm2 : m2 = m1 \/
                (m2 = m1 + 1 /\ 0 < n /\ 2 ^ n <= 2 * (Zpos P mod 2 ^ n))).
  { subst m2. destruct (round_up_only_if mrs1) as [->|[-> Hr]];
      rewrite S2; [now left|right]. split; [reflexivity|]. now apply S3. }
  assert (Hm20 : 0 <= m2) by lia.
  exists m2. split; [exact Hm2|].
  (* the digits of the quotient *)
  assert (HF0 : -1074 <= F) by apply fexp_ge.
  assert (Hd1 : Zdigits2 m1 <= 53).
  { pose proof (Zdigits2_div_pow2 (Zpos P) n ltac:(lia) Hn) as Hd.
    fold m1 in Hd. subst n F. rewrite fexp_eq in *. lia. }
  assert (Hd2 : Zdigits2 m2 <= 54).
  { pose proof (Zdigits2_succ m1 Hm1).
    destruct Hm2 as [->|[-> _]]; lia. }
  assert (Hm1lt : m1 < 2 ^ 53).
  { pose proof (Zdigits2_lt_pow m1 Hm1).
    assert (2 ^ Zdigits2 m1 <= 2 ^ 53)
      by (apply Z.pow_le_mono_r; [lia|exact Hd1]). lia. }
  (* the second shift *)
  destruct (Z.le_gt_cases (fexp prec emax (Zdigits2 m2 + F)) F) as [Hle|Hgt].
  - rewrite shr_fexp_short by exact Hle.
    cbn [shr_record_of_loc shr_m].
    destruct m2 as [|q|q] eqn:Eq; [left; now split| |lia].
    right. exists q, F.
    replace (IntDef.Z.leb F (IntDef.Z.sub emax prec)) with true.
    2:{ symmetry. apply Z.leb_le. unfold emax, prec. zfold. lia. }
    split; [reflexivity|]. split; [lia|].
    replace (F - F) with 0 by lia. now rewrite Z.pow_0_r, Z.mul_1_r.
  - assert (Hd54 : Zdigits2 m2 = 54) by (rewrite fexp_eq in Hgt; lia).
    assert (Hm2eq : m2 = 2 ^ 53).
    { assert (2 ^ 53 <= m2).
      { destruct (Z.le_gt_cases (2 ^ 53) m2); [assumption|exfalso].
        assert (Zdigits2 m2 <= 53) by (apply Zdigits2_le; lia). lia. }
      lia. }
    pose proof (shr_fexp_value m2 F Hm20) as S. cbv zeta in S.
    assert (HF2 : fexp prec emax (Zdigits2 m2 + F) = F + 1)
      by (rewrite Hd54, fexp_eq; lia).
    rewrite HF2 in S. specialize (S ltac:(lia)).
    destruct S as (T1 & T2 & _).
    destruct (shr_fexp prec emax m2 F loc_Exact) as [mrs2 e2].
    cbn [fst snd] in T1, T2. subst e2.
    replace (F + 1 - F) with 1 in T2 by lia.
    rewrite T2, Hm2eq. change (2 ^ 53 / 2 ^ 1) with (Zpos (2 ^ 52)).
    cbv iota.
    replace (IntDef.Z.leb (F + 1) (IntDef.Z.sub emax prec)) with true.
    2:{ symmetry. apply Z.leb_le. unfold emax, prec. zfold. lia. }
    right. exists (2 ^ 52)%positive, (F + 1).
    split; [reflexivity|]. split; [lia|].
    replace (F + 1 - F) with 1 by lia. rewrite <- Hm2eq. subst m2.
    rewrite Hm2eq. reflexivity.
Qed.

End NearestRounding.

Section ClockFields.

Lemma of_int_1000 :
  Exact.of_int 1000 = S754_finite false 8796093022208000 (-43).
Proof. reflexivity. Qed.

(** [int(r * 1000)] for a fraction [r] of a second: the thousandths of
    [r], or one more when the product rounds up to an integer; never
    1000. *)
Lemma fmul_thousand (r : float) :
  Exact.seconds_below 1 r ->
  let K := 1000 * Exact.units r / Exact.unit in
  exists ms : Z,
    int_of_float (fmul r (Exact.of_int 1000)) = Ok ms /\
    (ms = K \/ ms = K + 1) /\ 0 <= ms <= 999.
Proof.
  intros Hr K. pose proof unit_pos as HU.
  pose proof (seconds_below_units 1 r Hr) as HR.
  assert (HK : 0 <= K <= 999).
  { subst K. split; [apply Z.div_pos; lia|].
    assert (1000 * Exact.units r / Exact.unit < 1000); [|lia].
    apply Z.div_lt_upper_bound; lia. }
  pose proof Hr as Hr'.
  apply seconds_below_inv in Hr' as [->|(mr & er & -> & Hv & Hlt)].
  - exists 0. split; [reflexivity|]. split; [left|lia].
    subst K. cbn [Exact.units]. reflexivity.
  - rewrite of_int_1000. set (my := 8796093022208000%positive).
    unfold fmul. cbn [SFmul xorb]. zfold.
    change (PosDef.Pos.mul mr my) with (Pos.mul mr my).
    pose proof (valid_exponent _ _ _ Hv) as [Her Hdr].
    pose proof (proj1 (valid_finite _ _ _) Hv) as [Hcan _].
    rewrite fexp_eq in Hcan.
    cbn [Exact.units cond_Zopp] in HR, K. unfold Exact.unit in *.
    rewrite Z.mul_1_l in Hlt.
    (* the fraction is below one *)
    assert (Hpe : 0 < 2 ^ (er + 1074)) by (apply Z.pow_pos_nonneg; lia).
    assert (Her0 : er < 0).
    { destruct (Z.le_gt_cases 0 er); [exfalso|lia].
      assert (2 ^ 1074 <= 2 ^ (er + 1074))
        by (apply Z.pow_le_mono_r; lia). nia. }
    assert (Hsplit : 2 ^ 1074 = 2 ^ (- er) * 2 ^ (er + 1074))
      by (rewrite <- Z.pow_add_r by lia; f_equal; lia).
    assert (Hpn : 0 < 2 ^ (- er)) by (apply Z.pow_pos_nonneg; lia).
    assert (Hmr : Zpos mr < 2 ^ (- er)) by nia.
    (* the product *)
    set (P := (mr * my)%positive).
    assert (HP : Zpos P = Zpos mr * (1000 * 2 ^ 43))
      by (subst P my; rewrite Pos2Z.inj_mul; reflexivity).
    assert (HdP : 53 <= Zdigits2 (Zpos P) <= 106).
    { split.
      - change 53 with (Zdigits2 (2 ^ 52)). apply Zdigits2_mono. lia.
      - pose proof (Zdigits2_mul (Zpos mr) (1000 * 2 ^ 43)
                      ltac:(lia) ltac:(lia)) as Hm.
        rewrite <- HP in Hm. change (Zdigits2 (1000 * 2 ^ 43)) with 53 in Hm.
        lia. }
    assert (HdPr : Zdigits2 (Zpos P) <= Zdigits2 (Zpos mr) + 53).
    { pose proof (Zdigits2_mul (Zpos mr) (1000 * 2 ^ 43)
                    ltac:(lia) ltac:(lia)) as Hm.
      rewrite <- HP in Hm. change (Zdigits2 (1000 * 2 ^ 43)) with 53 in Hm.
      lia. }
    assert (Hmag : Zdigits2 (Zpos mr) + er <= 0).
    { pose proof (units_digits mr er ltac:(lia)) as Hd.
      assert (Zdigits2 (Zpos mr * 2 ^ (er + 1074)) <= 1074)
        by (apply Zdigits2_le; lia). lia. }
    set (e := er + -43).
    pose proof (binary_round_aux_value false P e) as Hval. cbv zeta in Hval.
    set (F := fexp prec emax (Zdigits2 (Zpos P) + e)) in *.
    assert (HF : e <= F /\ F <= -43 /\ -1074 <= F).
    { subst F. rewrite fexp_eq. subst e. lia. }
    destruct Hval as (m2 & Hm2 & Hres); [lia|lia|].
    set (n := F - e) in *. set (m1 := Zpos P / 2 ^ n) in *.
    set (A := - F).
    assert (Hn : 0 <= n) by (subst n; lia).
    assert (HA : 0 < A) by (subst A; lia).
    assert (Hpn' : 0 < 2 ^ n) by (apply Z.pow_pos_nonneg; lia).
    assert (HpA : 0 < 2 ^ A) by (apply Z.pow_pos_nonneg; lia).
    assert (Hm1 : 0 <= m1) by (apply Z.div_pos; lia).
    (* the whole part of the exact product *)
    assert (HKm : K = m1 / 2 ^ A).
    { subst K m1. rewrite Z.div_div by lia.
      rewrite <- Z.pow_add_r by lia.
      replace (n + A) with (43 + - er) by (subst n A e; lia).
      rewrite HP, Hsplit.
      rewrite (Z.pow_add_r 2 43 (- er)) by lia.
      replace (1000 * (Zpos mr * 2 ^ (er + 1074)))
        with (1000 * Zpos mr * 2 ^ (er + 1074)) by ring.
      rewrite Z.div_mul_cancel_r by lia.
      replace (Zpos mr * (1000 * 2 ^ 43)) with (2 ^ 43 * (1000 * Zpos mr))
        by ring.
      rewrite Z.div_mul_cancel_l by lia. reflexivity. }
    (* what [int] makes of the rounded product *)
    assert (Hint : int_of_float
                     (binary_round_aux prec emax false (Zpos P) e loc_Exact) =
                   Ok (m2 / 2 ^ A)).
    { destruct Hres as [[-> ->]|(m & e' & -> & He' & Hm)].
      - cbn [int_of_float]. now rewrite Z.div_0_l by lia.
      - cbn [int_of_float cond_Zopp]. f_equal.
        destruct e' as [|q|q]; [lia|lia|].
        rewrite Z.shiftr_div_pow2 by lia.
        rewrite <- Hm.
        replace (2 ^ A) with (2 ^ (Zneg q - F) * 2 ^ Zpos q)
          by (rewrite <- Z.pow_add_r by lia; f_equal; subst A; lia).
        rewrite (Z.mul_comm (Zpos m)).
        rewrite Z.div_mul_cancel_l; [reflexivity| |];
          apply Z.pow_nonzero; lia. }
    exists (m2 / 2 ^ A). split; [exact Hint|].
    destruct Hm2 as [->|(-> & Hn0 & Hup)].
    + rewrite <- HKm. split; [now left|lia].
    + assert (Hle : m1 / 2 ^ A <= (m1 + 1) / 2 ^ A <= m1 / 2 ^ A + 1).
      { split.
        - apply Z.div_le_mono; lia.
        - pose proof (Z.div_mod m1 (2 ^ A) ltac:(lia)).
          pose proof (Z.mod_pos_bound m1 (2 ^ A) HpA).
          apply Z.lt_succ_r. apply Z.div_lt_upper_bound; [lia|]. nia. }
      rewrite <- HKm in Hle.
      assert (Hms : (m1 + 1) / 2 ^ A = K \/ (m1 + 1) / 2 ^ A = K + 1)
        by lia.
      split; [exact Hms|]. split; [lia|].
      destruct (Z.le_gt_cases ((m1 + 1) / 2 ^ A) 999) as [|Hbig];
        [assumption|exfalso].
      (* the product would round up to a thousand *)
      assert (HT : 1000 * 2 ^ A <= m1 + 1).
      { destruct (Z.le_gt_cases (1000 * 2 ^ A) (m1 + 1)); [assumption|].
        exfalso.
        assert ((m1 + 1) / 2 ^ A < 1000)
          by (apply Z.div_lt_upper_bound; lia). lia. }
      assert (Hm1T : m1 < 1000 * 2 ^ A).
      { pose proof (Z.div_mod m1 (2 ^ A) ltac:(lia)).
        pose proof (Z.mod_pos_bound m1 (2 ^ A) HpA). nia. }
      assert (Hm1eq : m1 = 1000 * 2 ^ A - 1) by lia.
      (* so many digits are left that few were shifted out *)
      assert (Hn53 : n <= 53).
      { pose proof (Zdigits2_div_pow2 (Zpos P) n ltac:(lia) Hn) as Hd.
        fold m1 in Hd.
        assert (53 <= Zdigits2 m1).
        { change 53 with (Zdigits2 (2 ^ 52)). apply Zdigits2_mono.
          assert (2 ^ 43 <= 2 ^ A)
            by (apply Z.pow_le_mono_r; subst A; lia). lia. }
        lia. }
      (* and yet the half that is lost is large *)
      pose proof (Z.div_mod (Zpos P) (2 ^ n) ltac:(lia)) as HPdm.
      fold m1 in HPdm.
      assert (HTn : 2 ^ A * 2 ^ n = 2 ^ 43 * 2 ^ (- er)).
      { rewrite <- !Z.pow_add_r by lia. f_equal. subst A n e. lia. }
      assert (Hbig2 : 2 * 1000 * 2 ^ 43 <= 2 ^ n).
      { assert (2 * Zpos P >= (2 * 1000 * 2 ^ A - 1) * 2 ^ n) by nia.
        assert (E : 2 * 1000 * 2 ^ A * 2 ^ n =
                    2 * 1000 * 2 ^ 43 * 2 ^ (- er)) by nia.
        assert (2 * 1000 * 2 ^ 43 * (Zpos mr + 1) <=
                2 * 1000 * 2 ^ 43 * 2 ^ (- er)) by nia.
        nia. }
      assert (2 ^ n <= 2 ^ 53) by (apply Z.pow_le_mono_r; lia).
      lia.
Qed.

End ClockFields.

Section ClockTimes.

Lemma float_of_int_3600 : float_of_int 3600 = Ok (Exact.of_int 3600).
Proof. vm_compute. reflexivity. Qed.

Lemma float_of_int_60 : float_of_int 60 = Ok (Exact.of_int 60).
Proof. vm_compute. reflexivity. Qed.

Lemma float_of_int_1 : float_of_int 1 = Ok (Exact.of_int 1).
Proof. vm_compute. reflexivity. Qed.

Lemma float_of_int_1000 : float_of_int 1000 = Ok (Exact.of_int 1000).
Proof. vm_compute. reflexivity. Qed.

(** The fields of the clock of a time below a hundred hours, as
    [format_timestamp] computes them. *)
Lemma format_timestamp_fields (x : float) :
  Exact.seconds_below 360000 x ->
  exists ms : Z,
    (ms = Exact.thousandths (Exact.units x) \/
     ms = Exact.thousandths (Exact.units x) + 1) /\
    0 <= ms <= 999 /\
    format_timestamp (NFloat x) = Ok (Exact.clock "," (Exact.units x) ms).
Proof.
  intros Hx.
  assert (H53 : (360000 : Z) <= 2 ^ 53) by (apply Z.leb_le; reflexivity).
  assert (B : forall c, 0 < c <= 3600 -> 0 < c < 2 ^ 53).
  { intros c Hc. split; [lia|]. eapply Z.le_lt_trans; [apply Hc|].
    apply Z.ltb_lt. reflexivity. }
  destruct (float_floordiv_exact 360000 3600 x Hx H53 (B 3600 ltac:(lia)))
    as (q1 & Hq1 & Hh).
  destruct (float_mod_exact 360000 3600 x Hx (B 3600 ltac:(lia)))
    as (r1 & Hr1 & Hb1 & Hu1).
  assert (H53' : (3600 : Z) <= 2 ^ 53) by (apply Z.leb_le; reflexivity).
  destruct (float_floordiv_exact 3600 60 r1 Hb1 H53' (B 60 ltac:(lia)))
    as (q2 & Hq2 & Hm).
  destruct (float_mod_exact 360000 60 x Hx (B 60 ltac:(lia)))
    as (r2 & Hr2 & Hb2 & Hu2).
  destruct (float_mod_exact 360000 1 x Hx (B 1 ltac:(lia)))
    as (r3 & Hr3 & Hb3 & Hu3).
  destruct (fmul_thousand r3 Hb3) as (ms & Hms & Hor & Hrange).
  exists ms. rewrite Z.mul_1_l in Hu3.
  split; [unfold Exact.thousandths; rewrite <- Hu3; exact Hor|].
  split; [exact Hrange|].
  unfold format_timestamp, num_floordiv, num_mod, num_mul, arith, to_float.
  rewrite float_of_int_3600, float_of_int_60, float_of_int_1,
    float_of_int_1000.
  cbn [bind]. rewrite Hq1. cbn [bind num_int]. rewrite Hh. cbn [bind].
  rewrite Hr1. cbn [bind]. rewrite Hq2. cbn [bind num_int]. rewrite Hm.
  cbn [bind]. rewrite Hr2. cbn [bind num_int].
  rewrite (int_of_float_units 60 r2 Hb2). cbn [bind]. rewrite Hr3.
  cbn [bind num_int]. rewrite Hms. cbn [bind].
  rewrite Hu1, Hu2. reflexivity.
Qed.

Lemma clock_fields_in_range (X : Z) :
  0 <= X < 360000 * Exact.unit ->
  0 <= X / (3600 * Exact.unit) < 100 /\
  0 <= X mod (3600 * Exact.unit) / (60 * Exact.unit) < 60 /\
  0 <= X mod (60 * Exact.unit) / Exact.unit < 60.
Proof.
  intros HX. pose proof unit_pos as HU.
  repeat split.
  - apply Z.div_pos; lia.
  - apply Z.div_lt_upper_bound; lia.
  - apply Z.div_pos; [|lia]. apply Z.mod_pos_bound. lia.
  - apply Z.div_lt_upper_bound; [lia|].
    pose proof (Z.mod_pos_bound X (3600 * Exact.unit) ltac:(lia)). lia.
  - apply Z.div_pos; [|lia]. apply Z.mod_pos_bound. lia.
  - apply Z.div_lt_upper_bound; [lia|].
    pose proof (Z.mod_pos_bound X (60 * Exact.unit) ltac:(lia)). lia.
Qed.

Lemma with_period_clock (X ms : Z) :
  Webvtt.with_period (Exact.clock "," X ms) = Exact.clock "." X ms.
Proof.
  unfold Exact.clock.
  rewrite !with_period_app, !with_period_format_0d. reflexivity.
Qed.

(** X9. For a time from zero to below a hundred hours, given as a float,
    [format_timestamp] and [format_vtt_timestamp] return a clock
    [HH:MM:SS,mmm] (with a period for WebVTT) whose hours, minutes and
    seconds are exactly those of the time, and whose milliseconds are the
    thousandths of its fraction, cut, or one more; never more than 999. *)
Theorem format_timestamp_of_seconds (x : float) :
  Exact.seconds_below 360000 x ->
  exists ms : Z,
    (ms = Exact.thousandths (Exact.units x) \/
     ms = Exact.thousandths (Exact.units x) + 1) /\
    0 <= ms <= 999 /\
    format_timestamp (NFloat x) = Ok (Exact.clock "," (Exact.units x) ms) /\
    format_vtt_timestamp (NFloat x) =
      Ok (Exact.clock "." (Exact.units x) ms) /\
    Spec.is_clock "," (Exact.clock "," (Exact.units x) ms) = true /\
    Spec.is_clock "." (Exact.clock "." (Exact.units x) ms) = true /\
    0 <= Exact.units x / (3600 * Exact.unit) < 100 /\
    0 <= Exact.units x mod (3600 * Exact.unit) / (60 * Exact.unit) < 60 /\
    0 <= Exact.units x mod (60 * Exact.unit) / Exact.unit < 60.
Proof.
  intros Hx.
  destruct (format_timestamp_fields x Hx) as (ms & Hor & Hrange & Hts).
  pose proof (clock_fields_in_range _ (seconds_below_units _ _ Hx))
    as (Hh & Hm & Hs).
  exists ms. split; [exact Hor|]. split; [exact Hrange|].
  split; [exact Hts|].
  split.
  { rewrite format_vtt_timestamp_of_srt, Hts. cbn [bind].
    now rewrite with_period_clock. }
  split; [apply clock_of_fields; lia|].
  split; [apply clock_of_fields; lia|].
  repeat split; lia.
Qed.

Lemma format_timestamp_of_seconds_witness :
  Exact.seconds_below 360000 Sample.seconds_3661_234 /\
  exists ms : Z,
    (ms = 233 \/ ms = 234) /\
    format_timestamp (NFloat Sample.seconds_3661_234) =
      Ok ("01:01:01," +:+ format_0d 3 ms).
Proof.
  assert (H : Exact.seconds_below 360000 Sample.seconds_3661_234).
  { repeat split; vm_compute; reflexivity. }
  split; [exact H|].
  destruct (format_timestamp_of_seconds _ H)
    as (ms & Hor & _ & Hts & _).
  exists ms. split.
  - replace (Exact.thousandths (Exact.units Sample.seconds_3661_234))
      with 233 in Hor by (vm_compute; reflexivity).
    exact Hor.
  - rewrite Hts. reflexivity.
Defined.

(** Both cases occur: the float nearest to 0.009 lies below it, its
    thousandths are 8, and the product by 1000 rounds to 9. *)
Example format_timestamp_rounds_up :
  Exact.thousandths (Exact.units (float_of_decimal false 9 (-3))) = 8 /\
  format_timestamp (NFloat (float_of_decimal false 9 (-3))) =
    Ok "00:00:00,009".
Proof. split; vm_compute; reflexivity. Qed.

End ClockTimes.

Section NoClock.

(** X10. A time that is NaN or an infinity has no timestamp: both
    formatters raise [ValueError] (the quotient by 3600 is NaN, which
    [int] refuses), and so does each renderer on a list whose first
    segment starts at such a time, whatever follows. *)
Theorem timestamp_not_finite (x : float) :
  is_finite x = false ->
  exists e : exn,
    exn_class e = "ValueError" /\
    format_timestamp (NFloat x) = Raise e /\
    format_vtt_timestamp (NFloat x) = Raise e /\
    forall (seg : dict) (rest : list dict),
      seg_num "start" seg = Ok (NFloat x) ->
      segments_to_srt (seg :: rest) = Raise e /\
      segments_to_vtt (seg :: rest) = Raise e.
Proof.
  intros Hx.
  assert (H : exists e, exn_class e = "ValueError" /\
                        format_timestamp (NFloat x) = Raise e).
  { destruct x as [s|[|]| |s m e]; try discriminate;
      eexists; split; try (vm_compute; reflexivity); reflexivity. }
  destruct H as (e & He & Hts). exists e.
  split; [exact He|]. split; [exact Hts|].
  assert (Hvtt : format_vtt_timestamp (NFloat x) = Raise e)
    by now rewrite format_vtt_timestamp_of_srt, Hts.
  split; [exact Hvtt|].
  intros seg rest Hstart. unfold segments_to_srt, segments_to_vtt.
  cbn [srt_lines vtt_lines]. rewrite Hstart. cbn [bind].
  rewrite Hts, Hvtt. split; reflexivity.
Qed.

Lemma timestamp_not_finite_witness :
  exists e : exn,
    exn_class e = "ValueError" /\
    format_timestamp (NFloat (S754_infinity false)) = Raise e.
Proof.
  destruct (timestamp_not_finite (S754_infinity false) eq_refl)
    as (e & He & Hts & _).
  exists e. split; assumption.
Defined.

End NoClock.

(* ===================================================================== *)
(** * Subtitles on the clock *)
(* ===================================================================== *)

Section OnTheClock.

Lemma units_of_in_range (a : num) :
  Clock.in_range a -> 0 <= Clock.units_of a < 360000 * Exact.unit.
Proof.
  destruct a as [z|x]; cbn [Clock.in_range Clock.units_of].
  - intros Hz. pose proof unit_pos. nia.
  - apply seconds_below_units.
Qed.

Lemma clock_of_int (sep : ascii) (z : Z) :
  Exact.clock sep (z * Exact.unit) 0 =
    format_0d 2 (z / 3600) +:+ ":" +:+ format_0d 2 (z mod 3600 / 60)
      +:+ ":" +:+ format_0d 2 (z mod 60) +:+ String sep EmptyString
      +:+ format_0d 3 0.
Proof.
  pose proof unit_pos as HU. unfold Exact.clock.
  rewrite !Z.mul_mod_distr_r by lia.
  rewrite !Z.div_mul_cancel_r by lia.
  rewrite Z.div_mul by lia. reflexivity.
Qed.

(** The timestamp of a time in range, with a comma. *)
Lemma format_timestamp_shows (a : num) :
  Clock.in_range a ->
  exists t, format_timestamp a = Ok t /\ Clock.shows "," a t.
Proof.
  intros Ha. pose proof (units_of_in_range a Ha) as HX.
  destruct (clock_fields_in_range _ HX) as (Hh & Hm & Hs).
  destruct a as [z|x]; cbn [Clock.in_range Clock.units_of] in *.
  - exists (Exact.clock "," (z * Exact.unit) 0). split.
    + rewrite format_timestamp_int, clock_of_int. reflexivity.
    + split; [apply clock_of_fields; lia|].
      exists 0. repeat split; lia.
  - destruct (format_timestamp_fields x Ha) as (ms & Hor & Hms & Hts).
    exists (Exact.clock "," (Exact.units x) ms). split; [exact Hts|].
    split; [apply clock_of_fields; lia|].
    exists ms. repeat split; try lia. exact Hor.
Qed.

(** The timestamp of a time in range, with a period. *)
Lemma format_vtt_timestamp_shows (a : num) :
  Clock.in_range a ->
  exists t, format_vtt_timestamp a = Ok t /\ Clock.shows "." a t.
Proof.
  intros Ha. pose proof (units_of_in_range a Ha) as HX.
  destruct (clock_fields_in_range _ HX) as (Hh & Hm & Hs).
  destruct (format_timestamp_shows a Ha)
    as (t & Ht & _ & ms & Hms & Hof & ->).
  exists (Exact.clock "." (Clock.units_of a) ms). split.
  - rewrite format_vtt_timestamp_of_srt, Ht. cbn [bind].
    now rewrite with_period_clock.
  - split; [apply clock_of_fields; lia|].
    exists ms. repeat split; try lia. exact Hof.
Qed.


Lemma vtt_lines_on_the_clock (segments : list dict) :
  Forall Clock.timed segments ->
  exists blocks : list (list string),
    vtt_lines segments = Ok (concat blocks) /\
    Forall2 (Clock.lines_of ".") segments blocks.
Proof.
  induction 1 as [|seg rest (a & b & s & Ha & Hra & Hb & Hrb & Hs) _ IH].
  - exists []. split; [reflexivity|constructor].
  - destruct (format_vtt_timestamp_shows a Hra) as (ta & Hta & Hsa).
    destruct (format_vtt_timestamp_shows b Hrb) as (tb & Htb & Hsb).
    destruct IH as (blocks & Hls & HF).
    exists ([ta +:+ " --> " +:+ tb; strip s; ""] :: blocks).
    split.
    + cbn [vtt_lines]. rewrite Ha. cbn [bind]. rewrite Hta. cbn [bind].
      rewrite Hb. cbn [bind]. rewrite Htb. cbn [bind].
      unfold seg_stripped, dict_item. rewrite Hs. cbn [bind].
      rewrite Hls. reflexivity.
    + constructor; [|exact HF].
      exists a, b, s, ta, tb.
      split; [exact Ha|]. split; [exact Hb|]. split; [exact Hs|].
      split; [exact Hsa|]. split; [exact Hsb|reflexivity].
Qed.


Lemma spoken_timed : Forall Clock.timed Sample.spoken.
Proof.
  assert (B : forall x, Exact.valid x = true -> is_finite x = true ->
                sign_of x = false ->
                (Exact.units x <? 360000 * Exact.unit) = true ->
                Exact.seconds_below 360000 x).
  { intros x Hv Hf Hs Hu. repeat split; try assumption.
    now apply Z.ltb_lt. }
  constructor; [|constructor; [|constructor]].
  - exists (NFloat pzero), (NFloat (float_of_ratio false 3 2)), " hello ".
    repeat split; try reflexivity; apply B; vm_compute; reflexivity.
  - exists (NFloat (float_of_ratio false 3 2)),
           (NFloat (float_of_ratio false 9 4)), " world".
    repeat split; try reflexivity; apply B; vm_compute; reflexivity.
Qed.



(** X1. For every list of segments whose starts and ends are times from
    zero to below a hundred hours, and whose texts are strings,
    [segments_to_vtt] returns the line [WEBVTT], an empty line, and the
    lines of the segments in order, joined by line feeds; the lines of a
    segment are the line [HH:MM:SS.mmm --> HH:MM:SS.mmm] of its start and
    end (a period before the milliseconds, and no sequence number), its
    text trimmed, and an empty line. For any list: when it returns, the
    document is laid out in this way from what [format_vtt_timestamp]
    returns for the times, and what it raises is what the lines of one of
    the segments raise. *)
Theorem segments_to_vtt_spec (segments : list dict) :
  (Forall Clock.timed segments ->
   exists blocks : list (list string),
     segments_to_vtt segments =
       Ok (join nl ("WEBVTT" :: "" :: concat blocks)) /\
     Forall2 (Clock.lines_of ".") segments blocks) /\
  match segments_to_vtt segments with
  | Ok out =>
      exists blocks : list (list string),
        Forall2 (fun seg b => Webvtt.vtt_block seg = Ok b) segments blocks /\
        out = join nl ("WEBVTT" :: "" :: concat blocks)
  | Raise e =>
      exists seg : dict, In seg segments /\ Webvtt.vtt_block seg = Raise e
  end.
Proof.
  unfold segments_to_vtt. split.
  - intros H. destruct (vtt_lines_on_the_clock segments H)
      as (blocks & Hls & HF).
    exists blocks. split; [|exact HF]. now rewrite Hls.
  - pose proof (vtt_lines_blocks segments) as H.
    destruct (vtt_lines segments) as [ls|e]; cbn [bind].
    + destruct H as (blocks & HF & ->). now exists blocks.
    + exact H.
Qed.

(** Two segments: two blocks of three lines. *)
Lemma segments_to_vtt_spec_witness :
  Forall Clock.timed Sample.spoken /\
  exists blocks : list (list string),
    segments_to_vtt Sample.spoken =
      Ok (join nl ("WEBVTT" :: "" :: concat blocks)) /\
    length blocks = 2%nat.
Proof.
  split; [exact spoken_timed|].
  destruct (proj1 (segments_to_vtt_spec Sample.spoken) spoken_timed)
    as (blocks & Hout & HF).
  exists blocks. split; [exact Hout|].
  apply Forall2_length in HF. now rewrite <- HF.
Defined.

Example segments_to_vtt_off_the_clock :
  segments_to_vtt [Clock.late; Clock.early] =
    Ok (join nl [ "WEBVTT"; "";
                  "100:00:00.000 --> 100:00:01.000"; "late"; "";
                  "-1:59:58.500 --> 00:00:00.000"; "early"; "" ]).
Proof. vm_compute. reflexivity. Qed.

End OnTheClock.

(* ===================================================================== *)
(** * Further properties of sweep.py *)
(* ===================================================================== *)

Section Replies.

Variable path_exists : string -> bool.
Variable basename : string -> string.
Variable subprocess_run : list string -> result string.
Variable json_loads : string -> result value.

Abbreviation fetch := (fetch subprocess_run json_loads).
Abbreviation error_record := (error_record basename).
Abbreviation file_record := (file_record basename).
Abbreviation run_files :=
  (run_files path_exists basename subprocess_run json_loads).
Abbreviation run_test :=
  (run_test path_exists basename subprocess_run json_loads).
Abbreviation run_all :=
  (run_all path_exists basename subprocess_run json_loads).
Abbreviation sweep :=
  (sweep path_exists basename subprocess_run json_loads).

Lemma dict_get_missing (k : string) (default : value) (d : dict) :
  dict_lookup k d = None -> dict_get k default d = default.
Proof. intros H. unfold dict_get. now rewrite H. Qed.

Lemma file_record_blank (f : string) (d : dict) :
  (forall k, In k Reply.keys -> dict_lookup k d = None) ->
  file_record f (VDict d) = Ok (Reply.blank (basename f)).
Proof.
  intros H. unfold Sweep.file_record.
  rewrite !dict_get_missing by (apply H; cbn; auto 10).
  reflexivity.
Qed.

(** X11. A response that is a JSON object with none of the keys the sweep
    reads (the body of a refused request, say) is not an error for
    [run_test]: its record has no [error] key, counts no words and no
    segments and holds 0 for every number; it is kept as valid by the
    summary, where a configuration with this record alone shows zeros. *)
Theorem refused_request_counts_as_valid (f label : string) (d : dict) :
  (forall k, In k Reply.keys -> dict_lookup k d = None) ->
  file_record f (VDict d) = Ok (Reply.blank (basename f)) /\
  valid_of [Reply.blank (basename f)] = [Reply.blank (basename f)] /\
  summary_table [(label, [Reply.blank (basename f)])] =
    Ok [align_left 55 label
          +:+ "    0.000    0.000        0    0.000"].
Proof.
  intros H. split; [now apply file_record_blank|].
  split; reflexivity.
Qed.

Lemma file_record_not_object (f : string) (data : value) :
  Reply.is_object data = false ->
  file_record f data = Raise (AttributeError "object has no attribute 'get'").
Proof. destruct data; try reflexivity. discriminate. Qed.

Lemma run_files_raises (params : list (string * string)) (f : string)
    (data : value) (files : list string) :
  In f files -> path_exists f = true -> fetch f params = Ok data ->
  Reply.is_object data = false ->
  forall acc, exists cs e, run_files files params acc = (cs, Raise e).
Proof.
  intros Hin Hex Hfetch Hobj.
  induction files as [|g rest IH]; [contradiction|]. intros acc.
  cbn [Sweep.run_files].
  destruct (String.string_dec g f) as [->|Hne].
  - rewrite Hex, Hfetch, (file_record_not_object f data Hobj). cbn.
    eauto.
  - assert (Hin' : In f rest) by (destruct Hin; [congruence|assumption]).
    specialize (IH Hin').
    destruct (path_exists g); cbn; [|apply IH].
    destruct (Sweep.fetch subprocess_run json_loads g params) as [dg|e].
    + destruct (file_record g dg) as [r|e]; [|eauto].
      destruct (IH (acc ++ [r])) as (cs & e & ->). eauto.
    + destruct (IH (acc ++ [error_record g e])) as (cs & e' & ->). eauto.
Qed.

Lemma run_all_raises (label : string) (params : list (string * string))
    (f : string) (data : value)
    (tests : list (string * list (string * string))) :
  In (label, params) tests -> In f FILES -> path_exists f = true ->
  fetch f params = Ok data -> Reply.is_object data = false ->
  forall acc, exists cs e, run_all tests acc = (cs, Raise e).
Proof.
  intros Hin HF Hex Hfetch Hobj.
  induction tests as [|[l p] rest IH]; [contradiction|]. intros acc.
  cbn [Sweep.run_all].
  destruct Hin as [Heq|Hin].
  - inversion Heq; subst l p. unfold Sweep.run_test.
    destruct (run_files_raises params f data FILES HF Hex Hfetch Hobj [])
      as (cs & e & ->). eauto.
  - destruct (run_test l p) as [cs [results|e]]; [|eauto].
    destruct (IH Hin (dict_set l results acc)) as (cs' & e & ->). eauto.
Qed.

(** X12. A response that decodes, but not to a JSON object (an array, a
    string, a number, [null]), is not caught by the [try] of [run_test]:
    the run over the files ends at this file with an [AttributeError],
    after its one command, whatever files follow; and a sweep in which
    some configuration meets such a response for a file of the list ends
    with an exception instead of a summary table. *)
Theorem non_object_ends_the_sweep
    (tests : list (string * list (string * string))) (label : string)
    (params : list (string * string)) (f : string) (data : value) :
  In (label, params) tests -> In f FILES -> path_exists f = true ->
  fetch f params = Ok data -> Reply.is_object data = false ->
  (forall rest acc, exists e,
     run_files (f :: rest) params acc = ([curl_cmd f params], Raise e) /\
     exn_class e = "AttributeError") /\
  exists cs e, sweep tests = (cs, Raise e).
Proof.
  intros Hin HF Hex Hfetch Hobj. split.
  - intros rest acc. cbn [Sweep.run_files].
    rewrite Hex, Hfetch, (file_record_not_object f data Hobj). cbn.
    eexists. split; reflexivity.
  - unfold Sweep.sweep.
    destruct (run_all_raises label params f data tests Hin HF Hex Hfetch
                Hobj []) as (cs & e & ->). eauto.
Qed.

End Replies.

Section Records.

Variable path_exists : string -> bool.
Variable basename : string -> string.
Variable subprocess_run : list string -> result string.
Variable json_loads : string -> result value.

Abbreviation fetch := (fetch subprocess_run json_loads).
Abbreviation error_record := (error_record basename).
Abbreviation file_record := (file_record basename).
Abbreviation run_files :=
  (run_files path_exists basename subprocess_run json_loads).
Abbreviation run_test :=
  (run_test path_exists basename subprocess_run json_loads).
Abbreviation run_all :=
  (run_all path_exists basename subprocess_run json_loads).
Abbreviation sweep :=
  (sweep path_exists basename subprocess_run json_loads).

(** ** The counts of a record *)

Lemma chars_length (s : string) : length (chars s) = String.length s.
Proof. induction s as [|c s IH]; cbn; [reflexivity|now rewrite IH]. Qed.

Lemma len_iterate (v : value) (n : Z) (ws : list value) :
  len v = Ok n -> iterate v = Ok ws -> n = Z.of_nat (length ws).
Proof.
  destruct v; cbn; intros H1 H2; try discriminate;
    inversion H1; inversion H2; subst.
  - now rewrite chars_length.
  - reflexivity.
  - now rewrite length_map.
Qed.

Lemma len_zero (v : value) :
  len v = Ok 0 -> truthy v = false /\ iterate v = Ok [].
Proof.
  destruct v as [| | | |s|l|d]; cbn; intros H; try discriminate;
    inversion H as [H0].
  - destruct s; [split; reflexivity|cbn in H0; lia].
  - destruct l; [split; reflexivity|cbn in H0; lia].
  - destruct d; [split; reflexivity|cbn in H0; lia].
Qed.

(** X13. Every record [run_test] keeps for an answered file has the nine
    keys of the source in their order and no [error]; its [segments] and
    [words] are the lengths of the response's, its [low_conf_words] lies
    between 0 and [words], and with no words both [avg_prob] and
    [min_prob] are the integer 0. *)
Theorem file_record_counts (f : string) (data : value) (r : dict) :
  file_record f data = Ok r ->
  exists (d : dict) (n_segs n_words low : Z) (avg least : value),
    data = VDict d /\
    r = [ ("file", VStr (basename f));
          ("duration", dict_get "duration" (VInt 0) d);
          ("proc_time", dict_get "processing_time" (VInt 0) d);
          ("segments", VInt n_segs);
          ("words", VInt n_words);
          ("avg_prob", avg);
          ("min_prob", least);
          ("low_conf_words", VInt low);
          ("text", dict_get "text" (VStr "") d) ] /\
    len (dict_get "segments" (VList []) d) = Ok n_segs /\
    len (dict_get "words" (VList []) d) = Ok n_words /\
    0 <= low <= n_words /\
    (n_words = 0 -> avg = VInt 0 /\ least = VInt 0).
Proof.
  intros H. destruct data as [| | | | | |d]; try discriminate.
  unfold Sweep.file_record in H.
  set (words := dict_get "words" (VList []) d) in *.
  set (segs := dict_get "segments" (VList []) d) in *.
  match type of H with
  | bind ?a _ = _ => destruct a as [avg_prob|] eqn:Eavg;
                       cbn [bind] in H; [|discriminate]
  end.
  destruct (iterate words) as [ws|] eqn:Eit; cbn [bind] in H;
    [|discriminate].
  destruct (probabilities ws) as [ps|] eqn:Eps; cbn [bind] in H;
    [|discriminate].
  destruct (len segs) as [n_segs|] eqn:Esegs; cbn [bind] in H;
    [|discriminate].
  destruct (len words) as [n_words|] eqn:Ewords; cbn [bind] in H;
    [|discriminate].
  repeat match type of H with
         | bind ?a _ = _ => destruct a; cbn [bind] in H; [|discriminate]
         end.
  inversion H as [Hr]. clear H Hr.
  eexists d, n_segs, n_words, _, _, _.
  split; [reflexivity|]. split; [reflexivity|].
  split; [exact Esegs|]. split; [exact Ewords|].
  pose proof (len_iterate _ _ _ Ewords Eit) as Hn.
  pose proof (traverse_length _ _ _ Eps) as Hps.
  split.
  - split; [lia|]. rewrite Hn, <- Hps. apply inj_le.
    apply List.filter_length_le.
  - intros H0. rewrite H0 in Ewords.
    destruct (len_zero words Ewords) as [Hfalsy Hnone].
    rewrite Hfalsy in Eavg. inversion Eavg; subst avg_prob.
    rewrite Hnone in Eit. inversion Eit; subst ws.
    cbn in Eps. inversion Eps; subst ps. split; reflexivity.
Qed.

(** ** The entries of [all_results] *)

Lemma dict_set_new (label : string) (results : list dict)
    (all : list (string * list dict)) :
  ~ In label (map fst all) ->
  dict_set label results all = all ++ [(label, results)].
Proof.
  induction all as [|[l rs] rest IH]; intros Hnot; [reflexivity|].
  cbn [dict_set]. destruct (String.eqb label l) eqn:E.
  - apply String.eqb_eq in E. subst. exfalso. apply Hnot. now left.
  - cbn [app]. f_equal. apply IH. intros Hin. apply Hnot. now right.
Qed.

(** What one configuration adds to [all_results]. *)
Abbreviation kept :=
  (fun (t : string * list (string * string)) (a : string * list dict) =>
     fst a = fst t /\ snd (run_test (fst t) (snd t)) = Ok (snd a)).

Abbreviation commands :=
  (fun tests : list (string * list (string * string)) =>
     concat (map (fun t => fst (run_test (fst t) (snd t))) tests)).

Lemma run_all_entries (tests : list (string * list (string * string))) :
  NoDup (map fst tests) ->
  forall (acc all : list (string * list dict)) (cs : list (list string)),
    (forall l, In l (map fst tests) -> ~ In l (map fst acc)) ->
    (run_all tests acc = (cs, Ok all) <->
     cs = commands tests /\
     exists news, all = acc ++ news /\ Forall2 kept tests news).
Proof.
  induction tests as [|[l p] rest IH]; intros Hnd acc all cs Hfresh.
  - cbn [Sweep.run_all map concat]. split.
    + intros H. injection H as <- <-. split; [reflexivity|].
      exists []. rewrite app_nil_r. split; [reflexivity|constructor].
    + intros (-> & news & -> & HF). inversion HF; subst.
      now rewrite app_nil_r.
  - cbn [map fst] in Hnd. apply NoDup_cons in Hnd as [Hl Hnd].
    rewrite list_elem_of_In in Hl.
    cbn [Sweep.run_all map concat fst snd].
    destruct (run_test l p) as [c1 [rs|e]] eqn:Erun; cbn [fst snd].
    + rewrite dict_set_new by (apply Hfresh; now left).
      destruct (run_all rest (acc ++ [(l, rs)])) as [cs' r] eqn:Erest.
      assert (Hfresh' : forall l', In l' (map fst rest) ->
                ~ In l' (map fst (acc ++ [(l, rs)]))).
      { intros l' Hin. rewrite map_app, in_app_iff. cbn.
        intros [Hacc|[->|[]]]; [|contradiction].
        apply (Hfresh l'); [now right|assumption]. }
      specialize (IH Hnd (acc ++ [(l, rs)])).
      split.
      * intros H. inversion H; subst.
        destruct (proj1 (IH all cs' Hfresh') Erest)
          as (-> & news & -> & HF).
        split; [reflexivity|].
        exists ((l, rs) :: news). rewrite <- app_assoc.
        split; [reflexivity|]. constructor; [|assumption].
        cbn [fst snd]. split; [reflexivity|]. now rewrite Erun.
      * intros (-> & news & -> & HF).
        inversion HF as [|t a ts news' [Ha1 Ha2] HF']; subst.
        destruct a as [la ra]. cbn [fst snd] in Ha1, Ha2. subst la.
        rewrite Erun in Ha2. cbn [fst snd] in Ha2. inversion Ha2; subst ra.
        assert (E : run_all rest (acc ++ [(l, rs)]) =
                      (commands rest, Ok ((acc ++ [(l, rs)]) ++ news'))).
        { apply IH; [assumption|]. split; [reflexivity|].
          exists news'. split; [reflexivity|assumption]. }
        rewrite Erest in E. inversion E; subst.
        now rewrite <- app_assoc.
    + split; [discriminate|].
      intros (_ & news & _ & HF).
      inversion HF as [|t a ts news' [_ Ha2] HF']; subst.
      cbn [fst snd] in Ha2. rewrite Erun in Ha2. discriminate.
Qed.

(** X14. When the labels of the configurations are distinct, the loop
    over them returns exactly when every [run_test] does, and then
    [all_results] holds one entry for each configuration, in their order:
    its label with the records of its [run_test]; the commands run are
    those of the configurations, one after the other. *)
Theorem run_all_keeps_every_configuration
    (tests : list (string * list (string * string)))
    (cs : list (list string)) (all : list (string * list dict)) :
  NoDup (map fst tests) ->
  (run_all tests [] = (cs, Ok all) <->
   cs = commands tests /\ Forall2 kept tests all).
Proof.
  intros Hnd.
  rewrite (run_all_entries tests Hnd [] all cs) by (intros l _ []).
  cbn [app]. split.
  - intros (-> & news & -> & HF). now split.
  - intros (-> & HF). split; [reflexivity|]. now exists all.
Qed.

End Records.

Section Completion.

Variable path_exists : string -> bool.
Variable basename : string -> string.
Variable subprocess_run : list string -> result string.
Variable json_loads : string -> result value.

Abbreviation fetch := (fetch subprocess_run json_loads).
Abbreviation error_record := (error_record basename).
Abbreviation file_record := (file_record basename).
Abbreviation run_files :=
  (run_files path_exists basename subprocess_run json_loads).
Abbreviation run_test :=
  (run_test path_exists basename subprocess_run json_loads).
Abbreviation run_all :=
  (run_all path_exists basename subprocess_run json_loads).
Abbreviation sweep :=
  (sweep path_exists basename subprocess_run json_loads).

(** A number that is a measure. *)
Abbreviation measured := (fun a : num => Reply.measure (of_num a) = true).

(** ** Arithmetic on measures *)

Lemma float_of_count (n : Z) :
  0 < n < 2 ^ 53 ->
  exists y : float, float_of_int n = Ok y /\ feq y pzero = false.
Proof.
  intros Hn. destruct n as [|q|q]; try lia.
  exists (Exact.of_int (Zpos q)).
  unfold float_of_int, float_of_Z. cbn [binary_normalize].
  rewrite float_of_small_int by lia. split; reflexivity.
Qed.

Lemma measured_cases (a : num) :
  measured a -> a = NInt 0 \/ exists x, a = NFloat x.
Proof.
  destruct a as [z|x]; cbn; [|eauto].
  destruct z; [auto|discriminate..].
Qed.

Lemma num_add_measured (a b : num) :
  measured a -> measured b ->
  exists c, num_add a b = Ok c /\ measured c.
Proof.
  intros Ha Hb.
  destruct (measured_cases a Ha) as [->|[x ->]];
    destruct (measured_cases b Hb) as [->|[y ->]];
    eexists; split; reflexivity.
Qed.

Lemma num_truediv_measured (a : num) (n : Z) :
  measured a -> 0 < n < 2 ^ 53 ->
  exists x, num_truediv a (NInt n) = Ok (NFloat x).
Proof.
  intros Ha Hn. destruct (measured_cases a Ha) as [->|[x ->]].
  - destruct n; try lia. cbn. eauto.
  - destruct (float_of_count n Hn) as (y & Hy & Hnz).
    unfold num_truediv, to_float. rewrite Hy. cbn [bind]. rewrite Hnz.
    eauto.
Qed.

Lemma format_3f_measured (a : num) :
  measured a -> exists s, format_3f a = Ok s.
Proof.
  intros Ha. destruct (measured_cases a Ha) as [->|[x ->]];
    eexists; reflexivity.
Qed.

Lemma min_from_measured (l : list num) :
  Forall (fun a => measured a) l ->
  forall cur, measured cur -> measured (min_from cur l).
Proof.
  induction 1 as [|a l Ha _ IH]; intros cur Hcur; [exact Hcur|].
  cbn [min_from]. apply IH. now destruct (num_lt a cur).
Qed.

Lemma num_round_measured (a : num) (nd : N) :
  measured a -> measured (num_round a nd).
Proof. destruct a; [exact id|reflexivity]. Qed.

Lemma measure_as_num (v : value) :
  Reply.measure v = true -> exists a, as_num v = Ok a /\ measured a.
Proof.
  destruct v as [| |z|x| | |]; try discriminate; intros H.
  - exists (NInt z). split; [reflexivity|exact H].
  - exists (NFloat x). split; reflexivity.
Qed.

(** ** A well-formed response gives a record *)

Lemma scored_word_number (w : value) :
  Reply.scored_word w = true ->
  exists x, (p <- subscript "probability" w ;; as_num p) = Ok (NFloat x).
Proof.
  destruct w as [| | | | | |d]; try discriminate. cbn.
  unfold dict_item. destruct (dict_lookup "probability" d) as [[]|];
    try discriminate. eauto.
Qed.

Lemma sum_probabilities_scored (ws : list value) :
  forallb Reply.scored_word ws = true ->
  forall acc, measured acc ->
    exists t, sum_probabilities acc ws = Ok t /\ measured t.
Proof.
  induction ws as [|w ws IH]; intros Hws acc Hacc; [cbn; eauto|].
  cbn [forallb] in Hws. apply andb_prop in Hws as [Hw Hws].
  destruct (scored_word_number w Hw) as (x & Hx).
  cbn [sum_probabilities].
  destruct (subscript "probability" w) as [p|]; cbn [bind] in *;
    [|discriminate].
  rewrite Hx. cbn [bind].
  destruct (num_add_measured acc (NFloat x) Hacc eq_refl) as (c & -> & Hc).
  cbn [bind]. now apply IH.
Qed.

Lemma probabilities_scored (ws : list value) :
  forallb Reply.scored_word ws = true ->
  exists ps, probabilities ws = Ok ps /\ Forall (fun a => measured a) ps.
Proof.
  unfold probabilities.
  induction ws as [|w ws IH]; intros Hws; [cbn; eauto|].
  cbn [forallb] in Hws. apply andb_prop in Hws as [Hw Hws].
  destruct (scored_word_number w Hw) as (x & Hx).
  destruct (IH Hws) as (ps & Hps & Hall).
  cbn [traverse]. rewrite Hx, Hps. cbn [bind].
  eexists. split; [reflexivity|]. constructor; [reflexivity|assumption].
Qed.

Lemma measure_formats (v : value) :
  Reply.measure v = true -> format_aligned_check v = Ok tt.
Proof. destruct v; try discriminate; reflexivity. Qed.

Lemma file_record_returns (f : string) (data : value) :
  Reply.well_formed data = true ->
  exists r, file_record f data = Ok r /\ Reply.summable r = true.
Proof.
  intros H. destruct data as [| | | | | |d]; try discriminate.
  unfold Reply.well_formed in H.
  apply andb_prop in H as [H Hptime]. apply andb_prop in H as [H Hdur].
  unfold Sweep.file_record.
  destruct (dict_get "words" (VList []) d) as [| | | | |ws|] eqn:Ewords;
    try discriminate.
  destruct (dict_get "segments" (VList []) d) as [| | | | |ss|] eqn:Esegs;
    try discriminate.
  apply andb_prop in H as [Hws Hlen]. apply Z.ltb_lt in Hlen.
  destruct (probabilities_scored ws Hws) as (ps & Hps & Hall).
  assert (Havg : exists avg,
    (if truthy (VList ws)
     then ws0 <- iterate (VList ws) ;;
          total <- sum_probabilities (NInt 0) ws0 ;;
          n <- len (VList ws) ;; num_truediv total (NInt n)
     else Ok (NInt 0)) = Ok avg /\ measured avg).
  { destruct ws as [|w ws'] eqn:Ews; [cbn; eauto|]. rewrite <- Ews in *.
    replace (truthy (VList ws)) with true by now rewrite Ews.
    cbn [iterate len bind].
    destruct (sum_probabilities_scored ws Hws (NInt 0) eq_refl)
      as (t & -> & Ht).
    cbn [bind].
    destruct (num_truediv_measured t (Z.of_nat (length ws)) Ht)
      as (x & ->); [rewrite Ews in *; cbn [length] in *; lia|].
    eexists. split; reflexivity. }
  destruct Havg as (avg & -> & Havg).
  cbn [bind iterate]. rewrite Hps. cbn [bind len].
  rewrite (measure_formats _ Hdur), (measure_formats _ Hptime).
  cbn [bind].
  destruct (format_3f_measured avg Havg) as (s1 & ->). cbn [bind].
  assert (Hmin : measured match ps with
                          | [] => NInt 0
                          | p :: ps' => min_from p ps'
                          end).
  { destruct Hall as [|p ps' Hp Hps']; [reflexivity|].
    now apply min_from_measured. }
  destruct (format_3f_measured _ Hmin) as (s2 & ->). cbn [bind].
  eexists. split; [reflexivity|].
  unfold Reply.summable. cbn [dict_has dict_lookup dict_get String.eqb
    Ascii.eqb Bool.eqb Reply.int_of orb].
  cbn.
  rewrite (num_round_measured _ 3 Havg), (num_round_measured _ 3 Hmin).
  now rewrite Hptime.
Qed.

(** ** The runs return *)

Lemma run_files_returns (params : list (string * string))
    (files : list string) :
  (forall f data, In f files -> path_exists f = true ->
     fetch f params = Ok data -> Reply.well_formed data = true) ->
  forall acc, Forall (fun r => Reply.summable r = true) acc ->
    exists cs rs,
      run_files files params acc = (cs, Ok rs) /\
      Forall (fun r => Reply.summable r = true) rs /\
      (length rs <= length acc + length files)%nat.
Proof.
  induction files as [|f rest IH]; intros Hwf acc Hacc.
  - cbn. exists [], acc. repeat split; [assumption|lia].
  - assert (Hwf' : forall g data, In g rest -> path_exists g = true ->
              fetch g params = Ok data -> Reply.well_formed data = true).
    { intros g data Hg. apply Hwf. now right. }
    specialize (IH Hwf'). cbn [Sweep.run_files].
    destruct (path_exists f) eqn:Hex; cbn [negb].
    + destruct (Sweep.fetch subprocess_run json_loads f params)
        as [data|e] eqn:Hfetch.
      * destruct (file_record_returns f data
                    (Hwf f data (or_introl eq_refl) Hex Hfetch))
          as (r & -> & Hr).
        destruct (IH (acc ++ [r])) as (cs & rs & -> & Hrs & Hlen).
        { apply Forall_app. split; [assumption|]. now constructor. }
        eexists _, rs. split; [reflexivity|]. split; [assumption|].
        rewrite length_app in Hlen. cbn [length] in *. lia.
      * destruct (IH (acc ++ [error_record f e]))
          as (cs & rs & -> & Hrs & Hlen).
        { apply Forall_app. split; [assumption|]. now constructor. }
        eexists _, rs. split; [reflexivity|]. split; [assumption|].
        rewrite length_app in Hlen. cbn [length] in *. lia.
    + destruct (IH acc Hacc) as (cs & rs & -> & Hrs & Hlen).
      eexists _, rs. split; [reflexivity|]. split; [assumption|].
      cbn [length]. lia.
Qed.

(** The records of a configuration the summary can take: all summable,
    and no more of them than there are files. *)
Abbreviation summable_entry :=
  (fun kv : string * list dict =>
     Forall (fun r => Reply.summable r = true) (snd kv) /\
     (length (snd kv) <= length FILES)%nat).

Lemma dict_set_summable (label : string) (results : list dict)
    (all : list (string * list dict)) :
  summable_entry (label, results) -> Forall summable_entry all ->
  Forall summable_entry (dict_set label results all) /\
  (length (dict_set label results all) <= S (length all))%nat.
Proof.
  intros Hnew. induction 1 as [|[l rs] rest Hl Hrest IH];
    [cbn; split; [now constructor|lia]|].
  cbn [dict_set]. destruct (String.eqb label l).
  - split; [now constructor|cbn [length]; lia].
  - destruct IH as [IH1 IH2]. split; [now constructor|cbn [length]; lia].
Qed.

Lemma run_all_returns (tests : list (string * list (string * string))) :
  (forall label params f data,
     In (label, params) tests -> In f FILES -> path_exists f = true ->
     fetch f params = Ok data -> Reply.well_formed data = true) ->
  forall acc, Forall summable_entry acc ->
    exists cs all,
      run_all tests acc = (cs, Ok all) /\
      Forall summable_entry all /\
      (length all <= length acc + length tests)%nat.
Proof.
  induction tests as [|[l p] rest IH]; intros Hwf acc Hacc.
  - cbn. exists [], acc. repeat split; [assumption|lia].
  - cbn [Sweep.run_all]. unfold Sweep.run_test.
    destruct (run_files_returns p FILES
                (fun f data => Hwf l p f data (or_introl eq_refl)) []
                (List.Forall_nil _))
      as (cs & rs & -> & Hrs & Hlen).
    destruct (dict_set_summable l rs acc (conj Hrs Hlen) Hacc)
      as [Hset Hsetlen].
    destruct (IH (fun label params f data Hin =>
                    Hwf label params f data (or_intror Hin))
                 (dict_set l rs acc) Hset)
      as (cs' & all & -> & Hall & Hlen').
    eexists _, all. split; [reflexivity|]. split; [assumption|].
    cbn [length]. lia.
Qed.

(** ** The summary returns *)

Lemma summable_valid (r : dict) :
  Reply.summable r = true -> dict_has "error" r = false ->
  (forall k, In k ["avg_prob"; "min_prob"; "proc_time"] ->
     exists v, dict_item k r = Ok v /\ Reply.measure v = true) /\
  exists z, dict_item "low_conf_words" r = Ok (VInt z).
Proof.
  unfold Reply.summable. intros H He. rewrite He in H. cbn [orb] in H.
  apply andb_prop in H as [H Hlow]. apply andb_prop in H as [H Ht].
  apply andb_prop in H as [Ha Hm].
  assert (G : forall k, Reply.measure (dict_get k VNone r) = true ->
            exists v, dict_item k r = Ok v /\ Reply.measure v = true).
  { intros k Hk. unfold dict_get, dict_item in *.
    destruct (dict_lookup k r) as [v|]; [eauto|discriminate]. }
  split.
  - intros k [<-|[<-|[<-|[]]]]; now apply G.
  - unfold dict_item, Reply.int_of in *.
    destruct (dict_lookup "low_conf_words" r) as [[]|]; try discriminate.
    eauto.
Qed.

Abbreviation taken :=
  (fun r : dict => Reply.summable r = true /\ dict_has "error" r = false).

Lemma sum_column_measured (k : string) (rs : list dict) :
  In k ["avg_prob"; "min_prob"; "proc_time"] ->
  Forall taken rs ->
  forall acc, measured acc ->
    exists t, sum_column k acc rs = Ok t /\ measured t.
Proof.
  intros Hk. induction 1 as [|r rs [Hr He] _ IH]; intros acc Hacc;
    [cbn; eauto|].
  cbn [sum_column].
  destruct (proj1 (summable_valid r Hr He) k Hk) as (v & -> & Hv).
  cbn [bind]. destruct (measure_as_num v Hv) as (a & -> & Ha). cbn [bind].
  destruct (num_add_measured acc a Hacc Ha) as (c & -> & Hc). cbn [bind].
  now apply IH.
Qed.

Lemma sum_column_ints (rs : list dict) :
  Forall taken rs ->
  forall z, exists z', sum_column "low_conf_words" (NInt z) rs = Ok (NInt z').
Proof.
  induction 1 as [|r rs [Hr He] _ IH]; intros z; [cbn; eauto|].
  cbn [sum_column].
  destruct (proj2 (summable_valid r Hr He)) as (k & ->). cbn.
  apply IH.
Qed.

Lemma column_measured (k : string) (rs : list dict) :
  In k ["avg_prob"; "min_prob"; "proc_time"] ->
  Forall taken rs ->
  exists ms, column k rs = Ok ms /\ Forall (fun a => measured a) ms.
Proof.
  intros Hk. unfold column.
  induction 1 as [|r rs [Hr He] _ IH]; [cbn; eauto|].
  cbn [traverse].
  destruct (proj1 (summable_valid r Hr He) k Hk) as (v & -> & Hv).
  cbn [bind]. destruct (measure_as_num v Hv) as (a & -> & Ha). cbn [bind].
  destruct IH as (ms & -> & Hms). cbn [bind].
  eexists. split; [reflexivity|]. now constructor.
Qed.

Lemma summary_line_returns (label : string) (valid : list dict) :
  Forall taken valid ->
  0 < Z.of_nat (length valid) < 2 ^ 53 ->
  exists line, summary_line label valid = Ok line.
Proof.
  intros Hv Hn. unfold summary_line.
  destruct (sum_column_measured "avg_prob" valid ltac:(cbn; tauto) Hv
              (NInt 0) eq_refl) as (total & -> & Htotal).
  cbn [bind].
  destruct (num_truediv_measured total _ Htotal Hn) as (avg_p & ->).
  cbn [bind].
  destruct (column_measured "min_prob" valid ltac:(cbn; tauto) Hv)
    as (ms & -> & Hms).
  cbn [bind].
  destruct (sum_column_ints valid Hv 0) as (low_c & ->). cbn [bind].
  destruct (sum_column_measured "proc_time" valid ltac:(cbn; tauto) Hv
              (NInt 0) eq_refl) as (total_t & -> & Htotal_t).
  cbn [bind].
  destruct (num_truediv_measured total_t _ Htotal_t Hn) as (avg_t & ->).
  cbn [bind].
  assert (Hmin : measured match ms with
                          | [] => NInt 0
                          | m :: ms' => min_from m ms'
                          end).
  { destruct Hms as [|m ms' Hm Hms']; [reflexivity|].
    now apply min_from_measured. }
  unfold format_8_3f.
  destruct (format_3f_measured (NFloat avg_p) eq_refl) as (s1 & ->).
  cbn [bind].
  destruct (format_3f_measured _ Hmin) as (s2 & ->). cbn [bind].
  cbn [format_8d bind].
  destruct (format_3f_measured (NFloat avg_t) eq_refl) as (s4 & ->).
  cbn [bind]. eauto.
Qed.

Lemma valid_of_taken (results : list dict) :
  Forall (fun r => Reply.summable r = true) results ->
  Forall taken (valid_of results) /\
  (length (valid_of results) <= length results)%nat.
Proof.
  unfold valid_of. induction 1 as [|r rs Hr _ [IH1 IH2]];
    [split; [constructor|cbn; lia]|].
  cbn [List.filter]. destruct (dict_has "error" r) eqn:He; cbn [negb].
  - split; [assumption|cbn [length]; lia].
  - split; [now constructor|cbn [length]; lia].
Qed.

Lemma summary_table_returns (all : list (string * list dict)) :
  Forall summable_entry all ->
  exists lines,
    summary_table all = Ok lines /\ (length lines <= length all)%nat.
Proof.
  induction 1 as [|[label results] rest [Hrs Hlen] _ IH];
    [exists []; split; [reflexivity|cbn; lia]|].
  cbn [fst snd] in *. destruct IH as (lines & Hlines & Hle).
  cbn [summary_table].
  destruct (valid_of_taken results Hrs) as [Hv Hvl].
  destruct (valid_of results) as [|r valid] eqn:Ev.
  - exists lines. split; [assumption|cbn [length]; lia].
  - destruct (summary_line_returns label (r :: valid) Hv) as (line & ->).
    { split; [cbn [length]; lia|].
      apply Z.le_lt_trans with (Z.of_nat (length FILES)); [lia|].
      apply Z.ltb_lt. reflexivity. }
    rewrite Hlines. cbn [bind]. eexists. split; [reflexivity|].
    cbn [length]. lia.
Qed.

(** X15. The sweep completes when every request is answered as the server
    answers: if, for every configuration and every file of the list that
    exists, the response either fails to arrive or to decode, or is
    well-formed, then no exception ends the sweep; it returns the lines
    of the summary table, at most one for each configuration. *)
Theorem sweep_completes (tests : list (string * list (string * string))) :
  (forall label params f data,
     In (label, params) tests -> In f FILES -> path_exists f = true ->
     fetch f params = Ok data -> Reply.well_formed data = true) ->
  exists cs lines,
    sweep tests = (cs, Ok lines) /\ (length lines <= length tests)%nat.
Proof.
  intros Hwf. unfold Sweep.sweep.
  destruct (run_all_returns tests Hwf [] (List.Forall_nil _))
    as (cs & all & -> & Hall & Hlen).
  destruct (summary_table_returns all Hall) as (lines & -> & Hle).
  exists cs, lines. split; [reflexivity|]. cbn [length] in Hlen. lia.
Qed.

End Completion.

Section SweepTrials.

(** The body of a refused request: a record of zeros under the name of
    the file. *)
Lemma refused_request_counts_as_valid_witness :
  Sweep.file_record Sample.after_last_separator "D:\calls\a.m4a"
    (VDict Trial.refusal) = Ok (Reply.blank "a.m4a").
Proof.
  refine (proj1 (refused_request_counts_as_valid
                   Sample.after_last_separator "D:\calls\a.m4a" "BEAM=3"
                   Trial.refusal _)).
  intros k Hk. cbn in Hk.
  repeat (destruct Hk as [<-|Hk]; [reflexivity|]). contradiction.
Defined.

(** A server that answers with a JSON array: the sweep ends with an
    exception. *)
Lemma non_object_ends_the_sweep_witness :
  exists cs e,
    Sweep.sweep Sample.on_disk Sample.after_last_separator Trial.answering
      Trial.decoding_array Trial.two_tests = (cs, Raise e).
Proof.
  refine (proj2 (non_object_ends_the_sweep Sample.on_disk
                   Sample.after_last_separator Trial.answering
                   Trial.decoding_array Trial.two_tests "BEAM=3"
                   [ ("temperature", "0.0"); ("beam_size", "3") ]
                   "D:\Downloads\test_audio\11501-1732890340-4771.m4a"
                   (VList []) _ _ _ _ _)).
  - right. left. reflexivity.
  - right. left. reflexivity.
  - reflexivity.
  - reflexivity.
  - reflexivity.
Defined.

Example sweep_of_arrays :
  Sweep.sweep Sample.on_disk Sample.after_last_separator Trial.answering
    Trial.decoding_array Trial.two_tests =
    ([ curl_cmd "D:\Downloads\test_audio\11501-1732890340-4771.m4a"
         [ ("temperature", "0.0") ] ],
     Raise (AttributeError "object has no attribute 'get'")).
Proof. vm_compute. reflexivity. Qed.

(** A response of two words, one below 0.3. *)
Lemma file_record_counts_witness :
  exists r : dict,
    Sweep.file_record Sample.after_last_separator "D:\calls\a.m4a"
      Trial.reply = Ok r /\
    exists n_words low : Z,
      dict_lookup "words" r = Some (VInt n_words) /\
      dict_lookup "low_conf_words" r = Some (VInt low) /\
      0 <= low <= n_words.
Proof.
  destruct (Sweep.file_record Sample.after_last_separator "D:\calls\a.m4a"
              Trial.reply) as [r|e] eqn:H;
    [|vm_compute in H; discriminate].
  exists r. split; [reflexivity|].
  destruct (file_record_counts _ _ _ _ H)
    as (d & n_segs & n_words & low & avg & least & _ & -> & _ & _ & Hlow
        & _).
  exists n_words, low. repeat split; apply Hlow.
Defined.

Example file_record_of_reply :
  Sweep.file_record Sample.after_last_separator "D:\calls\a.m4a"
    Trial.reply =
    Ok [ ("file", VStr "a.m4a");
         ("duration", VFloat (float_of_decimal false 184 (-2)));
         ("proc_time", VFloat (float_of_decimal false 25 (-2)));
         ("segments", VInt 1);
         ("words", VInt 2);
         ("avg_prob", VFloat (float_of_decimal false 55 (-2)));
         ("min_prob", VFloat (float_of_decimal false 2 (-1)));
         ("low_conf_words", VInt 1);
         ("text", VStr "Medic 23") ].
Proof. vm_compute. reflexivity. Qed.

Lemma two_tests_distinct : NoDup (map fst Trial.two_tests).
Proof.
  apply NoDup_ListNoDup. repeat constructor; cbn; intuition discriminate.
Qed.

(** Two configurations against a server that answers: two entries. *)
Lemma run_all_keeps_every_configuration_witness :
  NoDup (map fst Trial.two_tests) /\
  exists cs all,
    Sweep.run_all Sample.on_disk Sample.after_last_separator
      Trial.answering Trial.decoding Trial.two_tests [] = (cs, Ok all) /\
    map fst all = [ "BASELINE (temp=0.0 only)"; "BEAM=3" ].
Proof.
  split; [exact two_tests_distinct|].
  destruct (Sweep.run_all Sample.on_disk Sample.after_last_separator
              Trial.answering Trial.decoding Trial.two_tests [])
    as [cs [all|e]] eqn:H; [|vm_compute in H; discriminate].
  exists cs, all. split; [reflexivity|].
  destruct (proj1 (run_all_keeps_every_configuration _ _ _ _
                     Trial.two_tests cs all two_tests_distinct) H)
    as [_ HF].
  inversion HF as [|t1 a1 ts1 as1 [H1 _] HF1]; subst.
  inversion HF1 as [|t2 a2 ts2 as2 [H2 _] HF2]; subst.
  inversion HF2; subst. cbn [map]. now rewrite H1, H2.
Defined.

(** Two configurations against a server that answers: the sweep returns
    its table. *)
Lemma sweep_completes_witness :
  exists cs lines,
    Sweep.sweep Sample.on_disk Sample.after_last_separator Trial.answering
      Trial.decoding Trial.two_tests = (cs, Ok lines) /\
    (length lines <= 2)%nat.
Proof.
  refine (sweep_completes Sample.on_disk Sample.after_last_separator
            Trial.answering Trial.decoding Trial.two_tests _).
  intros label params f data _ _ _ H. cbv in H. inversion H.
  vm_compute. reflexivity.
Defined.

Example sweep_of_replies :
  snd (Sweep.sweep Sample.on_disk Sample.after_last_separator
         Trial.answering Trial.decoding Trial.two_tests) =
    Ok [ align_left 55 "BASELINE (temp=0.0 only)"
           +:+ "    0.550    0.200        2    0.250";
         align_left 55 "BEAM=3"
           +:+ "    0.550    0.200        2    0.250" ].
Proof. vm_compute. reflexivity. Qed.

End SweepTrials.
